(** * Qbit wallet backend: block pipeline, daemon client and validation

    A shallow embedding of the parts of the wallet backend that carry the
    synchronisation logic:

    - [Utilities.isInputUnlocked] (lib/Utilities.js),
    - [Assert.assertType] and [ValidateParameters.validatePaymentID]
      (lib/Assert.js, lib/ValidateParameters.js),
    - [Daemon.makeRequest], [Daemon.getWalletSyncData],
      [Daemon.updateDaemonInfo] (lib/Daemon.js),
    - [WalletSynchronizer.reset], [rewind], [findCancelledTransactions],
      [dropBlock], [downloadBlocks] (lib/WalletSynchronizer.js),
    - [Utilities.isHex64], [getLowerBound], [getUpperBound],
      [splitAmountIntoDenominations] (lib/Utilities.js),
    - [Daemon.getGlobalIndexesForRange], [getCancelledTransactions],
      [getRandomOutputsByAmount] (lib/Daemon.js),
    - [WalletSynchronizer.fetchBlocks], [getWalletSyncDataHashes],
      [processBlockOutputs], [processTransactionOutputs], [processBlock],
      [processCoinbaseTransaction], [processTransaction]
      (lib/WalletSynchronizer.js),
    - [WalletBackend.getGlobalIndexes], [processBlocks], [sync],
      [updateDaemonInfo] and the handlers of [setupEventHandlers]
      (lib/WalletBackend.js).

    JavaScript numbers that hold heights, counts and timestamps are integers
    here ([Z]); a field that the code may leave [undefined] is an [option].
    An [async] method is cut at its [await]: the part that runs before the
    daemon answers and the part that runs once the answer is there are two
    functions, and the answer is an argument of the second. *)

From Stdlib Require Import ZArith List String Bool Lia Sorted Permutation.
Import ListNotations.
Open Scope Z_scope.

(** ** JavaScript values and helpers *)

Module JS.

(** A JavaScript string is a sequence of UTF-16 code units; [length] counts
    code units. *)
Definition jsstring := list N.

Definition of_ascii (s : string) : jsstring :=
  map Ascii.N_of_ascii (list_ascii_of_string s).

Inductive value :=
| Undefined
| Boolean (b : bool)
| Number (n : Z)
| Str (s : jsstring)
| Obj.

Definition typeof (v : value) : string :=
  match v with
  | Undefined => "undefined"
  | Boolean _ => "boolean"
  | Number _ => "number"
  | Str _ => "string"
  | Obj => "object"
  end%string.

(** A computation that either returns or throws an [Error] with a message. *)
Inductive completion (A : Type) :=
| Return (a : A)
| Throw (message : string).
Arguments Return {A} a.
Arguments Throw {A} message.

Definition bind {A B} (c : completion A) (k : A -> completion B) : completion B :=
  match c with
  | Return a => k a
  | Throw m => Throw m
  end.

(** [Math.ceil(a / b)] for integers [a] and [b > 0]. *)
Definition ceil_div (a b : Z) : Z := - ((- a) / b).

(** [x < y], [x > y], [x >= y] where either side may be [undefined]: every
    comparison with [undefined] is false. *)
Definition lt (x y : option Z) : bool :=
  match x, y with
  | Some a, Some b => a <? b
  | _, _ => false
  end.

Definition ge (x y : option Z) : bool :=
  match x, y with
  | Some a, Some b => a >=? b
  | _, _ => false
  end.

(** [x !== y] on numbers that may be [undefined]. *)
Definition strict_ne (x y : option Z) : bool :=
  match x, y with
  | Some a, Some b => negb (a =? b)
  | None, None => false
  | _, _ => true
  end.

End JS.

Notation "x <- c ;; k" := (JS.bind c (fun x => k))
  (at level 61, c at next level, right associativity).

(** ** lib/WalletError *)

Module WalletError.

(** The members of [WalletErrorCode] that the functions below return, with
    their numeric codes. *)
Inductive WalletErrorCode :=
| SUCCESS_CODE
| PAYMENT_ID_WRONG_LENGTH
| PAYMENT_ID_INVALID.

Definition code_number (c : WalletErrorCode) : Z :=
  match c with
  | SUCCESS_CODE => 0
  | PAYMENT_ID_WRONG_LENGTH => 23
  | PAYMENT_ID_INVALID => 24
  end.

Record t := WalletError { errorCode : WalletErrorCode; customMessage : option string }.

Definition new (c : WalletErrorCode) : t := WalletError c None.

Definition SUCCESS : t := new SUCCESS_CODE.

End WalletError.

(** ** lib/Assert.js *)

Module Assert.

Definition isString (v : JS.value) : bool :=
  match v with JS.Str _ => true | _ => false end.

Definition isBoolean (v : JS.value) : bool :=
  match v with JS.Boolean _ => true | _ => false end.

Definition isUndefined (v : JS.value) : bool :=
  match v with JS.Undefined => true | _ => false end.

Definition assertType (param : JS.value) (name correctType : string)
    (typeVerificationFunc : JS.value -> bool) (allowUndefined : bool)
    : JS.completion unit :=
  if allowUndefined && isUndefined param then JS.Return tt
  else if negb (typeVerificationFunc param) then
    JS.Throw ("Expected " ++ correctType ++ " for '" ++ name
              ++ "' parameter, but got " ++ JS.typeof param)%string
  else JS.Return tt.

Definition assertString (param : JS.value) (name : string) : JS.completion unit :=
  assertType param name "string" isString false.

Definition assertBoolean (param : JS.value) (name : string) : JS.completion unit :=
  assertType param name "boolean" isBoolean false.

End Assert.

(** ** lib/ValidateParameters.js *)

Module ValidateParameters.

(** The character class [[a-zA-Z0-9]] on a code unit. *)
Definition alnum (c : N) : bool :=
  ((48 <=? c) && (c <=? 57) || (65 <=? c) && (c <=? 90) || (97 <=? c) && (c <=? 122))%N.

(** The class [[0-9a-fA-F]] of [isHex64]. *)
Definition hexdigit (c : N) : bool :=
  ((48 <=? c) && (c <=? 57) || (65 <=? c) && (c <=? 70) || (97 <=? c) && (c <=? 102))%N.

(** [n] code units of the class at the head of [s]: the pattern
    [[a-zA-Z0-9]{n}] matched at position 0. *)
Fixpoint class_repeat_at (n : nat) (s : JS.jsstring) : bool :=
  match n with
  | O => true
  | S n' =>
      match s with
      | [] => false
      | c :: s' => alnum c && class_repeat_at n' s'
      end
  end.

(** [s.match(/[a-zA-Z0-9]{n}/) !== null]: the pattern is not anchored, so
    the search tries every start position. *)
Fixpoint class_repeat_search (n : nat) (s : JS.jsstring) : bool :=
  class_repeat_at n s ||
  match s with
  | [] => false
  | _ :: s' => class_repeat_search n s'
  end.

Definition truthy (v : JS.value) : bool :=
  match v with
  | JS.Undefined => false
  | JS.Boolean b => b
  | JS.Number n => negb (n =? 0)
  | JS.Str s => match s with [] => false | _ => true end
  | JS.Obj => true
  end.

Definition is_empty_string (v : JS.value) : bool :=
  match v with JS.Str [] => true | _ => false end.

Definition string_length (v : JS.value) : Z :=
  match v with JS.Str s => Z.of_nat (List.length s) | _ => 0 end.

Definition matches_payment_id (v : JS.value) : bool :=
  match v with JS.Str s => class_repeat_search 64 s | _ => false end.

Definition validatePaymentID (paymentID allowEmptyStringArg : JS.value)
    : JS.completion WalletError.t :=
  let allowEmptyString :=
    match allowEmptyStringArg with
    | JS.Undefined => JS.Boolean true
    | v => v
    end in
  _ <- Assert.assertString paymentID "paymentID" ;;
  _ <- Assert.assertBoolean allowEmptyString "allowEmptyString" ;;
  if is_empty_string paymentID && truthy allowEmptyString then
    JS.Return WalletError.SUCCESS
  else if negb (string_length paymentID =? 64) then
    JS.Return (WalletError.new WalletError.PAYMENT_ID_WRONG_LENGTH)
  else if negb (matches_payment_id paymentID) then
    JS.Return (WalletError.new WalletError.PAYMENT_ID_INVALID)
  else JS.Return WalletError.SUCCESS.

End ValidateParameters.

(** ** lib/Utilities.js *)

Module Utilities.

Section Unlock.

(** [Constants.MAX_BLOCK_NUMBER]: lib/Constants is not among the files
    embedded here, so the threshold is a parameter. *)
Variable MAX_BLOCK_NUMBER : Z.

(** [nowMs] is the value of [Date.now()], in milliseconds. *)
Definition isInputUnlocked (nowMs : Z) (unlockTime currentHeight : Z) : bool :=
  if unlockTime =? 0 then true
  else if unlockTime >=? MAX_BLOCK_NUMBER then
    (nowMs / 1000) >=? unlockTime
  else
    currentHeight + 1 >=? unlockTime.

End Unlock.

(** [val % nearestMultiple] is the remainder of the division that rounds
    towards zero. *)
Definition getLowerBound (val nearestMultiple : Z) : Z :=
  let remainder := Z.rem val nearestMultiple in
  val - remainder.

Definition getUpperBound (val nearestMultiple : Z) : Z :=
  getLowerBound val nearestMultiple + nearestMultiple.



(** How a loop of the source ends in the model: with a value, on a step
    that leaves the integers ([denomination / 10] is not floored), or not
    within the allotted number of iterations. *)
Inductive run (A : Type) :=
| Done (a : A)
| Fraction
| Unfinished.
Arguments Done {A} a.
Arguments Fraction {A}.
Arguments Unfinished {A}.

Section Denominations.

(** [Constants.MAX_OUTPUT_SIZE_CLIENT], a parameter as lib/Constants is not
    among the files embedded here. *)
Variable MAX_OUTPUT_SIZE_CLIENT : Z.

(** The inner loop: [while (splitAmount > MAX_OUTPUT_SIZE_CLIENT)]. *)
Fixpoint shrinkChunk (fuel : nat) (splitAmount numSplitAmounts : Z) : option (Z * Z) :=
  match fuel with
  | O => None
  | S fuel' =>
      if splitAmount >? MAX_OUTPUT_SIZE_CLIENT
      then shrinkChunk fuel' (splitAmount / 10) (numSplitAmounts * 10)
      else Some (splitAmount, numSplitAmounts)
  end.

(** The outer loop: [while (amount >= 1)]; [inner] is the allotment of the
    inner loop. *)
Fixpoint splitLoop (fuel inner : nat) (amount multiplier : Z) (splitAmounts : list Z)
    (preventTooLargeOutputs : bool) : run (list Z) :=
  match fuel with
  | O => Unfinished
  | S fuel' =>
      if amount >=? 1 then
        let denomination := multiplier * Z.rem amount 10 in
        if (denomination >? MAX_OUTPUT_SIZE_CLIENT) && preventTooLargeOutputs then
          if Z.rem denomination 10 =? 0 then
            match shrinkChunk inner (denomination / 10) 10 with
            | Some (splitAmount, numSplitAmounts) =>
                splitLoop fuel' inner (amount / 10) (multiplier * 10)
                  (splitAmounts ++ repeat splitAmount (Z.to_nat numSplitAmounts))
                  preventTooLargeOutputs
            | None => Unfinished
            end
          else Fraction
        else if negb (denomination =? 0) then
          splitLoop fuel' inner (amount / 10) (multiplier * 10)
            (splitAmounts ++ [denomination]) preventTooLargeOutputs
        else
          splitLoop fuel' inner (amount / 10) (multiplier * 10)
            splitAmounts preventTooLargeOutputs
      else Done splitAmounts
  end.

Definition splitAmountIntoDenominations (fuel : nat) (amount : Z)
    (preventTooLargeOutputs : bool) : run (list Z) :=
  splitLoop fuel fuel amount 1 [] preventTooLargeOutputs.

End Denominations.

End Utilities.

(** ** lib/SubWallet, lib/SubWallets: balances *)

Module SubWallets.

(** Modelled from the spec: lib/SubWallet.js and lib/SubWallets.js (the
    store that owns the inputs and computes [getBalance]) are missing; the
    spec gives the record ("TransactionInput {key_image, amount,
    block_height, ..., spend_height, unlock_time, parent_tx_hash, ...}",
    "SubWallet {public_spend_key, ..., unspent, spent, locked, ...}"). *)
Record TransactionInput := {
  keyImage : string;
  amount : Z;
  blockHeight : Z;
  spendHeight : Z;
  unlockTime : Z;
  parentTransactionHash : string
}.

(** Modelled from the spec: the subwallet record of lib/SubWallet.js, which
    is missing, with the three input lists the spec names. *)
Record SubWallet := {
  publicSpendKey : string;
  unspentInputs : list TransactionInput;
  spentInputs : list TransactionInput;
  lockedInputs : list TransactionInput
}.

Section Balance.

Variable MAX_BLOCK_NUMBER : Z.
Variable nowMs : Z.

(** Modelled from the spec: "Balance algorithm: for each subwallet in
    filter, sum input.amount of unspent inputs where
    is_input_unlocked(input.unlock_time, network_height) -> unlocked; else
    locked."  One pass over the inputs, two accumulators. *)
Definition addInput (currentHeight : Z) (acc : Z * Z) (input : TransactionInput) : Z * Z :=
  let '(unlockedBalance, lockedBalance) := acc in
  if Utilities.isInputUnlocked MAX_BLOCK_NUMBER nowMs (unlockTime input) currentHeight
  then (unlockedBalance + amount input, lockedBalance)
  else (unlockedBalance, lockedBalance + amount input).

(** Modelled from the spec: "for each subwallet in filter" of the same
    balance algorithm (lib/SubWallets.js is missing). *)
Definition addSubWallet (currentHeight : Z) (filter : string -> bool)
    (acc : Z * Z) (w : SubWallet) : Z * Z :=
  if filter (publicSpendKey w)
  then fold_left (addInput currentHeight) (unspentInputs w) acc
  else acc.

(** Modelled from the spec: [get_balance(network_height, filter) ->
    (unlocked, locked)] of the missing lib/SubWallets.js, by the balance
    algorithm quoted above. *)
Definition getBalance (currentHeight : Z) (filter : string -> bool)
    (subWallets : list SubWallet) : Z * Z :=
  fold_left (addSubWallet currentHeight filter) subWallets (0, 0).

(** The unspent inputs of the subwallets selected by the filter. *)
Definition selectedUnspent (filter : string -> bool) (subWallets : list SubWallet)
    : list TransactionInput :=
  flat_map (fun w => if filter (publicSpendKey w) then unspentInputs w else [])
           subWallets.

Definition unlocked (currentHeight : Z) (input : TransactionInput) : bool :=
  Utilities.isInputUnlocked MAX_BLOCK_NUMBER nowMs (unlockTime input) currentHeight.

End Balance.

Definition total (inputs : list TransactionInput) : Z :=
  fold_right (fun i acc => amount i + acc) 0 inputs.

End SubWallets.

(** ** lib/Types: blocks *)

(** The fields of a block and of a top block that the synchronizer and the
    daemon client read. *)
Record Block := {
  blockHeight : Z;
  blockHash : string;
  blockTimestamp : Z
}.

Record TopBlock := {
  topHeight : Z;
  topHash : string
}.

(** ** lib/Types: what the scanner reads and builds *)

Module Types.

Record KeyOutput := {
  key : string;
  amount : Z;
  globalIndex : option Z
}.

Record KeyInput := {
  inputAmount : Z;
  keyImage : string
}.

(** A coinbase transaction; [transactionPublicKey] may be [undefined]. *)
Record RawCoinbaseTransaction := {
  keyOutputs : list KeyOutput;
  hash : string;
  transactionPublicKey : option string;
  unlockTime : Z
}.

(** A transaction: a coinbase transaction with a payment ID and inputs. *)
Record RawTransaction := {
  base : RawCoinbaseTransaction;
  paymentID : string;
  keyInputs : list KeyInput
}.

(** The arguments of [new TransactionInput(...)], in the order of the call
    in [processTransactionOutputs]. *)
Record TransactionInput := {
  inputKeyImage : string;
  inputValue : Z;
  inputBlockHeight : Z;
  inputTransactionPublicKey : string;
  transactionIndex : Z;
  globalOutputIndex : option Z;
  inputKey : string;
  spendHeight : Z;
  inputUnlockTime : Z;
  parentTransactionHash : string;
  privateEphemeral : string
}.

(** [transfers] is a [Map] from public spend keys to amounts, in insertion
    order. *)
Record Transaction := {
  transfers : list (string * Z);
  txHash : string;
  fee : Z;
  txBlockHeight : Z;
  timestamp : Z;
  txPaymentID : string;
  txUnlockTime : Z;
  isCoinbaseTransaction : bool
}.

Record TransactionData := {
  transactionsToAdd : list Transaction;
  inputsToAdd : list (string * TransactionInput);
  keyImagesToMarkSpent : list (string * string)
}.

(** The transactions a block carries; [coinbaseTransaction] may be
    [undefined]. *)
Record BlockBody := {
  coinbaseTransaction : option RawCoinbaseTransaction;
  transactions : list RawTransaction
}.

End Types.

(** ** lib/SynchronizationStatus *)

Module SynchronizationStatus.

(** Modelled from the spec: lib/SynchronizationStatus.js and lib/Constants
    are missing (only the class declaration is there).  The spec gives
    "SynchronizationStatus {last_known_height, recent_block_hashes:
    ring-buffer of last K=100, checkpoints: sparse every C=5000 heights}". *)
Definition LAST_KNOWN_BLOCK_HASHES_SIZE : nat := 100.
Definition BLOCK_HASH_CHECKPOINTS_INTERVAL : Z := 5000.

(** Modelled from the spec: the four private fields of the class
    declaration (the class body is missing). *)
Record t := {
  blockHashCheckpoints : list string;
  lastKnownBlockHashes : list string;
  lastKnownBlockHeight : Z;
  lastSavedCheckpointAt : Z
}.

(** Modelled from the spec: the constructor
    [(lastKnownBlockHeight?, blockHashCheckpoints?, lastKnownBlockHashes?,
    lastSavedCheckpointAt?)] of the declaration; an argument left out is the
    empty history ("reset: height=scan_height-1, empty history"). *)
Definition make (height : Z) (checkpoints recent : list string) (savedAt : Z) : t :=
  {| blockHashCheckpoints := checkpoints;
     lastKnownBlockHashes := recent;
     lastKnownBlockHeight := height;
     lastSavedCheckpointAt := savedAt |}.

(** Modelled from the spec: [new SynchronizationStatus(height)], the
    constructor of the missing class called with its first argument only. *)
Definition new (lastKnownBlockHeight : Z) : t := make lastKnownBlockHeight [] [] 0.

(** Modelled from the spec: the three getters of the missing class return
    the fields they are named after. *)
Definition getHeight (st : t) : Z := lastKnownBlockHeight st.
Definition getBlockCheckpoints (st : t) : list string := blockHashCheckpoints st.
Definition getRecentBlockHashes (st : t) : list string := lastKnownBlockHashes st.

(** Modelled from the spec: "Append-only log of processed (height,hash)
    with sparse checkpoints + dense recent tail"; after a block is recorded
    "sync_status.height == b.height and sync_status.top_hash == b.hash".
    The newest hash is at the front; the recent tail keeps the last K. *)
Definition storeBlockHash (blockHeight : Z) (blockHash : string) (st : t) : t :=
  let checkpoint := lastSavedCheckpointAt st + BLOCK_HASH_CHECKPOINTS_INTERVAL <=? blockHeight in
  {| blockHashCheckpoints :=
       if checkpoint then blockHash :: blockHashCheckpoints st
       else blockHashCheckpoints st;
     lastKnownBlockHashes :=
       firstn LAST_KNOWN_BLOCK_HASHES_SIZE (blockHash :: lastKnownBlockHashes st);
     lastKnownBlockHeight := blockHeight;
     lastSavedCheckpointAt :=
       if checkpoint then blockHeight else lastSavedCheckpointAt st |}.

End SynchronizationStatus.

(** ** JavaScript maps *)

Module JSMap.

Section Ops.

Variable V : Type.

(** A [Map] with string keys: entries in insertion order, a key occurs
    once, [set] on a present key keeps its place. *)
Definition t : Type := list (string * V).

Fixpoint get (k : string) (m : t) : option V :=
  match m with
  | [] => None
  | (k', v) :: m' => if String.eqb k' k then Some v else get k m'
  end.

Fixpoint set (k : string) (v : V) (m : t) : t :=
  match m with
  | [] => [(k, v)]
  | (k', v') :: m' =>
      if String.eqb k' k then (k, v) :: m' else (k', v') :: set k v m'
  end.

Definition isEmpty (m : t) : bool :=
  match m with
  | [] => true
  | _ :: _ => false
  end.

End Ops.

Arguments get {V} k m.
Arguments set {V} k v m.
Arguments isEmpty {V} m.

End JSMap.

(** ** lib/Config: the settings the pipeline reads *)

Record Config := {
  blocksPerDaemonRequest : Z;
  scanCoinbaseTransactions : bool;
  blockStoreMemoryLimit : Z;
  maxLastFetchedBlockInterval : Z;
  maxLastUpdatedNetworkHeightInterval : Z;
  maxLastUpdatedLocalHeightInterval : Z
}.

(** ** lib/Daemon.js *)

Module Daemon.

Inductive event :=
| Connect
| Disconnect (err : string)
| HeightChange (localDaemonBlockCount networkDaemonBlockCount : option Z)
| DeadNode.

Record t := {
  ssl : bool;
  sslDetermined : bool;
  localDaemonBlockCount : option Z;
  networkBlockCount : option Z;
  peerCount : Z;
  lastKnownHashrate : Z;
  blockCount : Z;
  config : Config;
  lastUpdatedNetworkHeight : Z;
  lastUpdatedLocalHeight : Z;
  connected : bool;
  useRawBlocks : bool
}.

(** The constructor.  [hostIsRawIP] is the outcome of the test of [host]
    against the dotted-quad pattern; [now] is [new Date()]. *)
Definition new (defaultConfig : Config) (hostIsRawIP : bool)
    (sslArg useRawBlocksArg : option bool) (now : Z) : t :=
  let sslArg' :=
    if hostIsRawIP && match sslArg with None => true | Some _ => false end
    then Some false else sslArg in
  {| ssl := match sslArg' with Some b => b | None => true end;
     sslDetermined := match sslArg' with Some _ => true | None => false end;
     localDaemonBlockCount := Some 0;
     networkBlockCount := Some 0;
     peerCount := 0;
     lastKnownHashrate := 0;
     blockCount := 100;
     config := defaultConfig;
     lastUpdatedNetworkHeight := now;
     lastUpdatedLocalHeight := now;
     connected := true;
     useRawBlocks := match useRawBlocksArg with Some b => b | None => true end |}.

Definition set_protocol (sslV determined : bool) (d : t) : t :=
  {| ssl := sslV; sslDetermined := determined;
     localDaemonBlockCount := localDaemonBlockCount d;
     networkBlockCount := networkBlockCount d;
     peerCount := peerCount d; lastKnownHashrate := lastKnownHashrate d;
     blockCount := blockCount d; config := config d;
     lastUpdatedNetworkHeight := lastUpdatedNetworkHeight d;
     lastUpdatedLocalHeight := lastUpdatedLocalHeight d;
     connected := connected d; useRawBlocks := useRawBlocks d |}.

Definition set_connected (c : bool) (d : t) : t :=
  {| ssl := ssl d; sslDetermined := sslDetermined d;
     localDaemonBlockCount := localDaemonBlockCount d;
     networkBlockCount := networkBlockCount d;
     peerCount := peerCount d; lastKnownHashrate := lastKnownHashrate d;
     blockCount := blockCount d; config := config d;
     lastUpdatedNetworkHeight := lastUpdatedNetworkHeight d;
     lastUpdatedLocalHeight := lastUpdatedLocalHeight d;
     connected := c; useRawBlocks := useRawBlocks d |}.

Definition set_blockCount (n : Z) (d : t) : t :=
  {| ssl := ssl d; sslDetermined := sslDetermined d;
     localDaemonBlockCount := localDaemonBlockCount d;
     networkBlockCount := networkBlockCount d;
     peerCount := peerCount d; lastKnownHashrate := lastKnownHashrate d;
     blockCount := n; config := config d;
     lastUpdatedNetworkHeight := lastUpdatedNetworkHeight d;
     lastUpdatedLocalHeight := lastUpdatedLocalHeight d;
     connected := connected d; useRawBlocks := useRawBlocks d |}.

Definition set_lastUpdated (now : Z) (d : t) : t :=
  {| ssl := ssl d; sslDetermined := sslDetermined d;
     localDaemonBlockCount := localDaemonBlockCount d;
     networkBlockCount := networkBlockCount d;
     peerCount := peerCount d; lastKnownHashrate := lastKnownHashrate d;
     blockCount := blockCount d; config := config d;
     lastUpdatedNetworkHeight := now;
     lastUpdatedLocalHeight := now;
     connected := connected d; useRawBlocks := useRawBlocks d |}.

Definition set_info (local network : option Z) (peers hashrate : Z) (d : t) : t :=
  {| ssl := ssl d; sslDetermined := sslDetermined d;
     localDaemonBlockCount := local;
     networkBlockCount := network;
     peerCount := peers; lastKnownHashrate := hashrate;
     blockCount := blockCount d; config := config d;
     lastUpdatedNetworkHeight := lastUpdatedNetworkHeight d;
     lastUpdatedLocalHeight := lastUpdatedLocalHeight d;
     connected := connected d; useRawBlocks := useRawBlocks d |}.

(** [updateConfig]: [merged] is [MergeConfig(config)]. *)
Definition updateConfig (merged : Config) (d : t) : t :=
  {| ssl := ssl d; sslDetermined := sslDetermined d;
     localDaemonBlockCount := localDaemonBlockCount d;
     networkBlockCount := networkBlockCount d;
     peerCount := peerCount d; lastKnownHashrate := lastKnownHashrate d;
     blockCount := blocksPerDaemonRequest merged; config := merged;
     lastUpdatedNetworkHeight := lastUpdatedNetworkHeight d;
     lastUpdatedLocalHeight := lastUpdatedLocalHeight d;
     connected := connected d; useRawBlocks := useRawBlocks d |}.

Definition getNetworkBlockCount (d : t) : option Z := networkBlockCount d.
Definition getLocalDaemonBlockCount (d : t) : option Z := localDaemonBlockCount d.

(** *** The transport *)

(** What one HTTP exchange does: the daemon answers with a body and a
    status code, or the exchange fails (refused, timed out, ...). *)
Inductive attempt (A : Type) :=
| Responded (body : A) (statusCode : Z)
| Failed (err : string).
Arguments Responded {A} body statusCode.
Arguments Failed {A} err.

(** The environment of one [makeRequest]: the outcome of the first exchange
    (over https, or over the protocol already settled) and the outcome of
    the plain-http exchange that is tried only when the protocol is not
    settled and the first one failed. *)
Record exchange (A : Type) := {
  first : attempt A;
  plainHttp : attempt A
}.
Arguments first {A} e.
Arguments plainHttp {A} e.

Definition emitConnect (d : t) : t * list event :=
  if negb (connected d) then (set_connected true d, [Connect]) else (d, []).

Definition emitDisconnect (err : string) (d : t) : t * list event :=
  if connected d then (set_connected false d, [Disconnect err]) else (d, []).

Definition makeRequest {A : Type} (x : exchange A) (d : t)
    : t * list event * JS.completion (A * Z) :=
  match first x with
  | Responded body statusCode =>
      let d1 := if negb (sslDetermined d) then set_protocol true true d else d in
      let '(d2, ev) := emitConnect d1 in
      (d2, ev, JS.Return (body, statusCode))
  | Failed err =>
      if sslDetermined d then
        let '(d1, ev) := emitDisconnect err d in
        (d1, ev, JS.Throw err)
      else
        match plainHttp x with
        | Responded body statusCode =>
            let d1 := set_protocol false true d in
            let '(d2, ev) := emitConnect d1 in
            (d2, ev, JS.Return (body, statusCode))
        | Failed err2 =>
            let '(d1, ev) := emitDisconnect err2 d in
            (d1, ev, JS.Throw err2)
        end
  end.

Definition makeGetRequest {A : Type} := @makeRequest A.
Definition makePostRequest {A : Type} := @makeRequest A.

(** *** /sync *)

(** The body of a [/sync] answer.  [blocks] is [None] when the answer has no
    [blocks] array; an entry of the array is [None] when decoding it
    ([Block.from], [Block.fromJSON]) throws. *)
Record SyncData := {
  blocks : option (list (option Block));
  synced : bool;
  topBlock : option TopBlock
}.

Fixpoint decodeBlocks (raw : list (option Block)) : JS.completion (list Block) :=
  match raw with
  | [] => JS.Return []
  | None :: _ => JS.Throw "cannot decode block"
  | Some b :: rest =>
      bs <- decodeBlocks rest ;; JS.Return (b :: bs)
  end.

(** [data.synced && data.topBlock && data.topBlock.height && data.topBlock.hash] *)
Definition syncedTop (data : SyncData) : option TopBlock :=
  match topBlock data with
  | Some tb =>
      if synced data && negb (topHeight tb =? 0)
         && negb (String.eqb (topHash tb) "")
      then Some tb else None
  | None => None
  end.

(** The second component of the result is the top block or a boolean. *)
Definition syncResult : Type := list Block * (TopBlock + bool).

Definition getWalletSyncData (x : exchange SyncData) (now : Z) (d : t)
    : t * list event * JS.completion syncResult :=
  match makePostRequest x d with
  | (d1, ev, JS.Throw err) =>
      let d2 := set_blockCount (JS.ceil_div (blockCount d1) 4) d1 in
      (d2, ev, JS.Return ([], inr false))
  | (d1, ev, JS.Return (data, _)) =>
      match blocks data with
      | None => (d1, ev, JS.Throw "Cannot read properties of undefined")
      | Some raw =>
          let d3 :=
            if Z.of_nat (List.length raw) >=? 0 then
              let d2 :=
                if negb (blockCount d1 =? blocksPerDaemonRequest (config d1))
                then set_blockCount
                       (Z.min (blocksPerDaemonRequest (config d1)) (blockCount d1 * 2)) d1
                else d1 in
              set_lastUpdated now d2
            else d1 in
          match decodeBlocks raw with
          | JS.Throw m => (d3, ev, JS.Throw m)
          | JS.Return bs =>
              match syncedTop data with
              | Some tb => (d3, ev, JS.Return (bs, inl tb))
              | None => (d3, ev, JS.Return (bs, inr true))
              end
          end
      end
  end.

(** *** /transaction/status *)

Record TransactionStatus := { notFound : option (list string) }.

Definition getCancelledTransactions (x : exchange TransactionStatus) (d : t)
    : t * list event * list string :=
  match makePostRequest x d with
  | (d1, ev, JS.Return (data, _)) =>
      (d1, ev, match notFound data with Some l => l | None => [] end)
  | (d1, ev, JS.Throw _) => (d1, ev, [])
  end.

(** *** /info *)

Record Info := {
  height : option Z;
  networkHeight : option Z;
  incomingConnections : Z;
  outgoingConnections : Z;
  hashrate : Z
}.

(** [diff1 > maxLastUpdatedNetworkHeightInterval || diff2 > ...], where
    [diff] is the elapsed time in seconds, milliseconds divided by 1000
    without rounding. *)
Definition heightsStale (now : Z) (d : t) : bool :=
  (now - lastUpdatedNetworkHeight d >? 1000 * maxLastUpdatedNetworkHeightInterval (config d))
  || (now - lastUpdatedLocalHeight d >? 1000 * maxLastUpdatedLocalHeightInterval (config d)).

Definition deadNodeCheck (now : Z) (d : t) : list event :=
  if heightsStale now d then [DeadNode] else [].

Definition isUndefined (x : option Z) : bool :=
  match x with None => true | Some _ => false end.

(** [this.networkBlockCount = info.networkHeight;
     if (this.networkBlockCount > 0) this.networkBlockCount--] *)
Definition storedNetworkHeight (reported : option Z) : option Z :=
  if JS.lt (Some 0) reported then option_map Z.pred reported else reported.

(** [env i] is the environment of the [i]-th [/info] request of the call:
    its exchanges and the clock when it returns.  The method calls itself
    again after a first answer without [height]; [fuel] bounds the depth. *)
Fixpoint updateDaemonInfo (fuel : nat) (env : nat -> exchange Info * Z)
    (i : nat) (d : t) : option (t * list event) :=
  match fuel with
  | O => None
  | S fuel' =>
      let haveDeterminedSsl := sslDetermined d in
      let '(x, now) := env i in
      match makeGetRequest x d with
      | (d1, ev, JS.Throw err) => Some (d1, ev ++ deadNodeCheck now d1)
      | (d1, ev, JS.Return (info, _)) =>
          if isUndefined (height info) && negb haveDeterminedSsl then
            let d2 := set_protocol false true d1 in
            match updateDaemonInfo fuel' env (S i) d2 with
            | Some (d3, ev') => Some (d3, ev ++ deadNodeCheck now d2 ++ ev')
            | None => None
            end
          else
            let changed :=
              JS.strict_ne (localDaemonBlockCount d1) (height info)
              || JS.strict_ne (networkBlockCount d1) (networkHeight info) in
            let '(d2, ev2) :=
              if changed
              then (set_lastUpdated now d1,
                    [HeightChange (height info) (networkHeight info)])
              else (d1, deadNodeCheck now d1) in
            Some (set_info (height info) (storedNetworkHeight (networkHeight info))
                           (incomingConnections info + outgoingConnections info)
                           (hashrate info) d2,
                  ev ++ ev2)
      end
  end.

(** *** /indexes *)

Record TransactionIndexes := {
  indexHash : string;
  indexes : list Z
}.

(** A failed request is not reported: the result is the empty map. *)
Definition getGlobalIndexesForRange (x : exchange (list TransactionIndexes)) (d : t)
    : t * list event * JSMap.t (list Z) :=
  match makeGetRequest x d with
  | (d1, ev, JS.Return (data, _)) =>
      (d1, ev,
       fold_left (fun m index => JSMap.set (indexHash index) (indexes index) m) data [])
  | (d1, ev, JS.Throw _) => (d1, ev, [])
  end.

(** *** /indexes/random *)

Record RandomOutput := {
  outIndex : Z;
  outKey : string
}.

Record RandomOutputs := {
  forAmount : Z;
  outputs : list RandomOutput
}.

(** [_.sortBy(indexes, ([index]) => index)]: ascending by index, entries
    with the same index in the order they came. *)
Fixpoint insertByIndex (x : Z * string) (sorted : list (Z * string)) : list (Z * string) :=
  match sorted with
  | [] => [x]
  | y :: rest =>
      if fst x <=? fst y then x :: y :: rest else y :: insertByIndex x rest
  end.

Definition sortByIndex (l : list (Z * string)) : list (Z * string) :=
  fold_right insertByIndex [] l.

Definition getRandomOutputsByAmount (x : exchange (list RandomOutputs)) (d : t)
    : t * list event * list (Z * list (Z * string)) :=
  match makePostRequest x d with
  | (d1, ev, JS.Throw _) => (d1, ev, [])
  | (d1, ev, JS.Return (data, _)) =>
      (d1, ev,
       map (fun output =>
              (forAmount output,
               sortByIndex (map (fun outs => (outIndex outs, outKey outs))
                                (outputs output))))
           data)
  end.

End Daemon.

(** ** lib/WalletBackend.js: the synced test of the daemon-info ticker *)

Module WalletBackend.

Inductive event :=
| Sync (walletHeight : Z) (networkHeight : option Z)
| Desync (walletHeight : Z) (networkHeight : option Z).

(** [walletHeight >= networkHeight] *)
Definition reachedNetwork (walletHeight : Z) (d : Daemon.t) : bool :=
  JS.ge (Some walletHeight) (Daemon.getNetworkBlockCount d).

(** The part of [updateDaemonInfo] that follows the daemon's own update:
    [synced] is the flag of the wallet. *)
Definition updateSynced (walletHeight : Z) (d : Daemon.t) (synced : bool)
    : bool * list event :=
  let networkHeight := Daemon.getNetworkBlockCount d in
  if reachedNetwork walletHeight d then
    if negb synced then (true, [Sync walletHeight networkHeight]) else (synced, [])
  else
    if synced then (false, [Desync walletHeight networkHeight]) else (synced, []).

(** *** Global indexes *)

Section GlobalIndexes.

(** [Constants.GLOBAL_INDEXES_OBSCURITY], a parameter as lib/Constants is
    not among the files embedded here. *)
Variable GLOBAL_INDEXES_OBSCURITY : Z.

(** The range of heights that [getGlobalIndexes(blockHeight)] asks the
    daemon for. *)
Definition getGlobalIndexesRange (blockHeight : Z) : Z * Z :=
  (Utilities.getLowerBound blockHeight GLOBAL_INDEXES_OBSCURITY,
   Utilities.getUpperBound blockHeight GLOBAL_INDEXES_OBSCURITY).

End GlobalIndexes.

Definition set_globalOutputIndex (index : option Z) (input : Types.TransactionInput)
    : Types.TransactionInput :=
  {| Types.inputKeyImage := Types.inputKeyImage input;
     Types.inputValue := Types.inputValue input;
     Types.inputBlockHeight := Types.inputBlockHeight input;
     Types.inputTransactionPublicKey := Types.inputTransactionPublicKey input;
     Types.transactionIndex := Types.transactionIndex input;
     Types.globalOutputIndex := index;
     Types.inputKey := Types.inputKey input;
     Types.spendHeight := Types.spendHeight input;
     Types.inputUnlockTime := Types.inputUnlockTime input;
     Types.parentTransactionHash := Types.parentTransactionHash input;
     Types.privateEphemeral := Types.privateEphemeral input |}.

(** [ourIndexes[input.transactionIndex]] *)
Definition elementAt (l : list Z) (i : Z) : option Z :=
  if i <? 0 then None else nth_error l (Z.to_nat i).

(** The loop of [processBlocks] that fills in the output indexes the daemon
    did not send.  [fetched] is what [getGlobalIndexes(block.blockHeight)]
    returns when it is called; the state of the loop is the map it holds,
    the number of times it has asked, and the inputs it has gone through. *)
Fixpoint fillGlobalIndexes (isViewWallet : bool) (fetched : JSMap.t (list Z))
    (globalIndexes : JSMap.t (list Z)) (asked : nat)
    (blockInputs : list (string * Types.TransactionInput))
    : JS.completion (nat * list (string * Types.TransactionInput)) :=
  match blockInputs with
  | [] => JS.Return (asked, [])
  | (owner, input) :: rest =>
      if negb isViewWallet
         && match Types.globalOutputIndex input with None => true | Some _ => false end
      then
        let '(globalIndexes1, asked1) :=
          if JSMap.isEmpty globalIndexes then (fetched, S asked)
          else (globalIndexes, asked) in
        match JSMap.get (Types.parentTransactionHash input) globalIndexes1 with
        | None =>
            JS.Throw "Could not get global indexes from daemon! Possibly faulty/malicious daemon."
        | Some ourIndexes =>
            done <- fillGlobalIndexes isViewWallet fetched globalIndexes1 asked1 rest ;;
            JS.Return
              (fst done,
               (owner,
                set_globalOutputIndex
                  (elementAt ourIndexes (Types.transactionIndex input)) input)
               :: snd done)
        end
      else
        done <- fillGlobalIndexes isViewWallet fetched globalIndexes asked rest ;;
        JS.Return (fst done, (owner, input) :: snd done)
  end.

End WalletBackend.

(** ** lib/WalletSynchronizer.js *)

Module WalletSynchronizer.

(** [cancelledTransactionsFailCount] is a [Map]: its entries are kept in
    insertion order, a key occurs once, [set] on a present key keeps its
    place, [set] on a new key appends. *)
Definition FailCount := list (string * Z).

Fixpoint map_get (k : string) (m : FailCount) : option Z :=
  match m with
  | [] => None
  | (k', v) :: m' => if String.eqb k' k then Some v else map_get k m'
  end.

Definition map_has (k : string) (m : FailCount) : bool :=
  match map_get k m with Some _ => true | None => false end.

Definition map_delete (k : string) (m : FailCount) : FailCount :=
  filter (fun e => negb (String.eqb (fst e) k)) m.

Fixpoint map_set (k : string) (v : Z) (m : FailCount) : FailCount :=
  match m with
  | [] => [(k, v)]
  | (k', v') :: m' =>
      if String.eqb k' k then (k, v) :: m' else (k', v') :: map_set k v m'
  end.

(** [cancelled.includes(hash)] *)
Definition includes (l : list string) (x : string) : bool :=
  existsb (String.eqb x) l.

(** What [reset] and [rewind] do once they may touch the state: the closure
    [f] of either method. *)
Inductive mutation :=
| ResetTo (scanHeight scanTimestamp : Z)
| RewindTo (scanHeight : Z).

Inductive event :=
| HeightChange (height : Z)
| DeadNode
| Resolved (promise : nat)
| ConvertSyncTimestampToHeight (timestamp height : Z).

(** The state of a synchronizer.  The daemon and the subwallets it refers
    to are objects of their own: the functions below take the daemon as an
    argument where they read it, and record a call into the subwallets as
    an event. *)
Record t := {
  startTimestamp : Z;
  startHeight : Z;
  synchronizationStatus : SynchronizationStatus.t;
  fetchingBlocks : bool;
  storedBlocks : list Block;
  cancelledTransactionsFailCount : FailCount;
  (** the deferred closure and the promise it resolves *)
  finishedFunc : option (mutation * nat);
  lastDownloadedBlocks : Z;
  config : Config
}.

Definition new (startTimestampV startHeightV : Z) (cfg : Config)
    (status : SynchronizationStatus.t) (now : Z) : t :=
  {| startTimestamp := startTimestampV;
     startHeight := startHeightV;
     synchronizationStatus := status;
     fetchingBlocks := false;
     storedBlocks := [];
     cancelledTransactionsFailCount := [];
     finishedFunc := None;
     lastDownloadedBlocks := now;
     config := cfg |}.

Definition set_fetchingBlocks (b : bool) (s : t) : t :=
  {| startTimestamp := startTimestamp s; startHeight := startHeight s;
     synchronizationStatus := synchronizationStatus s;
     fetchingBlocks := b; storedBlocks := storedBlocks s;
     cancelledTransactionsFailCount := cancelledTransactionsFailCount s;
     finishedFunc := finishedFunc s;
     lastDownloadedBlocks := lastDownloadedBlocks s; config := config s |}.

Definition set_finishedFunc (f : option (mutation * nat)) (s : t) : t :=
  {| startTimestamp := startTimestamp s; startHeight := startHeight s;
     synchronizationStatus := synchronizationStatus s;
     fetchingBlocks := fetchingBlocks s; storedBlocks := storedBlocks s;
     cancelledTransactionsFailCount := cancelledTransactionsFailCount s;
     finishedFunc := f;
     lastDownloadedBlocks := lastDownloadedBlocks s; config := config s |}.

Definition set_storedBlocks (bs : list Block) (s : t) : t :=
  {| startTimestamp := startTimestamp s; startHeight := startHeight s;
     synchronizationStatus := synchronizationStatus s;
     fetchingBlocks := fetchingBlocks s; storedBlocks := bs;
     cancelledTransactionsFailCount := cancelledTransactionsFailCount s;
     finishedFunc := finishedFunc s;
     lastDownloadedBlocks := lastDownloadedBlocks s; config := config s |}.

Definition set_synchronizationStatus (st : SynchronizationStatus.t) (s : t) : t :=
  {| startTimestamp := startTimestamp s; startHeight := startHeight s;
     synchronizationStatus := st;
     fetchingBlocks := fetchingBlocks s; storedBlocks := storedBlocks s;
     cancelledTransactionsFailCount := cancelledTransactionsFailCount s;
     finishedFunc := finishedFunc s;
     lastDownloadedBlocks := lastDownloadedBlocks s; config := config s |}.

Definition set_start (height timestamp : Z) (s : t) : t :=
  {| startTimestamp := timestamp; startHeight := height;
     synchronizationStatus := synchronizationStatus s;
     fetchingBlocks := fetchingBlocks s; storedBlocks := storedBlocks s;
     cancelledTransactionsFailCount := cancelledTransactionsFailCount s;
     finishedFunc := finishedFunc s;
     lastDownloadedBlocks := lastDownloadedBlocks s; config := config s |}.

Definition set_failCount (m : FailCount) (s : t) : t :=
  {| startTimestamp := startTimestamp s; startHeight := startHeight s;
     synchronizationStatus := synchronizationStatus s;
     fetchingBlocks := fetchingBlocks s; storedBlocks := storedBlocks s;
     cancelledTransactionsFailCount := m;
     finishedFunc := finishedFunc s;
     lastDownloadedBlocks := lastDownloadedBlocks s; config := config s |}.

Definition getHeight (s : t) : Z :=
  SynchronizationStatus.getHeight (synchronizationStatus s).

(** *** reset and rewind *)

(** The closure [f]: both methods build the new status with
    [new SynchronizationStatus(scanHeight - 1)]. *)
Definition applyMutation (m : mutation) (s : t) : t :=
  match m with
  | ResetTo scanHeight scanTimestamp =>
      set_storedBlocks []
        (set_synchronizationStatus (SynchronizationStatus.new (scanHeight - 1))
           (set_start scanHeight scanTimestamp s))
  | RewindTo scanHeight =>
      set_storedBlocks []
        (set_synchronizationStatus (SynchronizationStatus.new (scanHeight - 1))
           (set_start scanHeight 0 s))
  end.

(** [promise] names the promise that the method returns; [Resolved promise]
    records the call of its [resolve]. *)
Definition schedule (m : mutation) (promise : nat) (s : t) : t * list event :=
  if fetchingBlocks s then
    (set_finishedFunc (Some (m, promise)) s, [])
  else
    (applyMutation m s, [Resolved promise]).

Definition reset (scanHeight scanTimestamp : Z) (promise : nat) (s : t) : t * list event :=
  schedule (ResetTo scanHeight scanTimestamp) promise s.

Definition rewind (scanHeight : Z) (promise : nat) (s : t) : t * list event :=
  schedule (RewindTo scanHeight) promise s.

(** [if (this.finishedFunc) { this.finishedFunc(); }]: the stored closure
    runs [f], resolves the promise and clears itself. *)
Definition runFinishedFunc (s : t) : t * list event :=
  match finishedFunc s with
  | Some (m, promise) => (set_finishedFunc None (applyMutation m s), [Resolved promise])
  | None => (s, [])
  end.

(** *** findCancelledTransactions *)

(** The body of the first loop for one entry [(hash, failCount)]. *)
Definition checkEntry (cancelled : list string) (acc : list string * FailCount)
    (entry : string * Z) : list string * FailCount :=
  let '(toRemove, m) := acc in
  let '(hash, failCount) := entry in
  if includes cancelled hash then
    if failCount =? 10 then (toRemove ++ [hash], map_delete hash m)
    else (toRemove, map_set hash (failCount + 1) m)
  else (toRemove, map_delete hash m).

(** The body of the second loop for one hash of [cancelled]. *)
Definition addFirstFail (m : FailCount) (hash : string) : FailCount :=
  if negb (map_has hash m) then map_set hash 1 m else m.

(** [cancelled] is the awaited result of
    [daemon.getCancelledTransactions(transactionHashes)].  The first loop
    visits the entries the map had when it started; each step touches only
    the entry it visits. *)
Definition findCancelledTransactions (transactionHashes cancelled : list string)
    (s : t) : t * list string :=
  match transactionHashes with
  | [] => (s, [])
  | _ :: _ =>
      let m := cancelledTransactionsFailCount s in
      let '(toRemove, m1) := fold_left (checkEntry cancelled) m ([], m) in
      let m2 := fold_left addFirstFail cancelled m1 in
      (set_failCount m2 s, toRemove)
  end.

(** *** The block store *)

Section Store.

(** [sizeof] of the object-sizeof package: the estimated size of the stored
    blocks in bytes. *)
Variable sizeof : list Block -> Z.

(** Hashes of the stored blocks, newest first, at most
    [LAST_KNOWN_BLOCK_HASHES_SIZE] of them. *)
Definition getStoredBlockCheckpoints (s : t) : list string :=
  firstn SynchronizationStatus.LAST_KNOWN_BLOCK_HASHES_SIZE
    (fold_left (fun hashes block => blockHash block :: hashes) (storedBlocks s) []).

Definition shouldFetchMoreBlocks (s : t) : bool :=
  if fetchingBlocks s then false
  else if sizeof (storedBlocks s) <? blockStoreMemoryLimit (config s) then true
  else false.

Definition getWalletSyncDataHashes (s : t) : list string :=
  let unprocessedBlockHashes := getStoredBlockCheckpoints s in
  let recentProcessedBlockHashes :=
    SynchronizationStatus.getRecentBlockHashes (synchronizationStatus s) in
  let blockHashCheckpoints :=
    SynchronizationStatus.getBlockCheckpoints (synchronizationStatus s) in
  firstn SynchronizationStatus.LAST_KNOWN_BLOCK_HASHES_SIZE
    (unprocessedBlockHashes ++ recentProcessedBlockHashes)
  ++ blockHashCheckpoints.

(** *** downloadBlocks *)

(** Where [downloadBlocks] stands when it first gives up control: it has
    returned [[successOrBusy, shouldSleep]], or it waits for
    [daemon.getWalletSyncData(blockCheckpoints, startHeight, startTimestamp)]. *)
Inductive started :=
| Returned (successOrBusy shouldSleep : bool)
| Awaiting (blockCheckpoints : list string) (height timestamp : Z).

Definition downloadBlocks_start (d : Daemon.t) (s : t) : t * started :=
  if fetchingBlocks s then (s, Returned true false)
  else
    let s1 := set_fetchingBlocks true s in
    let localDaemonBlockCount := Daemon.getLocalDaemonBlockCount d in
    let walletBlockCount := getHeight s1 in
    if JS.lt localDaemonBlockCount (Some walletBlockCount) then
      (set_fetchingBlocks false s1, Returned true true)
    else
      (s1, Awaiting (getWalletSyncDataHashes s1) (startHeight s1) (startTimestamp s1)).

(** The rest of [downloadBlocks], from the point where the awaited call has
    settled with [answer]. *)
Definition downloadBlocks_finish (answer : JS.completion Daemon.syncResult) (s : t)
    : t * list event * (bool * bool) :=
  match answer with
  | JS.Throw err =>
      let '(s1, ev) := runFinishedFunc s in
      (set_fetchingBlocks false s1, ev, (false, true))
  | JS.Return (blocks, topBlock) =>
      match topBlock, blocks with
      | inl top, [] =>
          let '(s1, ev1) := runFinishedFunc s in
          let '(s2, ev2) :=
            match storedBlocks s1 with
            | [] =>
                (set_synchronizationStatus
                   (SynchronizationStatus.storeBlockHash (topHeight top) (topHash top)
                      (synchronizationStatus s1)) s1,
                 [HeightChange (topHeight top)])
            | _ :: _ => (s1, [])
            end in
          let '(s3, ev3) := runFinishedFunc s2 in
          (set_fetchingBlocks false s3, ev1 ++ ev2 ++ ev3, (true, true))
      | _, [] =>
          let '(s1, ev) := runFinishedFunc s in
          (set_fetchingBlocks false s1, ev, (false, false))
      | _, first :: _ =>
          let '(s1, ev1) :=
            if negb (startTimestamp s =? 0) then
              (set_start (blockHeight first) 0 s,
               [ConvertSyncTimestampToHeight 0 (blockHeight first)])
            else (s, []) in
          let s2 := set_storedBlocks (storedBlocks s1 ++ blocks) s1 in
          let '(s3, ev3) := runFinishedFunc s2 in
          (set_fetchingBlocks false s3, ev1 ++ ev3, (true, false))
      end
  end.

(** A call of [downloadBlocks] during which nothing else runs: [x] and
    [now] are the environment of the daemon request. *)
Definition downloadBlocks (x : Daemon.exchange Daemon.SyncData) (now : Z)
    (d : Daemon.t) (s : t)
    : Daemon.t * t * list Daemon.event * list event * (bool * bool) :=
  match downloadBlocks_start d s with
  | (s1, Returned successOrBusy shouldSleep) =>
      (d, s1, [], [], (successOrBusy, shouldSleep))
  | (s1, Awaiting _ _ _) =>
      let '(d1, dev, answer) := Daemon.getWalletSyncData x now d in
      let '(s2, ev, result) := downloadBlocks_finish answer s1 in
      (d1, s2, dev, ev, result)
  end.

(** *** fetchBlocks *)

Definition set_lastDownloadedBlocks (now : Z) (s : t) : t :=
  {| startTimestamp := startTimestamp s; startHeight := startHeight s;
     synchronizationStatus := synchronizationStatus s;
     fetchingBlocks := fetchingBlocks s; storedBlocks := storedBlocks s;
     cancelledTransactionsFailCount := cancelledTransactionsFailCount s;
     finishedFunc := finishedFunc s;
     lastDownloadedBlocks := now; config := config s |}.

(** What follows a download in [fetchBlocks] (and in the refill of
    [dropBlock]): [now] is [new Date()]; the elapsed time is compared in
    seconds, milliseconds divided by 1000 without rounding. *)
Definition noteDownload (now : Z) (successOrBusy : bool) (s : t) : t * list event :=
  if negb successOrBusy then
    (s,
     if now - lastDownloadedBlocks s >? 1000 * maxLastFetchedBlockInterval (config s)
     then [DeadNode] else [])
  else (set_lastDownloadedBlocks now s, []).

(** A call of [fetchBlocks] during which nothing else runs: [x] and [now]
    are the environment of the daemon request, [nowAfter] the clock once
    the download has returned. *)
Definition fetchBlocks (blockCount : Z) (x : Daemon.exchange Daemon.SyncData)
    (now nowAfter : Z) (d : Daemon.t) (s : t)
    : Daemon.t * t * list Daemon.event * list event * (list Block * bool) :=
  match storedBlocks s with
  | [] =>
      let '(d1, s1, dev, ev, (successOrBusy, shouldSleepTmp)) := downloadBlocks x now d s in
      let '(s2, ev2) := noteDownload nowAfter successOrBusy s1 in
      (d1, s2, dev, ev ++ ev2,
       (firstn (Z.to_nat blockCount) (storedBlocks s2), shouldSleepTmp))
  | _ :: _ =>
      (d, s, [], [], (firstn (Z.to_nat blockCount) (storedBlocks s), false))
  end.

(** *** dropBlock *)

(** The guarded removal at the head of [dropBlock]. *)
Definition dropFront (height : Z) (hash : string) (s : t) : t :=
  match storedBlocks s with
  | front :: rest =>
      if (blockHeight front =? height) && String.eqb (blockHash front) hash then
        set_synchronizationStatus
          (SynchronizationStatus.storeBlockHash height hash (synchronizationStatus s))
          (set_storedBlocks rest s)
      else s
  | [] => s
  end.

(** [dropBlock] up to its return.  The refill is not awaited: the second
    component is where the download it may have started stands. *)
Definition dropBlock (d : Daemon.t) (height : Z) (hash : string) (s : t)
    : t * option started :=
  let s1 := dropFront height hash s in
  if (Z.rem height 10 =? 0) && shouldFetchMoreBlocks s1 then
    let '(s2, st) := downloadBlocks_start d s1 in (s2, Some st)
  else (s1, None).

End Store.

(** *** Scanning a block *)

Section Scan.

(** The cryptography (lib/CryptoWrapper) and the subwallets' key queries
    are functions of their arguments. *)
Variable generateKeyDerivation : string -> string -> string.
Variable underivePublicKey : string -> Z -> string -> string.
Variable getTxInputKeyImage : string -> string -> Z -> string * string.
Variable getKeyImageOwner : string -> option string.

(** [this.privateViewKey] and [this.subWallets.getPublicSpendKeys()]. *)
Variable privateViewKey : string.
Variable spendKeys : list string.




(** [transfers.set(key, value + (transfers.get(key) || 0))] *)
Definition addTransfer (key : string) (value : Z) (transfers : list (string * Z))
    : list (string * Z) :=
  JSMap.set key
    (value + match JSMap.get key transfers with Some v => v | None => 0 end)
    transfers.

(** [_.filter(ourInputs, ([, input]) => input.parentTransactionHash === hash)] *)
Definition relevantInputs (hash : string) (ourInputs : list (string * Types.TransactionInput))
    : list (string * Types.TransactionInput) :=
  filter (fun entry => String.eqb (Types.parentTransactionHash (snd entry)) hash) ourInputs.

Definition receive (transfers : list (string * Z))
    (entry : string * Types.TransactionInput) : list (string * Z) :=
  addTransfer (fst entry) (Types.inputValue (snd entry)) transfers.

(** [block.coinbaseTransaction] is read inside the filter's callback: when
    it is [undefined] the read throws, unless there is no input to filter. *)
Definition processCoinbaseTransaction (block : Block) (body : Types.BlockBody)
    (ourInputs : list (string * Types.TransactionInput))
    : JS.completion (option Types.Transaction) :=
  match Types.coinbaseTransaction body with
  | None =>
      match ourInputs with
      | [] => JS.Return None
      | _ :: _ => JS.Throw "Cannot read properties of undefined"
      end
  | Some rawTX =>
      let transfers :=
        fold_left receive (relevantInputs (Types.hash rawTX) ourInputs) [] in
      if negb (JSMap.isEmpty transfers) then
        JS.Return (Some {| Types.transfers := transfers;
                           Types.txHash := Types.hash rawTX;
                           Types.fee := 0;
                           Types.txBlockHeight := blockHeight block;
                           Types.timestamp := blockTimestamp block;
                           Types.txPaymentID := "";
                           Types.txUnlockTime := Types.unlockTime rawTX;
                           Types.isCoinbaseTransaction := true |})
      else JS.Return None
  end.

(** The loop over [rawTX.keyInputs]. *)
Definition spend (acc : list (string * Z) * list (string * string))
    (input : Types.KeyInput) : list (string * Z) * list (string * string) :=
  let '(transfers, spentKeyImages) := acc in
  match getKeyImageOwner (Types.keyImage input) with
  | Some publicSpendKey =>
      (addTransfer publicSpendKey (- Types.inputAmount input) transfers,
       spentKeyImages ++ [(publicSpendKey, Types.keyImage input)])
  | None => (transfers, spentKeyImages)
  end.

(** [_.sumBy(list, 'amount')] *)
Definition sumInputs (l : list Types.KeyInput) : Z :=
  fold_left (fun acc i => acc + Types.inputAmount i) l 0.

Definition sumOutputs (l : list Types.KeyOutput) : Z :=
  fold_left (fun acc o => acc + Types.amount o) l 0.

Definition processTransaction (block : Block)
    (ourInputs : list (string * Types.TransactionInput)) (rawTX : Types.RawTransaction)
    : option Types.Transaction * list (string * string) :=
  let received :=
    fold_left receive (relevantInputs (Types.hash (Types.base rawTX)) ourInputs) [] in
  let '(transfers, spentKeyImages) :=
    fold_left spend (Types.keyInputs rawTX) (received, []) in
  if negb (JSMap.isEmpty transfers) then
    let fee :=
      sumInputs (Types.keyInputs rawTX)
      - sumOutputs (Types.keyOutputs (Types.base rawTX)) in
    (Some {| Types.transfers := transfers;
             Types.txHash := Types.hash (Types.base rawTX);
             Types.fee := fee;
             Types.txBlockHeight := blockHeight block;
             Types.timestamp := blockTimestamp block;
             Types.txPaymentID := Types.paymentID rawTX;
             Types.txUnlockTime := Types.unlockTime (Types.base rawTX);
             Types.isCoinbaseTransaction := false |},
     spentKeyImages)
  else (None, []).

(** The body of the loop of [processBlock] over [block.transactions]. *)
Definition addProcessed (block : Block)
    (ourInputs : list (string * Types.TransactionInput))
    (acc : list Types.Transaction * list (string * string))
    (rawTX : Types.RawTransaction)
    : list Types.Transaction * list (string * string) :=
  let '(transactionsToAdd, keyImagesToMarkSpent) := acc in
  match processTransaction block ourInputs rawTX with
  | (Some tx, keyImages) => (transactionsToAdd ++ [tx], keyImagesToMarkSpent ++ keyImages)
  | (None, _) => (transactionsToAdd, keyImagesToMarkSpent)
  end.

Definition processBlock (cfg : Config) (block : Block) (body : Types.BlockBody)
    (ourInputs : list (string * Types.TransactionInput))
    : JS.completion Types.TransactionData :=
  fromCoinbase <-
    (if scanCoinbaseTransactions cfg then
       tx <- processCoinbaseTransaction block body ourInputs ;;
       JS.Return match tx with Some t => [t] | None => [] end
     else JS.Return []) ;;
  let '(transactionsToAdd, keyImagesToMarkSpent) :=
    fold_left (addProcessed block ourInputs) (Types.transactions body) (fromCoinbase, []) in
  JS.Return {| Types.transactionsToAdd := transactionsToAdd;
               Types.inputsToAdd := ourInputs;
               Types.keyImagesToMarkSpent := keyImagesToMarkSpent |}.

End Scan.

End WalletSynchronizer.

(** ** lib/WalletBackend.js: the main loop *)

Module WalletBackendSync.

(** What the loop asks of the subwallets and what the wallet emits, in the
    order of the calls. *)
Inductive call :=
| RemoveForkedTransactions (forkHeight : Z)
| PruneSpentInputs (pruneHeight : Z)
| StoreTxData (txData : Types.TransactionData) (blockHeight : Z)
| HeightChange (walletHeight : Z) (localDaemonBlockCount networkBlockCount : option Z)
| Delay (ms : Z).

Section Loop.

Variable sizeof : list Block -> Z.
Variable getKeyImageOwner : string -> option string.

(** [this.subWallets.isViewWallet] and [this.config]. *)
Variable isViewWallet : bool.
Variable cfg : Config.

(** The transactions that a block carries. *)
Variable bodyOf : Block -> Types.BlockBody.

(** What the awaited calls of the loop return for a block:
    [processFunction(block, ...)], the external function or
    [processBlockOutputs], and [getGlobalIndexes(block.blockHeight)] if the
    loop comes to ask for it. *)
Variable processFunction : Block -> list (string * Types.TransactionInput).
Variable getGlobalIndexes : Block -> JSMap.t (list Z).

(** The daemon, of which the loop reads the two block counts. *)
Variable d : Daemon.t.

(** From the inputs of a block to the data to store: the loop that fills in
    the global indexes, then [processBlock]. *)
Definition txDataOf (block : Block) : JS.completion Types.TransactionData :=
  filled <- WalletBackend.fillGlobalIndexes isViewWallet (getGlobalIndexes block) [] 0
              (processFunction block) ;;
  WalletSynchronizer.processBlock getKeyImageOwner cfg block (bodyOf block) (snd filled).

(** The head of the loop body: forked transactions are removed when the
    wallet is already at the height of the block, spent inputs are pruned
    every 5000 blocks. *)
Definition beforeProcessing (block : Block) (s : WalletSynchronizer.t) : list call :=
  (if WalletSynchronizer.getHeight s >=? blockHeight block
   then [RemoveForkedTransactions (blockHeight block)] else [])
  ++ (if (Z.rem (blockHeight block) 5000 =? 0) && negb (blockHeight block =? 0)
      then [PruneSpentInputs (blockHeight block - 5000)] else []).

(** The loop body for one block.  What has been done stays done when the
    body throws.  [dropBlock] is not awaited: a download that it starts
    stays in flight. *)
Definition processOne (block : Block) (s : WalletSynchronizer.t)
    : WalletSynchronizer.t * list call * JS.completion unit :=
  match txDataOf block with
  | JS.Throw m => (s, beforeProcessing block s, JS.Throw m)
  | JS.Return txData =>
      let s1 :=
        fst (WalletSynchronizer.dropBlock sizeof d (blockHeight block) (blockHash block) s) in
      (s1,
       beforeProcessing block s
       ++ [StoreTxData txData (blockHeight block);
           HeightChange (blockHeight block) (Daemon.getLocalDaemonBlockCount d)
             (Daemon.getNetworkBlockCount d)],
       JS.Return tt)
  end.

(** [for (const block of blocks)], with no download settling meanwhile. *)
Fixpoint processLoop (blocks : list Block) (s : WalletSynchronizer.t)
    : WalletSynchronizer.t * list call * JS.completion unit :=
  match blocks with
  | [] => (s, [], JS.Return tt)
  | block :: rest =>
      match processOne block s with
      | (s1, calls, JS.Throw m) => (s1, calls, JS.Throw m)
      | (s1, calls, JS.Return _) =>
          let '(s2, calls2, r) := processLoop rest s1 in (s2, calls ++ calls2, r)
      end
  end.

(** [processBlocks] from the point where [fetchBlocks] has returned
    [fetched]. *)
Definition processBlocks (sleep : bool) (fetched : list Block * bool)
    (s : WalletSynchronizer.t)
    : WalletSynchronizer.t * list call * JS.completion bool :=
  let '(blocks, shouldSleep) := fetched in
  match blocks with
  | [] => (s, if sleep && shouldSleep then [Delay 1000] else [], JS.Return false)
  | _ :: _ =>
      let '(s1, calls, r) := processLoop blocks s in
      (s1, calls, (_ <- r ;; JS.Return true))
  end.

(** [sync]: an error of [processBlocks] is logged and turned into [false]. *)
Definition sync (sleep : bool) (fetched : list Block * bool) (s : WalletSynchronizer.t)
    : WalletSynchronizer.t * list call * bool :=
  let '(s1, calls, r) := processBlocks sleep fetched s in
  (s1, calls, match r with JS.Return b => b | JS.Throw _ => false end).

End Loop.

(** *** setupEventHandlers *)

(** What the wallet emits from the handlers it installs on the daemon and
    on the synchronizer. *)
Inductive emitted :=
| EmitConnect
| EmitDisconnect
| EmitHeightChange (walletHeight : Z) (localDaemonBlockCount networkBlockCount : option Z)
| EmitDeadNode.

(** [if (!this.haveEmittedDeadNode) { this.haveEmittedDeadNode = true;
    this.emit('deadnode'); }] *)
Definition forwardDeadNode (haveEmittedDeadNode : bool) : bool * list emitted :=
  if negb haveEmittedDeadNode then (true, [EmitDeadNode]) else (haveEmittedDeadNode, []).

(** The handlers on the daemon; [walletHeight] is
    [this.walletSynchronizer.getHeight()] when the event arrives. *)
Definition onDaemonEvent (walletHeight : Z) (e : Daemon.event)
    (haveEmittedDeadNode : bool) : bool * list emitted :=
  match e with
  | Daemon.Connect => (haveEmittedDeadNode, [EmitConnect])
  | Daemon.Disconnect _ => (haveEmittedDeadNode, [EmitDisconnect])
  | Daemon.HeightChange localDaemonBlockCount networkDaemonBlockCount =>
      (false, [EmitHeightChange walletHeight localDaemonBlockCount networkDaemonBlockCount])
  | Daemon.DeadNode => forwardDeadNode haveEmittedDeadNode
  end.

(** The handlers on the synchronizer, which emits [heightchange] and
    [deadnode]; [d] is the daemon when the event arrives. *)
Definition onSynchronizerEvent (d : Daemon.t) (e : WalletSynchronizer.event)
    (haveEmittedDeadNode : bool) : bool * list emitted :=
  match e with
  | WalletSynchronizer.HeightChange walletHeight =>
      (false, [EmitHeightChange walletHeight (Daemon.getLocalDaemonBlockCount d)
                 (Daemon.getNetworkBlockCount d)])
  | WalletSynchronizer.DeadNode => forwardDeadNode haveEmittedDeadNode
  | _ => (haveEmittedDeadNode, [])
  end.

(** An event that reaches the wallet, with what its handler reads. *)
Inductive arrival :=
| FromDaemon (walletHeight : Z) (e : Daemon.event)
| FromSynchronizer (d : Daemon.t) (e : WalletSynchronizer.event).

Definition handle (a : arrival) (haveEmittedDeadNode : bool) : bool * list emitted :=
  match a with
  | FromDaemon walletHeight e => onDaemonEvent walletHeight e haveEmittedDeadNode
  | FromSynchronizer d e => onSynchronizerEvent d e haveEmittedDeadNode
  end.

(** The handlers run one after the other, in the order of the arrivals. *)
Fixpoint handleAll (arrivals : list arrival) (haveEmittedDeadNode : bool)
    : bool * list emitted :=
  match arrivals with
  | [] => (haveEmittedDeadNode, [])
  | a :: rest =>
      let '(flag, out) := handle a haveEmittedDeadNode in
      let '(flag', out') := handleAll rest flag in
      (flag', out ++ out')
  end.

(** The ticks of the daemon-info metronome, seen from the [synced] flag:
    each tick reads the height of the wallet and the daemon as
    [updateDaemonInfo] has left it. *)
Fixpoint updateSyncedAll (ticks : list (Z * Daemon.t)) (synced : bool)
    : bool * list WalletBackend.event :=
  match ticks with
  | [] => (synced, [])
  | (walletHeight, d) :: rest =>
      let '(synced1, ev) := WalletBackend.updateSynced walletHeight d synced in
      let '(synced2, ev') := updateSyncedAll rest synced1 in
      (synced2, ev ++ ev')
  end.

End WalletBackendSync.

(** ** Runs on concrete inputs *)

Example ceil_div_samples :
  JS.ceil_div 100 4 = 25 /\ JS.ceil_div 25 4 = 7 /\ JS.ceil_div 7 4 = 2
  /\ JS.ceil_div 2 4 = 1 /\ JS.ceil_div 1 4 = 1.
Proof. repeat split. Qed.

(** With a threshold of 500000000: height 100 unlocks an input locked until
    block 101 and not one locked until block 102; a timestamp lock opens
    once the clock has reached it. *)
Example isInputUnlocked_samples :
  Utilities.isInputUnlocked 500000000 0 0 100 = true
  /\ Utilities.isInputUnlocked 500000000 0 101 100 = true
  /\ Utilities.isInputUnlocked 500000000 0 102 100 = false
  /\ Utilities.isInputUnlocked 500000000 1600000000999 1600000000 100 = true
  /\ Utilities.isInputUnlocked 500000000 1599999999999 1600000000 100 = false.
Proof. repeat split. Qed.

Example validatePaymentID_samples :
  ValidateParameters.validatePaymentID (JS.Str []) JS.Undefined
  = JS.Return WalletError.SUCCESS
  /\ ValidateParameters.validatePaymentID (JS.Str []) (JS.Boolean false)
     = JS.Return (WalletError.new WalletError.PAYMENT_ID_WRONG_LENGTH)
  /\ ValidateParameters.validatePaymentID (JS.Str (JS.of_ascii "abc")) JS.Undefined
     = JS.Return (WalletError.new WalletError.PAYMENT_ID_WRONG_LENGTH)
  /\ ValidateParameters.validatePaymentID
       (JS.Str (JS.of_ascii "0123456789abcdef0123456789abcdef0123456789abcdef0123456789abcde-"))
       JS.Undefined
     = JS.Return (WalletError.new WalletError.PAYMENT_ID_INVALID)
  /\ ValidateParameters.validatePaymentID (JS.Number 7) JS.Undefined
     = JS.Throw "Expected string for 'paymentID' parameter, but got number".
Proof. vm_compute. repeat split. Qed.

(** The recent tail has the newest hash in front; a checkpoint is taken
    once 5000 heights have passed since the last one. *)
Example storeBlockHash_samples :
  let st := SynchronizationStatus.storeBlockHash 5000 "b"
              (SynchronizationStatus.storeBlockHash 4999 "a"
                 (SynchronizationStatus.new 4998)) in
  SynchronizationStatus.getHeight st = 5000
  /\ SynchronizationStatus.getRecentBlockHashes st = ["b"; "a"]%string
  /\ SynchronizationStatus.getBlockCheckpoints st = ["b"]%string.
Proof. vm_compute. repeat split. Qed.

(** * Properties *)

(** ** validatePaymentID *)

Section PaymentID.

Import ValidateParameters.

Lemma class_repeat_at_short (n : nat) (s : JS.jsstring) :
  (List.length s < n)%nat -> class_repeat_at n s = false.
Proof.
  revert s. induction n as [|n IH]; intros s Hlen; [inversion Hlen|].
  destruct s as [|c s]; simpl; [reflexivity|].
  simpl in Hlen. rewrite IH by lia. apply andb_false_r.
Qed.

Lemma class_repeat_search_short (n : nat) (s : JS.jsstring) :
  (List.length s < n)%nat -> class_repeat_search n s = false.
Proof.
  induction s as [|c s IH]; intros Hlen.
  - simpl. rewrite class_repeat_at_short by exact Hlen. reflexivity.
  - cbn [class_repeat_search].
    rewrite class_repeat_at_short by exact Hlen.
    simpl in Hlen. rewrite IH by lia. reflexivity.
Qed.

Lemma class_repeat_at_exact (s : JS.jsstring) :
  class_repeat_at (List.length s) s = forallb alnum s.
Proof.
  induction s as [|c s IH]; simpl; [reflexivity|]. now rewrite IH.
Qed.

Lemma class_repeat_search_exact (n : nat) (s : JS.jsstring) :
  List.length s = n -> class_repeat_search n s = forallb alnum s.
Proof.
  intros <-. destruct s as [|c s].
  - reflexivity.
  - cbn [class_repeat_search].
    rewrite (class_repeat_search_short (List.length (c :: s)) s) by (simpl; lia).
    rewrite orb_false_r. apply class_repeat_at_exact.
Qed.

(** The value of [validatePaymentID] on a string and a boolean, in closed
    form. *)
Definition paymentIDVerdict (s : JS.jsstring) (allowEmptyString : bool) : WalletError.t :=
  match s with
  | [] =>
      if allowEmptyString then WalletError.SUCCESS
      else WalletError.new WalletError.PAYMENT_ID_WRONG_LENGTH
  | _ :: _ =>
      if negb (Nat.eqb (List.length s) 64) then
        WalletError.new WalletError.PAYMENT_ID_WRONG_LENGTH
      else if forallb alnum s then WalletError.SUCCESS
      else WalletError.new WalletError.PAYMENT_ID_INVALID
  end.

Lemma validatePaymentID_value (s : JS.jsstring) (allowEmptyString : bool) :
  validatePaymentID (JS.Str s) (JS.Boolean allowEmptyString)
  = JS.Return (paymentIDVerdict s allowEmptyString).
Proof.
  unfold validatePaymentID, paymentIDVerdict.
  cbn [Assert.assertString Assert.assertBoolean Assert.assertType
       Assert.isString Assert.isBoolean Assert.isUndefined andb negb JS.bind
       is_empty_string truthy string_length matches_payment_id].
  destruct s as [|c s].
  - destruct allowEmptyString; reflexivity.
  - cbn [andb].
    destruct (Nat.eqb (List.length (c :: s)) 64) eqn:Hlen.
    + apply Nat.eqb_eq in Hlen.
      replace (Z.of_nat (List.length (c :: s)) =? 64) with true
        by (symmetry; apply Z.eqb_eq; lia).
      cbn [negb]. rewrite (class_repeat_search_exact 64 (c :: s) Hlen).
      destruct (forallb alnum (c :: s)); reflexivity.
    + apply Nat.eqb_neq in Hlen.
      replace (Z.of_nat (List.length (c :: s)) =? 64) with false
        by (symmetry; apply Z.eqb_neq; lia).
      reflexivity.
Qed.

End PaymentID.

(** C10. On every string, whatever the boolean [allowEmptyString],
    [validatePaymentID] returns a [WalletError] and does not throw (and a
    missing second argument stands for [true]).  The result is [SUCCESS] for
    the empty string when empty strings are allowed; it is
    [PAYMENT_ID_WRONG_LENGTH] exactly when the string is not exempted that
    way and its length is not 64; it is [SUCCESS] for every string of 64
    characters of [[a-zA-Z0-9]] and [PAYMENT_ID_INVALID] for the other
    strings of length 64.  Sixty-four times the letter z, which is not a
    hexadecimal string, is accepted. *)
Theorem validatePaymentID_total_and_classified :
  (forall (s : JS.jsstring) (allowEmptyString : bool),
      exists e : WalletError.t,
        ValidateParameters.validatePaymentID (JS.Str s) (JS.Boolean allowEmptyString)
        = JS.Return e
        /\ (s = [] /\ allowEmptyString = true -> e = WalletError.SUCCESS)
        /\ (e = WalletError.new WalletError.PAYMENT_ID_WRONG_LENGTH
            <-> ~ (s = [] /\ allowEmptyString = true) /\ List.length s <> 64%nat)
        /\ (List.length s = 64%nat ->
            forallb ValidateParameters.alnum s = true -> e = WalletError.SUCCESS)
        /\ (List.length s = 64%nat ->
            forallb ValidateParameters.alnum s = false ->
            e = WalletError.new WalletError.PAYMENT_ID_INVALID))
  /\ (forall s : JS.jsstring,
         ValidateParameters.validatePaymentID (JS.Str s) JS.Undefined
         = ValidateParameters.validatePaymentID (JS.Str s) (JS.Boolean true))
  /\ (let z64 := repeat 122%N 64 in
      forallb ValidateParameters.hexdigit z64 = false
      /\ forall allowEmptyString : bool,
          ValidateParameters.validatePaymentID (JS.Str z64) (JS.Boolean allowEmptyString)
          = JS.Return WalletError.SUCCESS).
Proof.
  split; [|split].
  - intros s allow. exists (paymentIDVerdict s allow).
    split; [apply validatePaymentID_value|].
    unfold paymentIDVerdict.
    destruct s as [|c s].
    + split; [|split; [|split]].
      * intros [_ ->]. reflexivity.
      * destruct allow.
        -- split; [discriminate|]. intros [Hne _]. exfalso. apply Hne. now split.
        -- split; [|reflexivity]. intros _. split; [|discriminate].
           intros [_ Hallow]. discriminate Hallow.
      * discriminate.
      * discriminate.
    + destruct (Nat.eqb (List.length (c :: s)) 64) eqn:Hlen; cbn [negb].
      * apply Nat.eqb_eq in Hlen.
        split; [|split; [|split]].
        -- intros [Hnil _]. discriminate Hnil.
        -- split.
           ++ destruct (forallb ValidateParameters.alnum (c :: s)); discriminate.
           ++ intros [_ Hne]. contradiction.
        -- intros _ ->. reflexivity.
        -- intros _ ->. reflexivity.
      * apply Nat.eqb_neq in Hlen.
        split; [|split; [|split]].
        -- intros [Hnil _]. discriminate Hnil.
        -- split; [|reflexivity]. intros _. split; [|exact Hlen].
           intros [Hnil _]. discriminate Hnil.
        -- intro Heq. contradiction.
        -- intro Heq. contradiction.
  - intro s. reflexivity.
  - cbv zeta. split; [vm_compute; reflexivity|].
    intro allow. rewrite validatePaymentID_value.
    destruct allow; vm_compute; reflexivity.
Qed.

(** ** isInputUnlocked and balances *)

Section Balances.

Import SubWallets.

Variable MAX_BLOCK_NUMBER : Z.
Variable nowMs : Z.
Variable currentHeight : Z.

Let isUnlocked := unlocked MAX_BLOCK_NUMBER nowMs currentHeight.

Lemma total_app (l1 l2 : list TransactionInput) :
  total (l1 ++ l2) = total l1 + total l2.
Proof.
  induction l1 as [|i l1 IH]; simpl; [reflexivity|].
  unfold total in *. simpl. rewrite IH. lia.
Qed.

Lemma total_filter_split (p : TransactionInput -> bool) (l : list TransactionInput) :
  total (filter p l) + total (filter (fun i => negb (p i)) l) = total l.
Proof.
  induction l as [|i l IH]; [reflexivity|].
  simpl. destruct (p i); unfold total in *; simpl; lia.
Qed.

Lemma fold_addInput (l : list TransactionInput) (acc : Z * Z) :
  fold_left (addInput MAX_BLOCK_NUMBER nowMs currentHeight) l acc
  = (fst acc + total (filter isUnlocked l),
     snd acc + total (filter (fun i => negb (isUnlocked i)) l)).
Proof.
  revert acc. induction l as [|i l IH]; intros [u k].
  - simpl. f_equal; unfold total; simpl; lia.
  - cbn [fold_left]. rewrite IH. unfold addInput.
    subst isUnlocked. unfold unlocked. cbn [filter].
    destruct (Utilities.isInputUnlocked MAX_BLOCK_NUMBER nowMs (unlockTime i) currentHeight);
      cbn [fst snd negb]; f_equal; unfold total; simpl; lia.
Qed.

Lemma fold_addSubWallet (keep : string -> bool) (ws : list SubWallet) (acc : Z * Z) :
  fold_left (addSubWallet MAX_BLOCK_NUMBER nowMs currentHeight keep) ws acc
  = (fst acc + total (filter isUnlocked (selectedUnspent keep ws)),
     snd acc + total (filter (fun i => negb (isUnlocked i)) (selectedUnspent keep ws))).
Proof.
  revert acc. induction ws as [|w ws IH]; intros [u k].
  - simpl. f_equal; unfold total; simpl; lia.
  - cbn [fold_left]. rewrite IH. unfold addSubWallet.
    unfold selectedUnspent. cbn [flat_map]. fold (selectedUnspent keep ws).
    destruct (keep (publicSpendKey w)).
    + rewrite fold_addInput. cbn [fst snd].
      rewrite !filter_app, !total_app. f_equal; lia.
    + reflexivity.
Qed.

Lemma getBalance_sums (keep : string -> bool) (ws : list SubWallet) :
  getBalance MAX_BLOCK_NUMBER nowMs currentHeight keep ws
  = (total (filter isUnlocked (selectedUnspent keep ws)),
     total (filter (fun i => negb (isUnlocked i)) (selectedUnspent keep ws))).
Proof.
  unfold getBalance. rewrite fold_addSubWallet. reflexivity.
Qed.

End Balances.

(** C7. [isInputUnlocked] answers true exactly when the unlock time is 0,
    or it is at least [MAX_BLOCK_NUMBER] and the wall clock in seconds has
    reached it, or it is below [MAX_BLOCK_NUMBER] and the current height
    plus one has reached it; this for every value of the threshold.  The
    unlocked balance is the sum of the amounts of the unspent inputs that
    satisfy the predicate, and unlocked plus locked is the sum over all
    unspent inputs. *)
Theorem isInputUnlocked_rule_and_balance_law :
  forall (MAX_BLOCK_NUMBER nowMs : Z),
    (forall unlockTime currentHeight : Z,
        Utilities.isInputUnlocked MAX_BLOCK_NUMBER nowMs unlockTime currentHeight = true
        <-> (unlockTime = 0
             \/ (unlockTime >= MAX_BLOCK_NUMBER /\ nowMs / 1000 >= unlockTime)
             \/ (unlockTime < MAX_BLOCK_NUMBER /\ currentHeight + 1 >= unlockTime)))
    /\ (forall (currentHeight : Z) (keep : string -> bool)
               (subWallets : list SubWallets.SubWallet),
           let balance :=
             SubWallets.getBalance MAX_BLOCK_NUMBER nowMs currentHeight keep subWallets in
           let unspent := SubWallets.selectedUnspent keep subWallets in
           fst balance
           = SubWallets.total
               (filter (SubWallets.unlocked MAX_BLOCK_NUMBER nowMs currentHeight) unspent)
           /\ fst balance + snd balance = SubWallets.total unspent).
Proof.
  intros MAXB now. split.
  - intros u h. unfold Utilities.isInputUnlocked.
    destruct (u =? 0) eqn:H0.
    + apply Z.eqb_eq in H0. split; [intros _; now left | reflexivity].
    + apply Z.eqb_neq in H0.
      destruct (u >=? MAXB) eqn:HM.
      * rewrite Z.geb_leb in HM. apply Z.leb_le in HM.
        rewrite Z.geb_leb, Z.leb_le. split.
        -- intro H. right; left. lia.
        -- intros [H | [[_ H] | [H _]]]; lia.
      * rewrite Z.geb_leb in HM. apply Z.leb_gt in HM.
        rewrite Z.geb_leb, Z.leb_le. split.
        -- intro H. right; right. lia.
        -- intros [H | [[H _] | [_ H]]]; lia.
  - intros h keep ws. cbv zeta. rewrite getBalance_sums. cbn [fst snd].
    split; [reflexivity|]. apply total_filter_split.
Qed.

(** ** The daemon: the batch size of getWalletSyncData *)

Lemma ceil_div_4_bounds (a : Z) :
  4 * (JS.ceil_div a 4 - 1) < a <= 4 * JS.ceil_div a 4.
Proof.
  unfold JS.ceil_div.
  pose proof (Z.div_mod (- a) 4 ltac:(lia)) as Hdm.
  pose proof (Z.mod_pos_bound (- a) 4 ltac:(lia)) as Hb.
  lia.
Qed.

(** A request changes the protocol flags and [connected], nothing else. *)
Lemma makeRequest_frame {A : Type} (x : Daemon.exchange A) (d : Daemon.t) :
  let d1 := fst (fst (Daemon.makeRequest x d)) in
  Daemon.blockCount d1 = Daemon.blockCount d
  /\ Daemon.config d1 = Daemon.config d
  /\ Daemon.localDaemonBlockCount d1 = Daemon.localDaemonBlockCount d
  /\ Daemon.networkBlockCount d1 = Daemon.networkBlockCount d.
Proof.
  unfold Daemon.makeRequest, Daemon.emitConnect, Daemon.emitDisconnect.
  destruct (Daemon.first x); destruct (Daemon.sslDetermined d);
    try destruct (Daemon.plainHttp x); cbn;
    destruct (Daemon.connected d); cbn; repeat split; reflexivity.
Qed.

(** The three components of a result of [makeRequest]. *)
Lemma makeRequest_eta {A : Type} (x : Daemon.exchange A) (d : Daemon.t) :
  Daemon.makeRequest x d
  = (fst (fst (Daemon.makeRequest x d)), snd (fst (Daemon.makeRequest x d)),
     snd (Daemon.makeRequest x d)).
Proof. destruct (Daemon.makeRequest x d) as [[d1 ev] r]. reflexivity. Qed.

(** The batch size after [getWalletSyncData], by the outcome of its request. *)
Lemma getWalletSyncData_blockCount (x : Daemon.exchange Daemon.SyncData) (now : Z)
    (d : Daemon.t) :
  let d' := fst (fst (Daemon.getWalletSyncData x now d)) in
  let cap := blocksPerDaemonRequest (Daemon.config d) in
  Daemon.config d' = Daemon.config d
  /\ Daemon.blockCount d'
     = match snd (Daemon.makePostRequest x d) with
       | JS.Throw _ => JS.ceil_div (Daemon.blockCount d) 4
       | JS.Return (data, _) =>
           match Daemon.blocks data with
           | None => Daemon.blockCount d
           | Some _ =>
               if Daemon.blockCount d =? cap then Daemon.blockCount d
               else Z.min cap (Daemon.blockCount d * 2)
           end
       end.
Proof.
  cbv zeta. unfold Daemon.getWalletSyncData, Daemon.makePostRequest.
  destruct (makeRequest_frame x d) as (Hbc & Hcfg & _).
  rewrite (makeRequest_eta x d).
  destruct (snd (Daemon.makeRequest x d)) as [[data code]|err];
    cbn [snd]; cbv beta iota.
  - destruct (Daemon.blocks data) as [raw|];
      [cbn [fst snd] | cbn [fst snd]; split; assumption].
    rewrite Hbc, Hcfg.
    assert (Hlen : (Z.of_nat (List.length raw) >=? 0) = true)
      by (rewrite Z.geb_leb; apply Z.leb_le; lia).
    rewrite Hlen.
    destruct (Daemon.decodeBlocks raw); [destruct (Daemon.syncedTop data)|];
      destruct (Daemon.blockCount d =? blocksPerDaemonRequest (Daemon.config d));
      cbn [fst snd negb Daemon.set_lastUpdated Daemon.set_blockCount
           Daemon.blockCount Daemon.config];
      rewrite ?Hbc, ?Hcfg; split; reflexivity.
  - cbn [fst snd Daemon.set_blockCount Daemon.blockCount Daemon.config].
    rewrite Hbc, Hcfg. split; reflexivity.
Qed.

(** C3. Batch size of [getWalletSyncData], for a batch size between 1 and
    the configured cap [blocksPerDaemonRequest].  After a request that the
    daemon answered the new batch size is at least the old one and at most
    the cap: twice the old one clamped to the cap when the answer carries
    blocks (which leaves a batch at the cap unchanged).  After a request
    that failed it is the old one divided by 4 and rounded up, and at
    least 1. *)
Theorem getWalletSyncData_batch_dynamics :
  forall (x : Daemon.exchange Daemon.SyncData) (now : Z) (d : Daemon.t),
    1 <= Daemon.blockCount d <= blocksPerDaemonRequest (Daemon.config d) ->
    let old_batch := Daemon.blockCount d in
    let cap := blocksPerDaemonRequest (Daemon.config d) in
    let d' := fst (fst (Daemon.getWalletSyncData x now d)) in
    let new_batch := Daemon.blockCount d' in
    blocksPerDaemonRequest (Daemon.config d') = cap
    /\ match snd (Daemon.makePostRequest x d) with
       | JS.Return (data, _) =>
           old_batch <= new_batch <= cap
           /\ (Daemon.blocks data <> None -> new_batch = Z.min cap (2 * old_batch))
           /\ (old_batch = cap -> new_batch = old_batch)
       | JS.Throw _ =>
           new_batch = JS.ceil_div old_batch 4
           /\ 4 * (new_batch - 1) < old_batch <= 4 * new_batch
           /\ 1 <= new_batch
       end.
Proof.
  intros x now d Hrange. cbv zeta.
  destruct (getWalletSyncData_blockCount x now d) as [Hcfg Hbc].
  rewrite Hcfg. split; [reflexivity|].
  rewrite Hbc.
  destruct (snd (Daemon.makePostRequest x d)) as [[data code]|err].
  - destruct (Daemon.blocks data) as [raw|].
    + destruct (Daemon.blockCount d =? blocksPerDaemonRequest (Daemon.config d)) eqn:Hcap.
      * apply Z.eqb_eq in Hcap. repeat split; try lia.
      * apply Z.eqb_neq in Hcap. repeat split; try lia.
    + repeat split; try lia. intro H. contradiction.
  - pose proof (ceil_div_4_bounds (Daemon.blockCount d)). repeat split; lia.
Qed.

(** ** Sample configuration *)

Definition sampleConfig : Config :=
  {| blocksPerDaemonRequest := 100;
     scanCoinbaseTransactions := false;
     blockStoreMemoryLimit := 52428800;
     maxLastFetchedBlockInterval := 180;
     maxLastUpdatedNetworkHeightInterval := 180;
     maxLastUpdatedLocalHeightInterval := 180 |}.

(** A daemon reached over plain http, just constructed and configured. *)
Definition sampleDaemon : Daemon.t :=
  Daemon.updateConfig sampleConfig (Daemon.new sampleConfig false (Some false) None 0).

(** A synchronizer that starts at height 0 with nothing recorded. *)
Definition sampleSynchronizer : WalletSynchronizer.t :=
  WalletSynchronizer.new 0 0 sampleConfig (SynchronizationStatus.new 0) 0.

(** An exchange that times out on every protocol. *)
Definition timedOut (A : Type) : Daemon.exchange A :=
  {| Daemon.first := Daemon.Failed "ETIMEDOUT";
     Daemon.plainHttp := Daemon.Failed "ETIMEDOUT" |}.

(** An exchange answered at once with [body]. *)
Definition answeredWith {A : Type} (body : A) : Daemon.exchange A :=
  {| Daemon.first := Daemon.Responded body 200;
     Daemon.plainHttp := Daemon.Responded body 200 |}.

(** After a failure the batch is 25; two answered requests bring it back to
    50 and then to the cap, where it stays. *)
Example batch_size_recovers :
  let fails := timedOut Daemon.SyncData in
  let answers := answeredWith
    {| Daemon.blocks := Some []; Daemon.synced := false; Daemon.topBlock := None |} in
  let d1 := fst (fst (Daemon.getWalletSyncData fails 0 sampleDaemon)) in
  let d2 := fst (fst (Daemon.getWalletSyncData answers 0 d1)) in
  let d3 := fst (fst (Daemon.getWalletSyncData answers 0 d2)) in
  let d4 := fst (fst (Daemon.getWalletSyncData answers 0 d3)) in
  map Daemon.blockCount [sampleDaemon; d1; d2; d3; d4] = [100; 25; 50; 100; 100].
Proof. reflexivity. Qed.

(** A daemon whose protocol is not settled: https fails, plain http answers;
    the request succeeds, the protocol is settled on http and no event is
    emitted. *)
Example makeRequest_falls_back_to_http :
  let d := Daemon.new sampleConfig false None None 0 in
  let x := {| Daemon.first := Daemon.Failed "EPROTO";
              Daemon.plainHttp := Daemon.Responded tt 200 |} in
  let '(d', ev, r) := Daemon.makeRequest x d in
  Daemon.sslDetermined d = false
  /\ Daemon.ssl d' = false /\ Daemon.sslDetermined d' = true
  /\ ev = [] /\ r = JS.Return (tt, 200).
Proof. vm_compute. repeat split. Qed.

(** ** downloadBlocks when the transport fails *)

(** C2, as stated, fails on the sample daemon: a batch of 100 becomes 25 and
    not 50, and [downloadBlocks] returns [[false, false]] and not
    [[false, true]]. *)
Lemma transport_failure_quarters_batch_no_sleep :
  let '(d', s', _, _, result) :=
    WalletSynchronizer.downloadBlocks (timedOut Daemon.SyncData) 1000
      sampleDaemon sampleSynchronizer in
  Daemon.blockCount sampleDaemon = 100
  /\ Daemon.blockCount d' = 25
  /\ Daemon.blockCount d' <> JS.ceil_div (Daemon.blockCount sampleDaemon) 2
  /\ WalletSynchronizer.fetchingBlocks s' = false
  /\ result = (false, false)
  /\ result <> (false, true).
Proof.
  vm_compute. repeat split; discriminate.
Qed.

(** [downloadBlocks] returns [[false, true]] exactly when the awaited call
    throws. *)
Lemma downloadBlocks_finish_fail_sleep (answer : JS.completion Daemon.syncResult)
    (s : WalletSynchronizer.t) :
  snd (WalletSynchronizer.downloadBlocks_finish answer s) = (false, true)
  <-> exists m : string, answer = JS.Throw m.
Proof.
  unfold WalletSynchronizer.downloadBlocks_finish.
  destruct answer as [[blocks top]|m].
  - split; [|intros [m Hm]; discriminate Hm].
    intro H. exfalso.
    destruct top as [top|flag]; destruct blocks as [|b blocks];
      repeat match type of H with
             | context [let '(_, _) := ?e in _] => destruct e
             end;
      cbn in H; discriminate H.
  - split; [intros _; now exists m|]. intros _.
    destruct (WalletSynchronizer.runFinishedFunc s). reflexivity.
Qed.

(** C2, amended. When the request inside [getWalletSyncData] fails in the
    transport, the method does not throw: it returns no blocks and [false],
    and the batch size becomes the old one divided by 4, rounded up (at
    least 1 for a batch of at least 1).  A [downloadBlocks] that issued the
    request (no download was in flight, the daemon was not behind the
    wallet) then runs the deferred reset if there is one, clears the
    fetching flag and returns [[false, false]]. *)
Theorem downloadBlocks_transport_failure :
  forall (x : Daemon.exchange Daemon.SyncData) (now : Z) (d : Daemon.t)
         (s : WalletSynchronizer.t) (err : string),
    WalletSynchronizer.fetchingBlocks s = false ->
    JS.lt (Daemon.getLocalDaemonBlockCount d)
          (Some (WalletSynchronizer.getHeight s)) = false ->
    snd (Daemon.makePostRequest x d) = JS.Throw err ->
    let '(d1, _, answer) := Daemon.getWalletSyncData x now d in
    let '(d', s', _, _, result) := WalletSynchronizer.downloadBlocks x now d s in
    answer = JS.Return ([], inr false)
    /\ Daemon.blockCount d1 = JS.ceil_div (Daemon.blockCount d) 4
    /\ (1 <= Daemon.blockCount d -> 1 <= Daemon.blockCount d1)
    /\ d' = d1
    /\ s' = WalletSynchronizer.set_fetchingBlocks false
              (fst (WalletSynchronizer.runFinishedFunc
                      (WalletSynchronizer.set_fetchingBlocks true s)))
    /\ WalletSynchronizer.fetchingBlocks s' = false
    /\ result = (false, false)
    /\ (forall (other : JS.completion Daemon.syncResult) (s0 : WalletSynchronizer.t),
           snd (WalletSynchronizer.downloadBlocks_finish other s0) = (false, true)
           <-> exists m : string, other = JS.Throw m).
Proof.
  intros x now d s err Hidle Hbehind Hfail.
  unfold WalletSynchronizer.downloadBlocks, WalletSynchronizer.downloadBlocks_start.
  rewrite Hidle.
  change (WalletSynchronizer.getHeight (WalletSynchronizer.set_fetchingBlocks true s))
    with (WalletSynchronizer.getHeight s).
  rewrite Hbehind.
  pose proof (getWalletSyncData_blockCount x now d) as Hbc. cbv zeta in Hbc.
  rewrite Hfail in Hbc. destruct Hbc as [_ Hbc].
  assert (Hanswer : snd (Daemon.getWalletSyncData x now d) = JS.Return ([], inr false)).
  { unfold Daemon.getWalletSyncData. unfold Daemon.makePostRequest in *.
    rewrite (makeRequest_eta x d). rewrite Hfail. reflexivity. }
  destruct (Daemon.getWalletSyncData x now d) as [[d1 dev] answer].
  cbn [fst snd] in Hbc, Hanswer. subst answer.
  cbn [WalletSynchronizer.downloadBlocks_finish].
  destruct (WalletSynchronizer.runFinishedFunc
              (WalletSynchronizer.set_fetchingBlocks true s)) as [s1 ev] eqn:Hrun.
  cbn [fst].
  repeat split; try assumption; try reflexivity.
  - intro Hpos. rewrite Hbc.
    pose proof (ceil_div_4_bounds (Daemon.blockCount d)). lia.
  - apply downloadBlocks_finish_fail_sleep.
  - apply downloadBlocks_finish_fail_sleep.
Qed.

Lemma downloadBlocks_transport_failure_sample :
  let '(d1, _, answer) :=
    Daemon.getWalletSyncData (timedOut Daemon.SyncData) 1000 sampleDaemon in
  let '(d', s', _, _, result) :=
    WalletSynchronizer.downloadBlocks (timedOut Daemon.SyncData) 1000
      sampleDaemon sampleSynchronizer in
  answer = JS.Return ([], inr false)
  /\ Daemon.blockCount d1 = JS.ceil_div (Daemon.blockCount sampleDaemon) 4
  /\ (1 <= Daemon.blockCount sampleDaemon -> 1 <= Daemon.blockCount d1)
  /\ d' = d1
  /\ s' = WalletSynchronizer.set_fetchingBlocks false
            (fst (WalletSynchronizer.runFinishedFunc
                    (WalletSynchronizer.set_fetchingBlocks true sampleSynchronizer)))
  /\ WalletSynchronizer.fetchingBlocks s' = false
  /\ result = (false, false)
  /\ (forall (other : JS.completion Daemon.syncResult) (s0 : WalletSynchronizer.t),
         snd (WalletSynchronizer.downloadBlocks_finish other s0) = (false, true)
         <-> exists m : string, other = JS.Throw m).
Proof.
  apply (downloadBlocks_transport_failure (timedOut Daemon.SyncData) 1000
           sampleDaemon sampleSynchronizer "ETIMEDOUT");
    reflexivity.
Defined.

Lemma getWalletSyncData_batch_dynamics_sample :
  let d := sampleDaemon in
  let x := timedOut Daemon.SyncData in
  1 <= Daemon.blockCount d <= blocksPerDaemonRequest (Daemon.config d)
  /\ Daemon.blockCount (fst (fst (Daemon.getWalletSyncData x 1000 d))) = 25.
Proof.
  cbv zeta. split; [vm_compute; split; discriminate|].
  pose proof (getWalletSyncData_batch_dynamics (timedOut Daemon.SyncData) 1000
                sampleDaemon ltac:(vm_compute; split; discriminate)) as H.
  cbv zeta in H. destruct H as [_ H].
  change (snd (Daemon.makePostRequest (timedOut Daemon.SyncData) sampleDaemon))
    with (@JS.Throw (Daemon.SyncData * Z) "ETIMEDOUT") in H.
  destruct H as [H _]. rewrite H. reflexivity.
Defined.

(** ** updateDaemonInfo: the stored heights *)

(** The request made with environment [x] in state [d] is answered with
    [body]. *)
Definition answered {A : Type} (x : Daemon.exchange A) (d : Daemon.t) (body : A) : Prop :=
  exists code : Z, snd (Daemon.makeGetRequest x d) = JS.Return (body, code).

(** The [/info] answer that a call of [updateDaemonInfo] ends up storing:
    the first answer, or, when the first answer has no [height] and the
    protocol was not settled yet, the answer to the second request, made
    over plain http. *)
Definition infoStored (env : nat -> Daemon.exchange Daemon.Info * Z) (i : nat)
    (d : Daemon.t) (info : Daemon.Info) : Prop :=
  (answered (fst (env i)) d info
   /\ (Daemon.height info <> None \/ Daemon.sslDetermined d = true))
  \/ (exists info0 : Daemon.Info,
         answered (fst (env i)) d info0
         /\ Daemon.height info0 = None
         /\ Daemon.sslDetermined d = false
         /\ answered (fst (env (S i)))
              (Daemon.set_protocol false true
                 (fst (fst (Daemon.makeGetRequest (fst (env i)) d))))
              info).

Lemma updateDaemonInfo_stores_answer (fuel : nat)
    (env : nat -> Daemon.exchange Daemon.Info * Z) (i : nat) (d : Daemon.t)
    (info : Daemon.Info) :
  answered (fst (env i)) d info ->
  Daemon.isUndefined (Daemon.height info) && negb (Daemon.sslDetermined d) = false ->
  exists (d' : Daemon.t) (ev : list Daemon.event),
    Daemon.updateDaemonInfo (S fuel) env i d = Some (d', ev)
    /\ Daemon.getLocalDaemonBlockCount d' = Daemon.height info
    /\ Daemon.getNetworkBlockCount d'
       = Daemon.storedNetworkHeight (Daemon.networkHeight info).
Proof.
  intros [code Hans] Hused. cbn [Daemon.updateDaemonInfo].
  destruct (env i) as [x now]. cbn [fst] in Hans.
  unfold Daemon.makeGetRequest in *.
  rewrite (makeRequest_eta x d), Hans, Hused.
  destruct (JS.strict_ne _ _ || JS.strict_ne _ _);
    eexists; eexists; (split; [reflexivity|]); split; reflexivity.
Qed.


(** C9. After a call of [updateDaemonInfo] that stores an [/info] answer
    reporting [networkHeight = n > 0], [getNetworkBlockCount] is [n - 1]
    and [getLocalDaemonBlockCount] is the reported [height] as it came; the
    wallet's synced test [walletHeight >= networkHeight] is therefore made
    against [n - 1]. *)
Theorem updateDaemonInfo_network_height_minus_one :
  forall (fuel : nat) (env : nat -> Daemon.exchange Daemon.Info * Z) (i : nat)
         (d : Daemon.t) (info : Daemon.Info) (n : Z),
    (2 <= fuel)%nat ->
    infoStored env i d info ->
    Daemon.networkHeight info = Some n ->
    0 < n ->
    exists (d' : Daemon.t) (ev : list Daemon.event),
      Daemon.updateDaemonInfo fuel env i d = Some (d', ev)
      /\ Daemon.getNetworkBlockCount d' = Some (n - 1)
      /\ Daemon.getLocalDaemonBlockCount d' = Daemon.height info
      /\ (forall walletHeight : Z,
             WalletBackend.reachedNetwork walletHeight d' = (walletHeight >=? n - 1)).
Proof.
  intros fuel env i d info n Hfuel Hstored Hnet Hpos.
  assert (Hminus : Daemon.storedNetworkHeight (Daemon.networkHeight info) = Some (n - 1)).
  { rewrite Hnet. unfold Daemon.storedNetworkHeight, JS.lt.
    replace (0 <? n) with true by (symmetry; apply Z.ltb_lt; exact Hpos).
    reflexivity. }
  assert (Hgoal : exists (d' : Daemon.t) (ev : list Daemon.event),
             Daemon.updateDaemonInfo fuel env i d = Some (d', ev)
             /\ Daemon.getLocalDaemonBlockCount d' = Daemon.height info
             /\ Daemon.getNetworkBlockCount d'
                = Daemon.storedNetworkHeight (Daemon.networkHeight info)).
  { destruct fuel as [|[|fuel]]; try lia.
    destruct Hstored as [[Hans Hused] | (info0 & Hans0 & Hnone & Hundet & Hans)].
    - apply updateDaemonInfo_stores_answer; [exact Hans|].
      destruct Hused as [Hdef | Hdet].
      + destruct (Daemon.height info); [reflexivity | contradiction].
      + rewrite Hdet. apply andb_false_r.
    - destruct (updateDaemonInfo_stores_answer fuel env (S i) _ info Hans)
        as (d' & ev' & Hrun & Hlocal & Hnetwork).
      { cbn [Daemon.sslDetermined Daemon.set_protocol]. apply andb_false_r. }
      destruct Hans0 as [code0 Hans0].
      cbn [Daemon.updateDaemonInfo].
      cbn [Daemon.updateDaemonInfo] in Hrun.
      destruct (env i) as [x now]. cbn [fst] in *.
      unfold Daemon.makeGetRequest in *.
      rewrite (makeRequest_eta x d), Hans0, Hnone, Hundet.
      cbn [Daemon.isUndefined negb andb].
      rewrite Hrun. eauto. }
  destruct Hgoal as (d' & ev & Hrun & Hlocal & Hnetwork).
  exists d', ev. repeat split; try assumption.
  - now rewrite Hnetwork.
  - intro w. unfold WalletBackend.reachedNetwork.
    rewrite Hnetwork, Hminus. reflexivity.
Qed.

(** ** makeRequest: connect and disconnect events *)

Definition succeeded {A : Type} (r : JS.completion A) : bool :=
  match r with
  | JS.Return _ => true
  | JS.Throw _ => false
  end.

(** A request to any endpoint: the type of the body it expects and the
    environment it runs in. *)
Definition anyExchange : Type := {A : Type & Daemon.exchange A}.

(** The outcome of a request without the body of the answer. *)
Definition outcome {A : Type} (r : JS.completion A) : JS.completion unit :=
  match r with
  | JS.Return _ => JS.Return tt
  | JS.Throw err => JS.Throw err
  end.

(** A sequence of requests, one after the other: what each one emitted and
    how it ended. *)
Fixpoint requests (xs : list anyExchange) (d : Daemon.t)
    : list (list Daemon.event * JS.completion unit) :=
  match xs with
  | [] => []
  | existT _ A x :: xs' =>
      let '(d', ev, r) := Daemon.makeRequest x d in
      (ev, outcome r) :: requests xs' d'
  end.

(** The events of an edge: from success to failure, from failure to
    success; none when the outcome repeats. *)
Definition edgeEvents {A : Type} (previous : bool) (r : JS.completion A)
    : list Daemon.event :=
  match previous, r with
  | true, JS.Throw err => [Daemon.Disconnect err]
  | false, JS.Return _ => [Daemon.Connect]
  | _, _ => []
  end.

(** The outcome that precedes request [i] of a trace: the outcome of request
    [i - 1], and for the first request the [connected] flag the daemon
    starts with. *)
Definition previousOutcome (trace : list (list Daemon.event * JS.completion unit))
    (d : Daemon.t) (i : nat) : bool :=
  match i with
  | O => Daemon.connected d
  | S j =>
      match nth_error trace j with
      | Some (_, r) => succeeded r
      | None => true
      end
  end.

Lemma makeRequest_edge {A : Type} (x : Daemon.exchange A) (d : Daemon.t) :
  let '(d', ev, r) := Daemon.makeRequest x d in
  Daemon.connected d' = succeeded r /\ ev = edgeEvents (Daemon.connected d) r.
Proof.
  unfold Daemon.makeRequest, Daemon.emitConnect, Daemon.emitDisconnect.
  destruct (Daemon.first x); destruct (Daemon.sslDetermined d);
    try destruct (Daemon.plainHttp x); cbn;
    destruct (Daemon.connected d) eqn:Hconn; cbn; rewrite ?Hconn; cbn;
    split; reflexivity.
Qed.

Lemma outcome_edge {A : Type} (previous : bool) (r : JS.completion A) :
  succeeded (outcome r) = succeeded r
  /\ edgeEvents previous (outcome r) = edgeEvents previous r.
Proof. destruct previous, r; split; reflexivity. Qed.

Lemma requests_edges (xs : list anyExchange) :
  forall (d : Daemon.t) (i : nat) (ev : list Daemon.event)
         (r : JS.completion unit),
    nth_error (requests xs d) i = Some (ev, r) ->
    ev = edgeEvents (previousOutcome (requests xs d) d i) r.
Proof.
  induction xs as [|[A x] xs IH]; intros d i ev r Hnth.
  - destruct i; discriminate Hnth.
  - cbn [requests] in *.
    pose proof (makeRequest_edge x d) as Hedge.
    destruct (Daemon.makeRequest x d) as [[d' ev0] r0].
    destruct Hedge as [Hconn Hev].
    destruct (outcome_edge (Daemon.connected d) r0) as [Hsucc Hsame].
    destruct i as [|i].
    + cbn in Hnth. injection Hnth as <- <-.
      cbn [previousOutcome]. rewrite Hsame. exact Hev.
    + cbn [nth_error] in Hnth.
      specialize (IH d' i ev r Hnth). rewrite IH.
      destruct i as [|i]; cbn [previousOutcome nth_error].
      * now rewrite Hconn, Hsucc.
      * reflexivity.
Qed.

Lemma requests_length (xs : list anyExchange) (d : Daemon.t) :
  List.length (requests xs d) = List.length xs.
Proof.
  revert d. induction xs as [|[A x] xs IH]; intro d; [reflexivity|].
  cbn [requests]. destruct (Daemon.makeRequest x d) as [[d' ev] r].
  cbn [List.length]. now rewrite IH.
Qed.

(** C8, as stated, fails on a daemon that was just constructed: its very
    first request times out and a disconnect event is emitted. *)
Lemma first_failure_emits_disconnect :
  snd (fst (Daemon.makeRequest (timedOut unit)
              (Daemon.new sampleConfig false None None 0)))
  = [Daemon.Disconnect "ETIMEDOUT"].
Proof. reflexivity. Qed.

(** A trace emits a disconnect (a connect) at a position. *)
Definition emitsDisconnect (ev : list Daemon.event) : Prop :=
  exists err : string, In (Daemon.Disconnect err) ev.

Definition emitsConnect (ev : list Daemon.event) : Prop :=
  In Daemon.Connect ev.

Lemma edgeEvents_disconnect {A : Type} (previous : bool) (r : JS.completion A) :
  emitsDisconnect (edgeEvents previous r) <-> previous = true /\ succeeded r = false.
Proof.
  unfold emitsDisconnect, edgeEvents.
  destruct previous, r as [a|err]; cbn.
  - split; [intros [e []] | intros [_ H]; discriminate H].
  - split; [intros _; split; reflexivity | intros _; exists err; left; reflexivity].
  - split; [intros [e [H|[]]]; discriminate H | intros [H _]; discriminate H].
  - split; [intros [e []] | intros [H _]; discriminate H].
Qed.

Lemma edgeEvents_connect {A : Type} (previous : bool) (r : JS.completion A) :
  emitsConnect (edgeEvents previous r) <-> previous = false /\ succeeded r = true.
Proof.
  unfold emitsConnect, edgeEvents.
  destruct previous, r as [a|err]; cbn.
  - split; [intros [] | intros [H _]; discriminate H].
  - split; [intros [H|[]]; discriminate H | intros [H _]; discriminate H].
  - split; [intros _; split; reflexivity | intros _; left; reflexivity].
  - split; [intros [] | intros [_ H]; discriminate H].
Qed.

(** C8, amended. Along every sequence of requests, to whatever endpoints,
    a request emits [disconnect] exactly when it fails and the outcome
    before it was a success, and [connect] exactly when it succeeds and the
    outcome before it was a failure; it emits nothing otherwise.  So between two
    disconnects there is a successful request, and a connect comes only on
    a success that follows a failure.  The outcome before the first request
    is the [connected] flag, which the constructor sets to true: the first
    request of a new daemon emits a disconnect when it fails and nothing
    when it succeeds. *)
Theorem connection_events_at_edges :
  (forall (xs : list anyExchange) (d : Daemon.t),
      let trace := requests xs d in
      List.length trace = List.length xs
      /\ (forall (i : nat) (ev : list Daemon.event) (r : JS.completion unit),
             nth_error trace i = Some (ev, r) ->
             ev = edgeEvents (previousOutcome trace d i) r
             /\ (emitsDisconnect ev
                 <-> previousOutcome trace d i = true /\ succeeded r = false)
             /\ (emitsConnect ev
                 <-> previousOutcome trace d i = false /\ succeeded r = true))
      /\ (forall (i j : nat) (evi evj : list Daemon.event)
                 (ri rj : JS.completion unit),
             (i < j)%nat ->
             nth_error trace i = Some (evi, ri) ->
             nth_error trace j = Some (evj, rj) ->
             emitsDisconnect evi -> emitsDisconnect evj ->
             exists (k : nat) (evk : list Daemon.event) (rk : JS.completion unit),
               (i < k < j)%nat /\ nth_error trace k = Some (evk, rk)
               /\ succeeded rk = true))
  /\ (forall (A : Type) (x : Daemon.exchange A) (cfg : Config) (hostIsRawIP : bool)
             (sslArg useRawBlocksArg : option bool) (now : Z),
         let d := Daemon.new cfg hostIsRawIP sslArg useRawBlocksArg now in
         Daemon.connected d = true
         /\ match Daemon.makeRequest x d with
            | (_, ev, JS.Throw err) => ev = [Daemon.Disconnect err]
            | (_, ev, JS.Return _) => ev = []
            end).
Proof.
  split.
  - intros xs d. cbv zeta.
    assert (Hedges : forall (i : nat) (ev : list Daemon.event)
                            (r : JS.completion unit),
               nth_error (requests xs d) i = Some (ev, r) ->
               ev = edgeEvents (previousOutcome (requests xs d) d i) r
               /\ (emitsDisconnect ev
                   <-> previousOutcome (requests xs d) d i = true /\ succeeded r = false)
               /\ (emitsConnect ev
                   <-> previousOutcome (requests xs d) d i = false /\ succeeded r = true)).
    { intros i ev r Hnth. pose proof (requests_edges xs d i ev r Hnth) as Hev.
      split; [exact Hev|].
      split.
      - rewrite Hev at 1. apply edgeEvents_disconnect.
      - rewrite Hev at 1. apply edgeEvents_connect. }
    split; [apply requests_length|]. split; [exact Hedges|].
    intros i j evi evj ri rj Hlt Hi Hj Hdi Hdj.
    destruct (Hedges i evi ri Hi) as (_ & Hdis_i & _).
    destruct (Hedges j evj rj Hj) as (_ & Hdis_j & _).
    apply Hdis_i in Hdi. apply Hdis_j in Hdj.
    destruct Hdi as [_ Hfail_i]. destruct Hdj as [Hprev_j _].
    destruct j as [|k]; [lia|]. cbn [previousOutcome] in Hprev_j.
    destruct (nth_error (requests xs d) k) as [[evk rk]|] eqn:Hk.
    + assert (Hne : i <> k).
      { intro Heq. subst k. rewrite Hi in Hk. injection Hk as _ Hr. subst rk.
        rewrite Hfail_i in Hprev_j. discriminate Hprev_j. }
      exists k, evk, rk. split; [lia|]. split; [exact Hk | exact Hprev_j].
    + exfalso. apply nth_error_None in Hk.
      assert (Hsome : nth_error (requests xs d) (S k) <> None) by (rewrite Hj; discriminate).
      apply nth_error_Some in Hsome. lia.
  - intros A x cfg ip sslArg raw now. cbv zeta. split; [reflexivity|].
    pose proof (makeRequest_edge x (Daemon.new cfg ip sslArg raw now)) as Hedge.
    destruct (Daemon.makeRequest x (Daemon.new cfg ip sslArg raw now)) as [[d' ev] r].
    destruct Hedge as [_ Hev]. destruct r; exact Hev.
Qed.

(** ** rewind and reset *)

(** A synchronizer that has processed blocks 5000 and 5001: two recent
    hashes and one checkpoint are on record. *)
Definition syncedTo5001 : WalletSynchronizer.t :=
  WalletSynchronizer.set_synchronizationStatus
    (SynchronizationStatus.storeBlockHash 5001 "b5001"
       (SynchronizationStatus.storeBlockHash 5000 "b5000"
          (SynchronizationStatus.new 4999)))
    sampleSynchronizer.

(** C4, as stated, fails: the history recorded up to height 5001 is gone
    after [rewind(5002)], which leaves what [reset(5002, 0)] leaves. *)
Lemma rewind_discards_history :
  let before := WalletSynchronizer.synchronizationStatus syncedTo5001 in
  let after :=
    WalletSynchronizer.synchronizationStatus
      (fst (WalletSynchronizer.rewind 5002 0 syncedTo5001)) in
  WalletSynchronizer.fetchingBlocks syncedTo5001 = false
  /\ SynchronizationStatus.getHeight before = 5001
  /\ SynchronizationStatus.getRecentBlockHashes before = ["b5001"; "b5000"]%string
  /\ SynchronizationStatus.getBlockCheckpoints before = ["b5000"]%string
  /\ SynchronizationStatus.getHeight after = 5001
  /\ SynchronizationStatus.getRecentBlockHashes after = []
  /\ SynchronizationStatus.getBlockCheckpoints after = []
  /\ after = WalletSynchronizer.synchronizationStatus
               (fst (WalletSynchronizer.reset 5002 0 0 syncedTo5001)).
Proof. vm_compute. repeat split. Qed.

(** C4, amended. [rewind(h)] applies at once when no download is in flight
    and is stored as the deferred closure otherwise.  Once it has applied,
    the stored blocks are empty, the scan starts again at height [h] with
    timestamp 0, and the synchronization status is a new one of height
    [h - 1] with an empty history (no recent hashes, no checkpoints): the
    status that [reset(h, ts)] installs, whatever was recorded before. *)
Theorem rewind_installs_fresh_status :
  forall (h : Z) (promise : nat) (s : WalletSynchronizer.t),
    let applied := WalletSynchronizer.applyMutation (WalletSynchronizer.RewindTo h) s in
    WalletSynchronizer.rewind h promise s
    = (if WalletSynchronizer.fetchingBlocks s
       then (WalletSynchronizer.set_finishedFunc
               (Some (WalletSynchronizer.RewindTo h, promise)) s, [])
       else (applied, [WalletSynchronizer.Resolved promise]))
    /\ fst (WalletSynchronizer.runFinishedFunc
              (WalletSynchronizer.set_finishedFunc
                 (Some (WalletSynchronizer.RewindTo h, promise)) s))
       = WalletSynchronizer.set_finishedFunc None applied
    /\ WalletSynchronizer.storedBlocks applied = []
    /\ WalletSynchronizer.startHeight applied = h
    /\ WalletSynchronizer.startTimestamp applied = 0
    /\ WalletSynchronizer.synchronizationStatus applied = SynchronizationStatus.new (h - 1)
    /\ WalletSynchronizer.getHeight applied = h - 1
    /\ SynchronizationStatus.getRecentBlockHashes
         (WalletSynchronizer.synchronizationStatus applied) = []
    /\ SynchronizationStatus.getBlockCheckpoints
         (WalletSynchronizer.synchronizationStatus applied) = []
    /\ (forall ts : Z,
           WalletSynchronizer.synchronizationStatus applied
           = WalletSynchronizer.synchronizationStatus
               (WalletSynchronizer.applyMutation (WalletSynchronizer.ResetTo h ts) s))
    /\ applied = WalletSynchronizer.applyMutation (WalletSynchronizer.ResetTo h 0) s.
Proof.
  intros h promise s. cbv zeta.
  unfold WalletSynchronizer.rewind, WalletSynchronizer.schedule.
  repeat split.
Qed.

(** ** dropBlock *)

(** The front of the queue is the block [(height, hash)]. *)
Definition frontIs (height : Z) (hash : string) (queue : list Block) : Prop :=
  exists (front : Block) (rest : list Block),
    queue = front :: rest /\ blockHeight front = height /\ blockHash front = hash.

Lemma downloadBlocks_start_store (d : Daemon.t) (s : WalletSynchronizer.t) :
  let s' := fst (WalletSynchronizer.downloadBlocks_start d s) in
  WalletSynchronizer.storedBlocks s' = WalletSynchronizer.storedBlocks s
  /\ WalletSynchronizer.synchronizationStatus s'
     = WalletSynchronizer.synchronizationStatus s.
Proof.
  unfold WalletSynchronizer.downloadBlocks_start.
  destruct (WalletSynchronizer.fetchingBlocks s); [split; reflexivity|].
  destruct (JS.lt _ _); split; reflexivity.
Qed.

(** The refill at the end of [dropBlock] leaves the queue and the status as
    the guarded removal left them. *)
Lemma dropBlock_store (sizeof : list Block -> Z) (d : Daemon.t) (height : Z)
    (hash : string) (s : WalletSynchronizer.t) :
  let s' := fst (WalletSynchronizer.dropBlock sizeof d height hash s) in
  let s1 := WalletSynchronizer.dropFront height hash s in
  WalletSynchronizer.storedBlocks s' = WalletSynchronizer.storedBlocks s1
  /\ WalletSynchronizer.synchronizationStatus s'
     = WalletSynchronizer.synchronizationStatus s1.
Proof.
  cbv zeta. unfold WalletSynchronizer.dropBlock.
  destruct ((Z.rem height 10 =? 0) && _); [|split; reflexivity].
  pose proof (downloadBlocks_start_store d (WalletSynchronizer.dropFront height hash s)) as H.
  destruct (WalletSynchronizer.downloadBlocks_start d
              (WalletSynchronizer.dropFront height hash s)) as [s2 st].
  exact H.
Qed.

Lemma dropFront_match (height : Z) (hash : string) (s : WalletSynchronizer.t)
    (front : Block) (rest : list Block) :
  WalletSynchronizer.storedBlocks s = front :: rest ->
  blockHeight front = height -> blockHash front = hash ->
  WalletSynchronizer.dropFront height hash s
  = WalletSynchronizer.set_synchronizationStatus
      (SynchronizationStatus.storeBlockHash height hash
         (WalletSynchronizer.synchronizationStatus s))
      (WalletSynchronizer.set_storedBlocks rest s).
Proof.
  intros Hq Hh Hx. unfold WalletSynchronizer.dropFront. rewrite Hq.
  rewrite Hh, Hx, Z.eqb_refl, String.eqb_refl. reflexivity.
Qed.

Lemma dropFront_no_match (height : Z) (hash : string) (s : WalletSynchronizer.t) :
  ~ frontIs height hash (WalletSynchronizer.storedBlocks s) ->
  WalletSynchronizer.dropFront height hash s = s.
Proof.
  intros Hno. unfold WalletSynchronizer.dropFront.
  destruct (WalletSynchronizer.storedBlocks s) as [|front rest] eqn:Hq; [reflexivity|].
  destruct (blockHeight front =? height) eqn:Hh; [|reflexivity].
  destruct (String.eqb (blockHash front) hash) eqn:Hx; [|reflexivity].
  exfalso. apply Hno. exists front, rest.
  apply Z.eqb_eq in Hh. apply String.eqb_eq in Hx. auto.
Qed.

(** C6, as stated, fails on a queue whose first two blocks are the same
    block: the second [dropBlock(7, b7)] removes a block as well. *)
Lemma dropBlock_twice_on_repeated_block :
  let b := {| blockHeight := 7; blockHash := "b7"; blockTimestamp := 0 |} in
  let s := WalletSynchronizer.set_storedBlocks [b; b] sampleSynchronizer in
  let s1 := fst (WalletSynchronizer.dropBlock (fun _ => 0) sampleDaemon 7 "b7" s) in
  let s2 := fst (WalletSynchronizer.dropBlock (fun _ => 0) sampleDaemon 7 "b7" s1) in
  WalletSynchronizer.storedBlocks s1 = [b]
  /\ WalletSynchronizer.storedBlocks s2 = []
  /\ WalletSynchronizer.storedBlocks s2 <> WalletSynchronizer.storedBlocks s1
  /\ SynchronizationStatus.getRecentBlockHashes
       (WalletSynchronizer.synchronizationStatus s1) = ["b7"]%string
  /\ SynchronizationStatus.getRecentBlockHashes
       (WalletSynchronizer.synchronizationStatus s2) = ["b7"; "b7"]%string.
Proof. vm_compute. repeat split. discriminate. Qed.

(** C6, amended. [dropBlock(height, hash)] removes the front block and
    records [(height, hash)] in the synchronization status if and only if
    the queue is not empty and its front block has that height and that
    hash; otherwise it leaves the queue and the status alone.  A second
    call with the same arguments leaves both as the first call left them,
    provided the block behind the front is not one with the same height and
    hash again. *)
Theorem dropBlock_guarded_and_idempotent :
  forall (sizeof : list Block -> Z) (d : Daemon.t) (height : Z) (hash : string)
         (s : WalletSynchronizer.t),
    let s1 := fst (WalletSynchronizer.dropBlock sizeof d height hash s) in
    (frontIs height hash (WalletSynchronizer.storedBlocks s) ->
     WalletSynchronizer.storedBlocks s1 = tl (WalletSynchronizer.storedBlocks s)
     /\ WalletSynchronizer.synchronizationStatus s1
        = SynchronizationStatus.storeBlockHash height hash
            (WalletSynchronizer.synchronizationStatus s))
    /\ (~ frontIs height hash (WalletSynchronizer.storedBlocks s) ->
        WalletSynchronizer.storedBlocks s1 = WalletSynchronizer.storedBlocks s
        /\ WalletSynchronizer.synchronizationStatus s1
           = WalletSynchronizer.synchronizationStatus s)
    /\ (forall d2 : Daemon.t,
           ~ (frontIs height hash (WalletSynchronizer.storedBlocks s)
              /\ frontIs height hash (tl (WalletSynchronizer.storedBlocks s))) ->
           let s2 := fst (WalletSynchronizer.dropBlock sizeof d2 height hash s1) in
           WalletSynchronizer.storedBlocks s2 = WalletSynchronizer.storedBlocks s1
           /\ WalletSynchronizer.synchronizationStatus s2
              = WalletSynchronizer.synchronizationStatus s1).
Proof.
  intros sizeof d height hash s. cbv zeta.
  destruct (dropBlock_store sizeof d height hash s) as [Hq Hst].
  assert (Hyes : frontIs height hash (WalletSynchronizer.storedBlocks s) ->
                 WalletSynchronizer.storedBlocks
                   (fst (WalletSynchronizer.dropBlock sizeof d height hash s))
                 = tl (WalletSynchronizer.storedBlocks s)
                 /\ WalletSynchronizer.synchronizationStatus
                      (fst (WalletSynchronizer.dropBlock sizeof d height hash s))
                    = SynchronizationStatus.storeBlockHash height hash
                        (WalletSynchronizer.synchronizationStatus s)).
  { intros (front & rest & Hs & Hh & Hx).
    rewrite Hq, Hst, (dropFront_match height hash s front rest Hs Hh Hx), Hs.
    split; reflexivity. }
  assert (Hno : ~ frontIs height hash (WalletSynchronizer.storedBlocks s) ->
                WalletSynchronizer.storedBlocks
                  (fst (WalletSynchronizer.dropBlock sizeof d height hash s))
                = WalletSynchronizer.storedBlocks s
                /\ WalletSynchronizer.synchronizationStatus
                     (fst (WalletSynchronizer.dropBlock sizeof d height hash s))
                   = WalletSynchronizer.synchronizationStatus s).
  { intro Hn. rewrite Hq, Hst, (dropFront_no_match height hash s Hn).
    split; reflexivity. }
  split; [exact Hyes|]. split; [exact Hno|].
  intros d2 Honce.
  destruct (dropBlock_store sizeof d2 height hash
              (fst (WalletSynchronizer.dropBlock sizeof d height hash s))) as [Hq2 Hst2].
  rewrite Hq2, Hst2.
  rewrite dropFront_no_match; [split; reflexivity|].
  intro Hagain.
  assert (Hdec : frontIs height hash (WalletSynchronizer.storedBlocks s)
                 \/ ~ frontIs height hash (WalletSynchronizer.storedBlocks s)).
  { destruct (WalletSynchronizer.storedBlocks s) as [|front rest].
    - right. intros (f & r & Hnil & _). discriminate Hnil.
    - destruct (Z.eq_dec (blockHeight front) height) as [Hh|Hh];
        [destruct (string_dec (blockHash front) hash) as [Hx|Hx]|].
      + left. exists front, rest. auto.
      + right. intros (f & r & Hc & _ & Hx'). injection Hc as <- <-. contradiction.
      + right. intros (f & r & Hc & Hh' & _). injection Hc as <- <-. contradiction. }
  destruct Hdec as [Hfront | Hnofront].
  - apply Honce. split; [exact Hfront|].
    destruct (Hyes Hfront) as [Htl _]. rewrite <- Htl. exact Hagain.
  - destruct (Hno Hnofront) as [Hsame _]. apply Hnofront.
    rewrite <- Hsame. exact Hagain.
Qed.

(** On a queue of two different blocks the second call finds nothing to
    drop. *)
Example dropBlock_twice_on_distinct_blocks :
  let b7 := {| blockHeight := 7; blockHash := "b7"; blockTimestamp := 0 |} in
  let b8 := {| blockHeight := 8; blockHash := "b8"; blockTimestamp := 30 |} in
  let s := WalletSynchronizer.set_storedBlocks [b7; b8] sampleSynchronizer in
  let s1 := fst (WalletSynchronizer.dropBlock (fun _ => 0) sampleDaemon 7 "b7" s) in
  let s2 := fst (WalletSynchronizer.dropBlock (fun _ => 0) sampleDaemon 7 "b7" s1) in
  WalletSynchronizer.storedBlocks s1 = [b8]
  /\ WalletSynchronizer.storedBlocks s2 = [b8]
  /\ WalletSynchronizer.synchronizationStatus s2
     = WalletSynchronizer.synchronizationStatus s1.
Proof. vm_compute. repeat split. Qed.

(** ** The fail-count map *)

Section FailCountMap.

Import WalletSynchronizer.

Definition keys (m : FailCount) : list string := map fst m.

Lemma map_get_None_keys (k : string) (m : FailCount) :
  ~ In k (keys m) -> map_get k m = None.
Proof.
  induction m as [|[k' v] m IH]; intro Hnot; [reflexivity|].
  cbn [map_get]. destruct (String.eqb k' k) eqn:E.
  - apply String.eqb_eq in E. exfalso. apply Hnot. left. exact E.
  - apply IH. intro Hin. apply Hnot. right. exact Hin.
Qed.

Lemma map_get_set_eq (k : string) (v : Z) (m : FailCount) :
  map_get k (map_set k v m) = Some v.
Proof.
  induction m as [|[k' v'] m IH]; cbn [map_set map_get].
  - now rewrite String.eqb_refl.
  - destruct (String.eqb k' k) eqn:E; cbn [map_get].
    + now rewrite String.eqb_refl.
    + now rewrite E.
Qed.

Lemma map_get_set_ne (k k' : string) (v : Z) (m : FailCount) :
  k <> k' -> map_get k' (map_set k v m) = map_get k' m.
Proof.
  intro Hne. induction m as [|[k0 v0] m IH]; cbn [map_set map_get].
  - apply String.eqb_neq in Hne. now rewrite Hne.
  - destruct (String.eqb k0 k) eqn:E; cbn [map_get].
    + apply String.eqb_eq in E. subst k0.
      apply String.eqb_neq in Hne. now rewrite Hne.
    + now rewrite IH.
Qed.

Lemma map_get_delete_eq (k : string) (m : FailCount) :
  map_get k (map_delete k m) = None.
Proof.
  unfold map_delete. induction m as [|[k' v'] m IH]; [reflexivity|].
  cbn [filter fst]. destruct (String.eqb k' k) eqn:E; cbn [negb]; [exact IH|].
  cbn [map_get]. now rewrite E.
Qed.

Lemma map_get_delete_ne (k k' : string) (m : FailCount) :
  k <> k' -> map_get k' (map_delete k m) = map_get k' m.
Proof.
  intro Hne. unfold map_delete. induction m as [|[k0 v0] m IH]; [reflexivity|].
  cbn [filter fst]. destruct (String.eqb k0 k) eqn:E; cbn [negb map_get].
  - apply String.eqb_eq in E. subst k0.
    apply String.eqb_neq in Hne. now rewrite Hne.
  - now rewrite IH.
Qed.

Lemma keys_set (k k' : string) (v : Z) (m : FailCount) :
  In k' (keys (map_set k v m)) <-> k' = k \/ In k' (keys m).
Proof.
  unfold keys. induction m as [|[k0 v0] m IH]; cbn [map_set map fst In].
  - intuition congruence.
  - destruct (String.eqb k0 k) eqn:E; cbn [map fst In].
    + apply String.eqb_eq in E. subst k0. intuition congruence.
    + rewrite IH. intuition congruence.
Qed.

Lemma NoDup_set (k : string) (v : Z) (m : FailCount) :
  NoDup (keys m) -> NoDup (keys (map_set k v m)).
Proof.
  induction m as [|[k0 v0] m IH]; intro Hnd; cbn [map_set].
  - constructor; [intros []|constructor].
  - inversion Hnd as [|? ? Hnot Hnd']; subst.
    destruct (String.eqb k0 k) eqn:E.
    + apply String.eqb_eq in E. subst k0. constructor; assumption.
    + apply String.eqb_neq in E.
      change (NoDup (k0 :: keys (map_set k v m))). constructor; [|now apply IH].
      rewrite keys_set. intros [Heq | Hin]; [congruence | contradiction].
Qed.

Lemma NoDup_delete (k : string) (m : FailCount) :
  NoDup (keys m) -> NoDup (keys (map_delete k m)).
Proof.
  unfold map_delete, keys. induction m as [|[k0 v0] m IH]; intro Hnd; [constructor|].
  inversion Hnd as [|? ? Hnot Hnd']; subst.
  cbn [filter fst]. destruct (negb (String.eqb k0 k)); [|now apply IH].
  cbn [map fst]. constructor; [|now apply IH].
  intro Hin. apply Hnot. apply in_map_iff in Hin.
  destruct Hin as (e & He & Hin). apply filter_In in Hin.
  apply in_map_iff. exists e. tauto.
Qed.

(** One visit of the first loop, read at a key [h]. *)
Definition afterCheck (cancelled : list string) (h : string) (failCount : Z) : option Z :=
  if includes cancelled h then
    if failCount =? 10 then None else Some (failCount + 1)
  else None.

Lemma checkEntries_get (cancelled : list string) (h : string) (es : FailCount) :
  forall (toRemove : list string) (m : FailCount),
    NoDup (keys es) ->
    map_get h (snd (fold_left (checkEntry cancelled) es (toRemove, m)))
    = match map_get h es with
      | Some c => afterCheck cancelled h c
      | None => map_get h m
      end.
Proof.
  induction es as [|[k c] es IH]; intros tr m Hnd; [reflexivity|].
  inversion Hnd as [|? ? Hnot Hnd']; subst.
  cbn [fold_left map_get].
  destruct (checkEntry cancelled (tr, m) (k, c)) as [tr' m'] eqn:Hstep.
  rewrite (IH tr' m' Hnd').
  unfold checkEntry in Hstep.
  destruct (String.eqb k h) eqn:E.
  - apply String.eqb_eq in E. subst k.
    rewrite (map_get_None_keys h es Hnot). unfold afterCheck.
    destruct (includes cancelled h).
    + destruct (c =? 10); injection Hstep as <- <-.
      * apply map_get_delete_eq.
      * apply map_get_set_eq.
    + injection Hstep as <- <-. apply map_get_delete_eq.
  - apply String.eqb_neq in E.
    destruct (map_get h es); [reflexivity|].
    destruct (includes cancelled k).
    + destruct (c =? 10); injection Hstep as <- <-.
      * now apply map_get_delete_ne.
      * now apply map_get_set_ne.
    + injection Hstep as <- <-. now apply map_get_delete_ne.
Qed.

Lemma checkEntries_removed (cancelled : list string) (h : string) (es : FailCount) :
  forall (toRemove : list string) (m : FailCount),
    NoDup (keys es) ->
    In h (fst (fold_left (checkEntry cancelled) es (toRemove, m)))
    <-> In h toRemove \/ (map_get h es = Some 10 /\ includes cancelled h = true).
Proof.
  induction es as [|[k c] es IH]; intros tr m Hnd.
  - cbn. intuition discriminate.
  - inversion Hnd as [|? ? Hnot Hnd']; subst.
    cbn [fold_left map_get].
    destruct (checkEntry cancelled (tr, m) (k, c)) as [tr' m'] eqn:Hstep.
    rewrite (IH tr' m' Hnd').
    unfold checkEntry in Hstep.
    destruct (String.eqb k h) eqn:E.
    + apply String.eqb_eq in E. subst k.
      rewrite (map_get_None_keys h es Hnot).
      destruct (includes cancelled h).
      * destruct (c =? 10) eqn:Hc; injection Hstep as <- <-.
        -- apply Z.eqb_eq in Hc. subst c. rewrite in_app_iff. cbn [In].
           intuition discriminate.
        -- apply Z.eqb_neq in Hc. intuition (try discriminate; congruence).
      * injection Hstep as <- <-. intuition discriminate.
    + apply String.eqb_neq in E.
      destruct (includes cancelled k).
      * destruct (c =? 10); injection Hstep as <- <-; [|tauto].
        rewrite in_app_iff. cbn [In]. intuition congruence.
      * injection Hstep as <- <-. tauto.
Qed.

Lemma checkEntries_NoDup (cancelled : list string) (es : FailCount) :
  forall (toRemove : list string) (m : FailCount),
    NoDup (keys m) ->
    NoDup (keys (snd (fold_left (checkEntry cancelled) es (toRemove, m)))).
Proof.
  induction es as [|[k c] es IH]; intros tr m Hnd; [exact Hnd|].
  cbn [fold_left]. unfold checkEntry at 2.
  destruct (includes cancelled k); [destruct (c =? 10)|];
    apply IH; auto using NoDup_set, NoDup_delete.
Qed.

Lemma addFirstFails_get (cancelled : list string) (h : string) :
  forall m : FailCount,
    map_get h (fold_left addFirstFail cancelled m)
    = match map_get h m with
      | Some c => Some c
      | None => if includes cancelled h then Some 1 else None
      end.
Proof.
  unfold includes.
  induction cancelled as [|k cancelled IH]; intro m.
  - cbn. now destruct (map_get h m).
  - cbn [fold_left existsb]. rewrite IH. unfold addFirstFail, map_has.
    destruct (String.eqb h k) eqn:E.
    + apply String.eqb_eq in E. subst k.
      destruct (map_get h m) eqn:Hm; cbn [negb orb].
      * now rewrite Hm.
      * now rewrite map_get_set_eq.
    + apply String.eqb_neq in E. cbn [orb].
      destruct (map_get k m); cbn [negb]; [reflexivity|].
      rewrite map_get_set_ne by congruence. reflexivity.
Qed.

Lemma addFirstFails_NoDup (cancelled : list string) :
  forall m : FailCount,
    NoDup (keys m) -> NoDup (keys (fold_left addFirstFail cancelled m)).
Proof.
  induction cancelled as [|k cancelled IH]; intros m Hnd; [exact Hnd|].
  cbn [fold_left]. apply IH. unfold addFirstFail.
  destruct (negb (map_has k m)); auto using NoDup_set.
Qed.

End FailCountMap.

(** ** findCancelledTransactions: when a transaction is given up *)

(** The count the map holds for [h] after a call, from the count before
    and from whether the daemon reported [h] as not found. *)
Definition nextCount (before : option Z) (missing : bool) : option Z :=
  if missing then
    match before with
    | None => Some 1
    | Some c => if c =? 10 then Some 1 else Some (c + 1)
    end
  else None.

(** A call of the locked-transactions check: the hashes asked about and the
    daemon's list of hashes it does not know. *)
Definition check : Type := list string * list string.

(** The checks one after the other; the second component is what the last
    one returned. *)
Definition runChecks (checks : list check) (s : WalletSynchronizer.t)
    : WalletSynchronizer.t * list string :=
  fold_left
    (fun acc c => WalletSynchronizer.findCancelledTransactions (fst c) (snd c) (fst acc))
    checks (s, []).

(** How many of the latest checks in a row reported [h] as not found. *)
Definition missingStreak (h : string) (checks : list check) : nat :=
  fold_left
    (fun k c => if WalletSynchronizer.includes (snd c) h then S k else O)
    checks O.

(** The count held after a streak of [k] reports: it runs from 1 to 10 and
    starts again at 1. *)
Definition countAfter (k : nat) : option Z :=
  match k with
  | O => None
  | S j => Some (Z.of_nat (j mod 10) + 1)
  end.

Lemma findCancelledTransactions_step (asked cancelled : list string)
    (s : WalletSynchronizer.t) (h : string) :
  asked <> [] ->
  NoDup (keys (WalletSynchronizer.cancelledTransactionsFailCount s)) ->
  let '(s', toRemove) := WalletSynchronizer.findCancelledTransactions asked cancelled s in
  WalletSynchronizer.map_get h (WalletSynchronizer.cancelledTransactionsFailCount s')
  = nextCount
      (WalletSynchronizer.map_get h (WalletSynchronizer.cancelledTransactionsFailCount s))
      (WalletSynchronizer.includes cancelled h)
  /\ (In h toRemove
      <-> WalletSynchronizer.map_get h (WalletSynchronizer.cancelledTransactionsFailCount s)
          = Some 10
          /\ WalletSynchronizer.includes cancelled h = true)
  /\ NoDup (keys (WalletSynchronizer.cancelledTransactionsFailCount s')).
Proof.
  intros Hasked Hnd. unfold WalletSynchronizer.findCancelledTransactions.
  destruct asked as [|a asked]; [contradiction|].
  set (m := WalletSynchronizer.cancelledTransactionsFailCount s) in *.
  pose proof (checkEntries_get cancelled h m [] m Hnd) as Hget.
  pose proof (checkEntries_removed cancelled h m [] m Hnd) as Hrem.
  pose proof (checkEntries_NoDup cancelled m [] m Hnd) as Hnd1.
  destruct (fold_left (WalletSynchronizer.checkEntry cancelled) m ([], m))
    as [toRemove m1].
  cbn [fst snd] in *.
  cbn [WalletSynchronizer.cancelledTransactionsFailCount WalletSynchronizer.set_failCount].
  split; [|split].
  - rewrite addFirstFails_get, Hget. unfold nextCount, afterCheck.
    destruct (WalletSynchronizer.map_get h m) as [c|];
      destruct (WalletSynchronizer.includes cancelled h); try reflexivity.
    destruct (c =? 10); reflexivity.
  - rewrite Hrem. cbn [In]. tauto.
  - now apply addFirstFails_NoDup.
Qed.

Lemma mod10_succ (j : nat) :
  (S j mod 10 = if j mod 10 =? 9 then 0 else S (j mod 10))%nat.
Proof.
  pose proof (Nat.div_mod_eq j 10) as Hj.
  pose proof (Nat.mod_upper_bound j 10 ltac:(lia)) as Hb.
  destruct (Nat.eqb (j mod 10) 9) eqn:E.
  - apply Nat.eqb_eq in E. symmetry.
    apply (Nat.mod_unique (S j) 10 (S (j / 10)) 0); lia.
  - apply Nat.eqb_neq in E. symmetry.
    apply (Nat.mod_unique (S j) 10 (j / 10) (S (j mod 10))); lia.
Qed.

Lemma nextCount_countAfter (k : nat) :
  nextCount (countAfter k) true = countAfter (S k)
  /\ nextCount (countAfter k) false = countAfter 0.
Proof.
  split; [|reflexivity].
  destruct k as [|j]; [reflexivity|].
  cbn [countAfter nextCount]. rewrite mod10_succ.
  pose proof (Nat.mod_upper_bound j 10 ltac:(lia)) as Hb.
  destruct (Nat.eqb (j mod 10) 9) eqn:E.
  - apply Nat.eqb_eq in E. rewrite E. reflexivity.
  - apply Nat.eqb_neq in E.
    replace (Z.of_nat (j mod 10) + 1 =? 10) with false
      by (symmetry; apply Z.eqb_neq; lia).
    f_equal. lia.
Qed.

Lemma countAfter_ten (k : nat) :
  countAfter k = Some 10 <-> exists q : nat, k = (10 * q + 10)%nat.
Proof.
  destruct k as [|j]; cbn [countAfter].
  - split; [discriminate | intros [q Hq]; lia].
  - pose proof (Nat.div_mod_eq j 10) as Hj.
    pose proof (Nat.mod_upper_bound j 10 ltac:(lia)) as Hb.
    split.
    + intro H.
      assert (Hten : Z.of_nat (j mod 10) + 1 = 10) by congruence.
      exists (j / 10)%nat. lia.
    + intros [q Hq].
      assert (Hm : (9 = j mod 10)%nat)
        by (apply (Nat.mod_unique j 10 q 9); lia).
      rewrite <- Hm. reflexivity.
Qed.

Lemma runChecks_snoc (checks : list check) (c : check) (s : WalletSynchronizer.t) :
  runChecks (checks ++ [c]) s
  = WalletSynchronizer.findCancelledTransactions (fst c) (snd c)
      (fst (runChecks checks s)).
Proof. unfold runChecks. now rewrite fold_left_app. Qed.

Lemma missingStreak_snoc (h : string) (checks : list check) (c : check) :
  missingStreak h (checks ++ [c])
  = if WalletSynchronizer.includes (snd c) h then S (missingStreak h checks) else O.
Proof. unfold missingStreak. now rewrite fold_left_app. Qed.

(** The map after any sequence of checks that starts from an empty map. *)
Lemma runChecks_count (h : string) (checks : list check) (s : WalletSynchronizer.t) :
  WalletSynchronizer.cancelledTransactionsFailCount s = [] ->
  Forall (fun c => fst c <> []) checks ->
  let m := WalletSynchronizer.cancelledTransactionsFailCount (fst (runChecks checks s)) in
  WalletSynchronizer.map_get h m = countAfter (missingStreak h checks)
  /\ NoDup (keys m).
Proof.
  intros Hempty. cbv zeta.
  induction checks as [|c checks IH] using rev_ind; intro Hasked.
  - cbn. rewrite Hempty. split; [reflexivity | constructor].
  - apply Forall_app in Hasked. destruct Hasked as [Hpre Hc].
    inversion Hc as [|? ? Hcne _]; subst.
    destruct (IH Hpre) as [Hget Hnd].
    rewrite runChecks_snoc, missingStreak_snoc.
    pose proof (findCancelledTransactions_step (fst c) (snd c)
                  (fst (runChecks checks s)) h Hcne Hnd) as Hstep.
    destruct (WalletSynchronizer.findCancelledTransactions (fst c) (snd c)
                (fst (runChecks checks s))) as [s' toRemove].
    destruct Hstep as (Hget' & _ & Hnd'). cbn [fst].
    split; [|exact Hnd'].
    rewrite Hget', Hget.
    destruct (nextCount_countAfter (missingStreak h checks)) as [Hyes Hno].
    destruct (WalletSynchronizer.includes (snd c) h); assumption.
Qed.

(** Eleven checks in a row that ask about "tx" and get it back as not
    found. *)
Definition txMissing : check := (["tx"], ["tx"])%string.

(** C1, as stated, fails: starting from an empty map, none of the first ten
    checks in a row that report "tx" as not found returns it; the count is
    10 after the tenth, and the eleventh check returns it. *)
Lemma ten_missing_reports_do_not_cancel :
  WalletSynchronizer.cancelledTransactionsFailCount sampleSynchronizer = []
  /\ forallb
       (fun n => match snd (runChecks (repeat txMissing n) sampleSynchronizer) with
                 | [] => true
                 | _ :: _ => false
                 end)
       (seq 0 11) = true
  /\ missingStreak "tx" (repeat txMissing 10) = 10%nat
  /\ WalletSynchronizer.cancelledTransactionsFailCount
       (fst (runChecks (repeat txMissing 10) sampleSynchronizer)) = [("tx"%string, 10)]
  /\ snd (runChecks (repeat txMissing 11) sampleSynchronizer) = ["tx"%string].
Proof. vm_compute. repeat split. Qed.

(** C1, amended. Start from an empty fail-count map and run any sequence of
    checks, each asking about at least one hash.  Let [k] be the number of
    the latest checks in a row in which the daemon reported [h] as not
    found.  The last check returns [h] in its to-remove list if and only if
    [k] is 11, 21, 31, ...: the count reaches 10 with the tenth report in a
    row and the transaction is given up at the next one, the eleventh; that
    same check starts the count again at 1.  A check that does not report
    [h] removes its count ([k = 0]), and a hash without a count starts
    at 1. *)
Theorem findCancelledTransactions_gives_up_on_eleventh :
  forall (h : string) (checks : list check) (s : WalletSynchronizer.t),
    WalletSynchronizer.cancelledTransactionsFailCount s = [] ->
    Forall (fun c => fst c <> []) checks ->
    let k := missingStreak h checks in
    let count :=
      WalletSynchronizer.map_get h
        (WalletSynchronizer.cancelledTransactionsFailCount (fst (runChecks checks s))) in
    (In h (snd (runChecks checks s)) <-> exists q : nat, k = (10 * q + 11)%nat)
    /\ count = countAfter k
    /\ (k = 0%nat -> count = None)
    /\ ((1 <= k <= 10)%nat -> count = Some (Z.of_nat k)).
Proof.
  intros h checks s Hempty Hasked. cbv zeta.
  destruct (runChecks_count h checks s Hempty Hasked) as [Hcount _].
  split; [|split; [exact Hcount|split]].
  - destruct checks as [|c checks _] using rev_ind.
    + cbn. split; [intros [] | intros [q Hq]; lia].
    + apply Forall_app in Hasked. destruct Hasked as [Hpre Hc].
      inversion Hc as [|? ? Hcne _]; subst.
      destruct (runChecks_count h checks s Hempty Hpre) as [Hbefore Hnd].
      rewrite runChecks_snoc, missingStreak_snoc.
      pose proof (findCancelledTransactions_step (fst c) (snd c)
                    (fst (runChecks checks s)) h Hcne Hnd) as Hstep.
      destruct (WalletSynchronizer.findCancelledTransactions (fst c) (snd c)
                  (fst (runChecks checks s))) as [s' toRemove].
      destruct Hstep as (_ & Hrem & _). cbn [snd].
      rewrite Hrem, Hbefore, countAfter_ten.
      destruct (WalletSynchronizer.includes (snd c) h).
      * split.
        -- intros [[q Hq] _]. exists q. lia.
        -- intros [q Hq]. split; [exists q; lia | reflexivity].
      * split.
        -- intros [_ Hfalse]. discriminate Hfalse.
        -- intros [q Hq]. lia.
  - intro Hzero. rewrite Hcount, Hzero. reflexivity.
  - intro Hrange. rewrite Hcount.
    destruct (missingStreak h checks) as [|j]; [lia|].
    cbn [countAfter]. rewrite Nat.mod_small by lia. f_equal. lia.
Qed.

Lemma findCancelledTransactions_eleventh_sample :
  (In "tx"%string (snd (runChecks (repeat txMissing 11) sampleSynchronizer))
   <-> exists q : nat, missingStreak "tx" (repeat txMissing 11) = (10 * q + 11)%nat)
  /\ missingStreak "tx" (repeat txMissing 11) = 11%nat.
Proof.
  split; [|reflexivity].
  apply (findCancelledTransactions_gives_up_on_eleventh "tx"
           (repeat txMissing 11) sampleSynchronizer).
  - reflexivity.
  - repeat constructor; discriminate.
Defined.

(** ** reset while a download is in flight *)

(** The daemon after an [/info] poll: it has 1501 blocks and the network
    height it stores is 1500. *)
Definition pollingDaemon : Daemon.t :=
  Daemon.set_info (Some 1501) (Some 1500) 8 1000 sampleDaemon.

(** A wallet that has processed the chain up to its top block, 1500. *)
Definition syncedTo1500 : WalletSynchronizer.t :=
  WalletSynchronizer.set_synchronizationStatus
    (SynchronizationStatus.storeBlockHash 1500 "b1500" (SynchronizationStatus.new 1499))
    sampleSynchronizer.

(** The daemon's answer to a wallet that is at the top: no blocks, and the
    top block. *)
Definition atTop : Daemon.SyncData :=
  {| Daemon.blocks := Some [];
     Daemon.synced := true;
     Daemon.topBlock := Some {| topHeight := 1500; topHash := "b1500" |} |}.

(** X2. A deferred [reset] or [rewind] is applied, and is the last thing to
    touch the store, when the awaited call throws, when it brings blocks,
    and when it brings neither blocks nor a top block: the store is then
    empty, the status is the new one of height [h - 1], the fetching flag
    is cleared and the promise is resolved. *)
Lemma deferred_mutation_applies_last (m : WalletSynchronizer.mutation) (promise : nat)
    (answer : JS.completion Daemon.syncResult) (s : WalletSynchronizer.t) :
  WalletSynchronizer.finishedFunc s = Some (m, promise) ->
  match answer with
  | JS.Return ([], inl _) => False
  | _ => True
  end ->
  let '(s', ev, _) := WalletSynchronizer.downloadBlocks_finish answer s in
  WalletSynchronizer.storedBlocks s' = []
  /\ WalletSynchronizer.synchronizationStatus s'
     = SynchronizationStatus.new
         (match m with
          | WalletSynchronizer.ResetTo h _ => h
          | WalletSynchronizer.RewindTo h => h
          end - 1)
  /\ WalletSynchronizer.fetchingBlocks s' = false
  /\ WalletSynchronizer.finishedFunc s' = None
  /\ In (WalletSynchronizer.Resolved promise) ev.
Proof.
  intros Hdeferred Hanswer.
  unfold WalletSynchronizer.downloadBlocks_finish.
  destruct answer as [[blocks top]|err].
  - destruct blocks as [|b blocks].
    + destruct top as [top|flag]; [contradiction|].
      unfold WalletSynchronizer.runFinishedFunc. rewrite Hdeferred.
      destruct m; cbn; repeat split; auto.
    + destruct (negb (WalletSynchronizer.startTimestamp s =? 0));
        unfold WalletSynchronizer.runFinishedFunc; cbn; rewrite Hdeferred;
        destruct top; destruct m; cbn; repeat split; auto.
  - unfold WalletSynchronizer.runFinishedFunc. rewrite Hdeferred.
    destruct m; cbn; repeat split; auto.
Qed.

(** C5 at its failing input.  The wallet is at the top block 1500 and a
    download is in flight; [reset(1000, 0)] is called and deferred; the
    daemon answers with no blocks and the top block.  The deferred reset
    runs first, the store is then empty, so the top block is recorded on
    the status that the reset has just installed: when the promise of
    [reset] is resolved the height is 1500 and not 999, and the hash of the
    top block is on record. *)
Theorem reset_overwritten_by_top_block :
  let '(inFlight, started) :=
    WalletSynchronizer.downloadBlocks_start pollingDaemon syncedTo1500 in
  let '(deferred, resetEvents) := WalletSynchronizer.reset 1000 0 1 inFlight in
  let '(_, _, answer) := Daemon.getWalletSyncData (answeredWith atTop) 2000 pollingDaemon in
  let '(final, events, result) := WalletSynchronizer.downloadBlocks_finish answer deferred in
  started = WalletSynchronizer.Awaiting ["b1500"%string] 0 0
  /\ WalletSynchronizer.fetchingBlocks inFlight = true
  /\ resetEvents = []
  /\ WalletSynchronizer.finishedFunc deferred
     = Some (WalletSynchronizer.ResetTo 1000 0, 1%nat)
  /\ events = [WalletSynchronizer.Resolved 1; WalletSynchronizer.HeightChange 1500]
  /\ WalletSynchronizer.storedBlocks final = []
  /\ WalletSynchronizer.startHeight final = 1000
  /\ WalletSynchronizer.getHeight final = 1500
  /\ SynchronizationStatus.getRecentBlockHashes
       (WalletSynchronizer.synchronizationStatus final) = ["b1500"%string]
  /\ WalletSynchronizer.fetchingBlocks final = false
  /\ result = (true, true).
Proof. vm_compute. repeat split. Qed.

(** ** Concrete instances *)

(** An [/info] answer of a daemon at height 500 on a network at 501. *)
Definition infoAt500 : Daemon.Info :=
  {| Daemon.height := Some 500;
     Daemon.networkHeight := Some 501;
     Daemon.incomingConnections := 3;
     Daemon.outgoingConnections := 8;
     Daemon.hashrate := 1200 |}.

Lemma updateDaemonInfo_network_height_sample :
  exists (d' : Daemon.t) (ev : list Daemon.event),
    Daemon.updateDaemonInfo 2 (fun _ => (answeredWith infoAt500, 2000)) 0 sampleDaemon
    = Some (d', ev)
    /\ Daemon.getNetworkBlockCount d' = Some (501 - 1)
    /\ Daemon.getLocalDaemonBlockCount d' = Daemon.height infoAt500
    /\ (forall walletHeight : Z,
           WalletBackend.reachedNetwork walletHeight d' = (walletHeight >=? 501 - 1)).
Proof.
  apply (updateDaemonInfo_network_height_minus_one 2
           (fun _ => (answeredWith infoAt500, 2000)) 0 sampleDaemon infoAt500 501).
  - lia.
  - left. split; [exists 200; reflexivity | left; discriminate].
  - reflexivity.
  - lia.
Defined.

(** The state of the wallet at the top block once a download is in flight
    and [reset(1000, 0)] has been deferred. *)
Definition resetDeferred : WalletSynchronizer.t :=
  fst (WalletSynchronizer.reset 1000 0 1
         (fst (WalletSynchronizer.downloadBlocks_start pollingDaemon syncedTo1500))).

Lemma deferred_mutation_applies_last_sample :
  let '(s', ev, _) :=
    WalletSynchronizer.downloadBlocks_finish (JS.Throw "ETIMEDOUT") resetDeferred in
  WalletSynchronizer.storedBlocks s' = []
  /\ WalletSynchronizer.synchronizationStatus s' = SynchronizationStatus.new (1000 - 1)
  /\ WalletSynchronizer.fetchingBlocks s' = false
  /\ WalletSynchronizer.finishedFunc s' = None
  /\ In (WalletSynchronizer.Resolved 1) ev.
Proof.
  apply (deferred_mutation_applies_last (WalletSynchronizer.ResetTo 1000 0) 1
           (JS.Throw "ETIMEDOUT") resetDeferred); [reflexivity | exact I].
Defined.

(** * Further properties *)

(** ** getLowerBound, getUpperBound and the range of getGlobalIndexes *)

Lemma getLowerBound_multiple (val n : Z) :
  0 <= val -> 0 < n -> Utilities.getLowerBound val n = n * (val / n).
Proof.
  intros Hval Hn. unfold Utilities.getLowerBound. cbv zeta.
  rewrite Z.rem_mod_nonneg by lia.
  pose proof (Z.div_mod val n ltac:(lia)). lia.
Qed.

(** X3. For a height [h >= 0] and a positive obscurity [n], the range that
    [getGlobalIndexes(h)] asks for starts at a multiple of [n] at or below
    [h], ends at the next multiple, which is strictly above [h] (also when
    [h] is itself a multiple), and the two ends are [n] apart. *)
Theorem getGlobalIndexesRange_brackets_height :
  forall (n h : Z),
    0 < n -> 0 <= h ->
    let '(startHeight, endHeight) := WalletBackend.getGlobalIndexesRange n h in
    startHeight = Utilities.getLowerBound h n
    /\ endHeight = Utilities.getUpperBound h n
    /\ startHeight <= h < endHeight
    /\ endHeight - startHeight = n
    /\ startHeight mod n = 0
    /\ endHeight mod n = 0
    /\ (h mod n = 0 -> startHeight = h /\ endHeight = h + n).
Proof.
  intros n h Hn Hh. unfold WalletBackend.getGlobalIndexesRange, Utilities.getUpperBound.
  rewrite (getLowerBound_multiple h n Hh Hn).
  pose proof (Z.div_mod h n ltac:(lia)) as Hdm.
  pose proof (Z.mod_pos_bound h n Hn) as Hb.
  repeat split; try lia.
  - rewrite Z.mul_comm. apply Z.mod_mul. lia.
  - replace (n * (h / n) + n) with ((h / n + 1) * n) by lia. apply Z.mod_mul. lia.
Qed.

Lemma getGlobalIndexesRange_sample :
  let '(startHeight, endHeight) := WalletBackend.getGlobalIndexesRange 10 17 in
  startHeight = Utilities.getLowerBound 17 10
  /\ endHeight = Utilities.getUpperBound 17 10
  /\ startHeight <= 17 < endHeight
  /\ endHeight - startHeight = 10
  /\ startHeight mod 10 = 0
  /\ endHeight mod 10 = 0
  /\ (17 mod 10 = 0 -> startHeight = 17 /\ endHeight = 17 + 10).
Proof.
  apply (getGlobalIndexesRange_brackets_height 10 17); lia.
Defined.

(** ** isHex64 *)





(** ** splitAmountIntoDenominations *)

Definition sumZ (l : list Z) : Z := fold_right Z.add 0 l.





Section SplitAmount.

Variable MAX : Z.



End SplitAmount.



(** The amount of the comment in the source, without a limit, and with a
    limit of 1000. *)
Example splitAmountIntoDenominations_runs :
  Utilities.splitAmountIntoDenominations 1000 8 1234567 false
  = Utilities.Done [7; 60; 500; 4000; 30000; 200000; 1000000]
  /\ Utilities.splitAmountIntoDenominations 1000 8 4007 true
     = Utilities.Done [7; 400; 400; 400; 400; 400; 400; 400; 400; 400; 400]
  /\ Utilities.splitAmountIntoDenominations 5 8 7 true = Utilities.Fraction.
Proof. repeat split. Qed.

(** ** downloadBlocks: what every path leaves behind *)

(** The promises resolved by a list of events, in order. *)
Definition resolutions (ev : list WalletSynchronizer.event) : list nat :=
  flat_map (fun e => match e with
                     | WalletSynchronizer.Resolved p => [p]
                     | _ => []
                     end) ev.

Lemma runFinishedFunc_frame (s : WalletSynchronizer.t) :
  let '(s', ev) := WalletSynchronizer.runFinishedFunc s in
  WalletSynchronizer.finishedFunc s' = None
  /\ WalletSynchronizer.fetchingBlocks s' = WalletSynchronizer.fetchingBlocks s
  /\ WalletSynchronizer.config s' = WalletSynchronizer.config s
  /\ WalletSynchronizer.lastDownloadedBlocks s' = WalletSynchronizer.lastDownloadedBlocks s
  /\ WalletSynchronizer.cancelledTransactionsFailCount s'
     = WalletSynchronizer.cancelledTransactionsFailCount s
  /\ ~ In WalletSynchronizer.DeadNode ev
  /\ resolutions ev = match WalletSynchronizer.finishedFunc s with
                      | Some (_, p) => [p]
                      | None => []
                      end
  /\ (WalletSynchronizer.finishedFunc s = None -> s' = s /\ ev = [])
  /\ (WalletSynchronizer.storedBlocks s = [] -> WalletSynchronizer.storedBlocks s' = []).
Proof.
  unfold WalletSynchronizer.runFinishedFunc.
  destruct (WalletSynchronizer.finishedFunc s) as [[m p]|] eqn:Hf.
  - destruct m; cbn; repeat split; auto; try discriminate;
      intros [H|[]]; discriminate H.
  - repeat split; auto.
Qed.

(** What every path of [downloadBlocks] past its [await] leaves behind. *)
Lemma downloadBlocks_finish_frame :
  forall (answer : JS.completion Daemon.syncResult) (s : WalletSynchronizer.t),
    let '(s', ev, _) := WalletSynchronizer.downloadBlocks_finish answer s in
    WalletSynchronizer.fetchingBlocks s' = false
    /\ WalletSynchronizer.finishedFunc s' = None
    /\ resolutions ev = match WalletSynchronizer.finishedFunc s with
                        | Some (_, p) => [p]
                        | None => []
                        end
    /\ WalletSynchronizer.config s' = WalletSynchronizer.config s
    /\ WalletSynchronizer.lastDownloadedBlocks s'
       = WalletSynchronizer.lastDownloadedBlocks s
    /\ WalletSynchronizer.cancelledTransactionsFailCount s'
       = WalletSynchronizer.cancelledTransactionsFailCount s
    /\ ~ In WalletSynchronizer.DeadNode ev.
Proof.
  intros answer s. unfold WalletSynchronizer.downloadBlocks_finish.
  destruct answer as [[blocks top]|err].
  - destruct blocks as [|first blocks].
    + destruct top as [top|flag].
      * pose proof (runFinishedFunc_frame s) as H1.
        destruct (WalletSynchronizer.runFinishedFunc s) as [s1 ev1].
        destruct H1 as (Hf1 & Hb1 & Hc1 & Hl1 & Hm1 & Hd1 & Hr1 & _).
        set (step := match WalletSynchronizer.storedBlocks s1 with
                     | [] => _ | _ :: _ => _ end).
        assert (Hstep : WalletSynchronizer.finishedFunc (fst step) = None
                        /\ WalletSynchronizer.config (fst step) = WalletSynchronizer.config s1
                        /\ WalletSynchronizer.lastDownloadedBlocks (fst step)
                           = WalletSynchronizer.lastDownloadedBlocks s1
                        /\ WalletSynchronizer.cancelledTransactionsFailCount (fst step)
                           = WalletSynchronizer.cancelledTransactionsFailCount s1
                        /\ ~ In WalletSynchronizer.DeadNode (snd step)
                        /\ resolutions (snd step) = []).
        { subst step. destruct (WalletSynchronizer.storedBlocks s1); cbn;
            repeat split; auto; intros [H|[]]; discriminate H. }
        destruct step as [s2 ev2]. cbn [fst snd] in Hstep.
        destruct Hstep as (Hf2 & Hc2 & Hl2 & Hm2 & Hd2 & Hr2).
        pose proof (runFinishedFunc_frame s2) as H3.
        destruct (WalletSynchronizer.runFinishedFunc s2) as [s3 ev3].
        destruct H3 as (Hf3 & Hb3 & Hc3 & Hl3 & Hm3 & Hd3 & Hr3 & _).
        rewrite Hf2 in Hr3. cbn.
        repeat split; try congruence.
        -- unfold resolutions in *. rewrite !flat_map_app.
           fold (resolutions ev1) (resolutions ev2) (resolutions ev3).
           unfold resolutions. rewrite Hr1, Hr2, Hr3, !app_nil_r. reflexivity.
        -- intro Hin. apply in_app_or in Hin. destruct Hin as [Hin|Hin]; [tauto|].
           apply in_app_or in Hin. tauto.
      * pose proof (runFinishedFunc_frame s) as H1.
        destruct (WalletSynchronizer.runFinishedFunc s) as [s1 ev1].
        destruct H1 as (Hf1 & Hb1 & Hc1 & Hl1 & Hm1 & Hd1 & Hr1 & _).
        cbn. repeat split; assumption.
    + set (step := if negb (WalletSynchronizer.startTimestamp s =? 0) then _ else _).
      assert (Hstep : WalletSynchronizer.finishedFunc (fst step)
                      = WalletSynchronizer.finishedFunc s
                      /\ WalletSynchronizer.config (fst step) = WalletSynchronizer.config s
                      /\ WalletSynchronizer.lastDownloadedBlocks (fst step)
                         = WalletSynchronizer.lastDownloadedBlocks s
                      /\ WalletSynchronizer.cancelledTransactionsFailCount (fst step)
                         = WalletSynchronizer.cancelledTransactionsFailCount s
                      /\ ~ In WalletSynchronizer.DeadNode (snd step)
                      /\ resolutions (snd step) = []).
      { subst step. destruct (negb (WalletSynchronizer.startTimestamp s =? 0)); cbn;
          repeat split; auto; intros [H|[]]; discriminate H. }
      destruct step as [s1 ev1]. cbn [fst snd] in Hstep.
      destruct Hstep as (Hf1 & Hc1 & Hl1 & Hm1 & Hd1 & Hr1).
      pose proof (runFinishedFunc_frame
                    (WalletSynchronizer.set_storedBlocks
                       (WalletSynchronizer.storedBlocks s1 ++ first :: blocks) s1)) as H3.
      destruct (WalletSynchronizer.runFinishedFunc _) as [s3 ev3].
      destruct H3 as (Hf3 & Hb3 & Hc3 & Hl3 & Hm3 & Hd3 & Hr3 & _).
      cbn in Hr3, Hc3, Hl3, Hm3. rewrite Hf1 in Hr3.
      destruct top; cbn; (repeat split; try congruence;
        [ unfold resolutions in *; rewrite flat_map_app, Hr1; exact Hr3
        | intro Hin; apply in_app_or in Hin; tauto ]).
  - pose proof (runFinishedFunc_frame s) as H1.
    destruct (WalletSynchronizer.runFinishedFunc s) as [s1 ev1].
    destruct H1 as (Hf1 & Hb1 & Hc1 & Hl1 & Hm1 & Hd1 & Hr1 & _).
    cbn. repeat split; assumption.
Qed.

(** X6. However the awaited [getWalletSyncData] settles, [downloadBlocks]
    ends with the fetching flag cleared and no closure left behind; a
    deferred [reset] or [rewind] has its promise resolved exactly once, and
    no promise is resolved when none was deferred.  The configuration, the
    time of the last download and the fail counters are not touched, and no
    [deadnode] is emitted. *)
Theorem downloadBlocks_finish_releases :
  forall (answer : JS.completion Daemon.syncResult) (s : WalletSynchronizer.t),
    let '(s', ev, _) := WalletSynchronizer.downloadBlocks_finish answer s in
    WalletSynchronizer.fetchingBlocks s' = false
    /\ WalletSynchronizer.finishedFunc s' = None
    /\ resolutions ev = match WalletSynchronizer.finishedFunc s with
                        | Some (_, p) => [p]
                        | None => []
                        end
    /\ WalletSynchronizer.config s' = WalletSynchronizer.config s
    /\ WalletSynchronizer.lastDownloadedBlocks s'
       = WalletSynchronizer.lastDownloadedBlocks s
    /\ WalletSynchronizer.cancelledTransactionsFailCount s'
       = WalletSynchronizer.cancelledTransactionsFailCount s
    /\ ~ In WalletSynchronizer.DeadNode ev.
Proof. exact downloadBlocks_finish_frame. Qed.

(** ** downloadBlocks and fetchBlocks: the store only grows at its end *)




Lemma downloadBlocks_frame (x : Daemon.exchange Daemon.SyncData) (now : Z)
    (d : Daemon.t) (s : WalletSynchronizer.t) :
  let '(_, s', _, ev, (successOrBusy, _)) :=
    WalletSynchronizer.downloadBlocks x now d s in
  WalletSynchronizer.config s' = WalletSynchronizer.config s
  /\ WalletSynchronizer.lastDownloadedBlocks s'
     = WalletSynchronizer.lastDownloadedBlocks s
  /\ ~ In WalletSynchronizer.DeadNode ev
  /\ (WalletSynchronizer.storedBlocks s = [] -> successOrBusy = false ->
      WalletSynchronizer.storedBlocks s' = []).
Proof.
  unfold WalletSynchronizer.downloadBlocks, WalletSynchronizer.downloadBlocks_start.
  destruct (WalletSynchronizer.fetchingBlocks s).
  { repeat split; auto; discriminate. }
  destruct (JS.lt _ _).
  { cbn. repeat split; auto; discriminate. }
  destruct (Daemon.getWalletSyncData x now d) as [[d1 dev] answer].
  pose proof (downloadBlocks_finish_frame answer
                (WalletSynchronizer.set_fetchingBlocks true s)) as Hframe.
  assert (Hfailed :
    WalletSynchronizer.storedBlocks s = [] ->
    snd (WalletSynchronizer.downloadBlocks_finish answer
           (WalletSynchronizer.set_fetchingBlocks true s)) = (false, false)
    \/ snd (WalletSynchronizer.downloadBlocks_finish answer
              (WalletSynchronizer.set_fetchingBlocks true s)) = (false, true) ->
    WalletSynchronizer.storedBlocks
      (fst (fst (WalletSynchronizer.downloadBlocks_finish answer
                   (WalletSynchronizer.set_fetchingBlocks true s)))) = []).
  { intros Hempty Hres.
    unfold WalletSynchronizer.downloadBlocks_finish in *.
    pose proof (runFinishedFunc_frame (WalletSynchronizer.set_fetchingBlocks true s))
      as H1.
    destruct answer as [[blocks top]|err].
    - destruct blocks as [|first blocks].
      + destruct top as [top|flag].
        * exfalso.
          repeat match type of Hres with
                 | context [let '(_, _) := ?e in _] => destruct e
                 end.
          cbn in Hres. destruct Hres as [Hres|Hres]; discriminate Hres.
        * destruct (WalletSynchronizer.runFinishedFunc _) as [s1 ev1].
          cbn. apply H1. exact Hempty.
      + exfalso.
        repeat match type of Hres with
               | context [let '(_, _) := ?e in _] => destruct e
               end.
        destruct top; cbn in Hres; destruct Hres as [Hres|Hres]; discriminate Hres.
    - destruct (WalletSynchronizer.runFinishedFunc _) as [s1 ev1].
      cbn. apply H1. exact Hempty. }
  destruct (WalletSynchronizer.downloadBlocks_finish answer _)
    as [[s2 ev] [successOrBusy shouldSleep]].
  destruct Hframe as (_ & _ & _ & Hc & Hl & _ & Hd).
  cbn in Hc, Hl, Hfailed. repeat split; auto.
  intros Hempty ->. apply Hfailed; [exact Hempty|].
  destruct shouldSleep; auto.
Qed.

(** X8. [fetchBlocks] hands out the front of the store as it stands when the
    call returns, at most [blockCount] blocks.  With blocks in store it
    asks the daemon nothing and changes nothing.  [deadnode] is emitted
    only by a call that returns no block, and only when more than
    [maxLastFetchedBlockInterval] seconds have passed since the time
    recorded in [lastDownloadedBlocks], which that call leaves as it was;
    otherwise the recorded time is either kept or set to the clock read
    after the download. *)
Theorem fetchBlocks_front_of_store :
  forall (blockCount : Z) (x : Daemon.exchange Daemon.SyncData) (now nowAfter : Z)
         (d : Daemon.t) (s : WalletSynchronizer.t),
    let '(d', s', dev, ev, (blocks, shouldSleep)) :=
      WalletSynchronizer.fetchBlocks blockCount x now nowAfter d s in
    blocks = firstn (Z.to_nat blockCount) (WalletSynchronizer.storedBlocks s')
    /\ (List.length blocks <= Z.to_nat blockCount)%nat
    /\ (WalletSynchronizer.storedBlocks s <> [] ->
        d' = d /\ s' = s /\ dev = [] /\ ev = [] /\ shouldSleep = false)
    /\ (In WalletSynchronizer.DeadNode ev ->
        blocks = []
        /\ 1000 * maxLastFetchedBlockInterval (WalletSynchronizer.config s)
           < nowAfter - WalletSynchronizer.lastDownloadedBlocks s
        /\ WalletSynchronizer.lastDownloadedBlocks s'
           = WalletSynchronizer.lastDownloadedBlocks s)
    /\ (WalletSynchronizer.lastDownloadedBlocks s' = nowAfter
        \/ WalletSynchronizer.lastDownloadedBlocks s'
           = WalletSynchronizer.lastDownloadedBlocks s).
Proof.
  intros blockCount x now nowAfter d s. unfold WalletSynchronizer.fetchBlocks.
  destruct (WalletSynchronizer.storedBlocks s) as [|b bs] eqn:Hstore.
  - pose proof (downloadBlocks_frame x now d s) as Hframe.
    destruct (WalletSynchronizer.downloadBlocks x now d s)
      as [[[[d1 s1] dev] ev] [successOrBusy shouldSleepTmp]].
    destruct Hframe as (Hc & Hl & Hd & Hfailed).
    unfold WalletSynchronizer.noteDownload.
    destruct successOrBusy; cbn [negb].
    + cbn. split; [reflexivity|]. split; [apply firstn_le_length|].
      split; [intro H; now elim H|]. split; [|now left].
      intro Hin. apply in_app_or in Hin. destruct Hin as [Hin|[]]. tauto.
    + rewrite (Hfailed Hstore eq_refl), firstn_nil. rewrite Hc, Hl.
      split; [reflexivity|]. split; [cbn; lia|].
      split; [intro H; now elim H|]. split; [|now right].
      intro Hin. apply in_app_or in Hin. destruct Hin as [Hin|Hin]; [tauto|].
      destruct (_ >? _) eqn:Hlate; [|destruct Hin].
      rewrite Z.gtb_ltb in Hlate. apply Z.ltb_lt in Hlate. auto.
  - rewrite <- Hstore. split; [reflexivity|]. split; [apply firstn_le_length|].
    split; [auto|]. split; [intros []|now right].
Qed.

(** ** The block hashes sent to the daemon *)




(** ** A failed status request and the fail counters *)

Definition notAmong (hashes : list string) (entry : string * Z) : bool :=
  negb (WalletSynchronizer.includes hashes (fst entry)).

Lemma filter_notAmong_cons (h : string) (hashes : list string)
    (m : WalletSynchronizer.FailCount) :
  filter (notAmong hashes) (WalletSynchronizer.map_delete h m)
  = filter (notAmong (h :: hashes)) m.
Proof.
  unfold WalletSynchronizer.map_delete.
  induction m as [|[k v] m IH]; [reflexivity|].
  unfold notAmong in *. cbn [filter fst WalletSynchronizer.includes existsb].
  destruct (String.eqb k h); cbn [negb orb filter fst].
  - exact IH.
  - fold (WalletSynchronizer.includes hashes k).
    destruct (WalletSynchronizer.includes hashes k); cbn [negb]; rewrite IH; reflexivity.
Qed.

Lemma checkEntries_all_found (es : WalletSynchronizer.FailCount) (toRemove : list string)
    (m : WalletSynchronizer.FailCount) :
  fold_left (WalletSynchronizer.checkEntry []) es (toRemove, m)
  = (toRemove, filter (notAmong (map fst es)) m).
Proof.
  revert m. induction es as [|[h c] es IH]; intro m.
  - cbn. f_equal. induction m as [|e m IHm]; [reflexivity|].
    cbn. now rewrite <- IHm.
  - cbn [fold_left WalletSynchronizer.checkEntry WalletSynchronizer.includes existsb
         map fst].
    rewrite IH, filter_notAmong_cons. reflexivity.
Qed.

Lemma filter_notAmong_own (m : WalletSynchronizer.FailCount) (hashes : list string) :
  incl (map fst m) hashes -> filter (notAmong hashes) m = [].
Proof.
  induction m as [|[k v] m IH]; intro Hincl; [reflexivity|].
  cbn [filter]. unfold notAmong at 1, WalletSynchronizer.includes. cbn [fst].
  assert (Hk : existsb (String.eqb k) hashes = true).
  { apply existsb_exists. exists k. split; [apply Hincl; now left|apply String.eqb_refl]. }
  rewrite Hk. cbn [negb]. apply IH. intros h Hh. apply Hincl. now right.
Qed.

(** X10. When the [/transaction/status] request fails, the daemon client
    reports no cancelled transaction, and [findCancelledTransactions] takes
    this for "every transaction is known": it returns nothing to remove and
    forgets every fail counter, so a transport failure interrupts the run
    of misses of every pending transaction. *)
Theorem failed_status_request_clears_counters :
  forall (x : Daemon.exchange Daemon.TransactionStatus) (d : Daemon.t)
         (transactionHashes : list string) (s : WalletSynchronizer.t) (err : string),
    transactionHashes <> [] ->
    snd (Daemon.makePostRequest x d) = JS.Throw err ->
    let '(_, _, cancelled) := Daemon.getCancelledTransactions x d in
    cancelled = []
    /\ WalletSynchronizer.findCancelledTransactions transactionHashes cancelled s
       = (WalletSynchronizer.set_failCount [] s, []).
Proof.
  intros x d asked s err Hasked Hfail.
  unfold Daemon.getCancelledTransactions.
  destruct (Daemon.makePostRequest x d) as [[d1 ev] [[data status]|e]];
    [discriminate Hfail|].
  split; [reflexivity|].
  unfold WalletSynchronizer.findCancelledTransactions.
  destruct asked as [|h asked]; [now elim Hasked|].
  rewrite checkEntries_all_found, filter_notAmong_own by apply incl_refl.
  reflexivity.
Qed.

Lemma failed_status_request_sample :
  let '(_, _, cancelled) :=
    Daemon.getCancelledTransactions (timedOut Daemon.TransactionStatus) sampleDaemon in
  cancelled = []
  /\ WalletSynchronizer.findCancelledTransactions ["tx"%string] cancelled
       (WalletSynchronizer.set_failCount [("tx"%string, 10)] sampleSynchronizer)
     = (WalletSynchronizer.set_failCount []
          (WalletSynchronizer.set_failCount [("tx"%string, 10)] sampleSynchronizer), []).
Proof.
  apply (failed_status_request_clears_counters (timedOut Daemon.TransactionStatus)
           sampleDaemon ["tx"%string]
           (WalletSynchronizer.set_failCount [("tx"%string, 10)] sampleSynchronizer)
           "ETIMEDOUT"%string).
  - discriminate.
  - reflexivity.
Defined.

(** ** Global output indexes *)

Definition isNone {A : Type} (o : option A) : bool :=
  match o with None => true | Some _ => false end.

(** An input that [processBlocks] must complete: the wallet can spend, and
    the daemon sent no index with the output. *)
Definition needsIndex (isViewWallet : bool) (entry : string * Types.TransactionInput)
    : bool :=
  negb isViewWallet && isNone (Types.globalOutputIndex (snd entry)).

(** Such an input whose transaction is not in the daemon's answer. *)
Definition indexMissing (isViewWallet : bool) (fetched : JSMap.t (list Z))
    (entry : string * Types.TransactionInput) : bool :=
  needsIndex isViewWallet entry
  && isNone (JSMap.get (Types.parentTransactionHash (snd entry)) fetched).

Definition fillOne (isViewWallet : bool) (fetched : JSMap.t (list Z))
    (entry : string * Types.TransactionInput) : string * Types.TransactionInput :=
  if needsIndex isViewWallet entry then
    (fst entry,
     WalletBackend.set_globalOutputIndex
       (match JSMap.get (Types.parentTransactionHash (snd entry)) fetched with
        | Some ourIndexes =>
            WalletBackend.elementAt ourIndexes (Types.transactionIndex (snd entry))
        | None => None
        end) (snd entry))
  else entry.

Definition faultyDaemon : string :=
  "Could not get global indexes from daemon! Possibly faulty/malicious daemon.".

Lemma fillGlobalIndexes_closed (isViewWallet : bool) (fetched : JSMap.t (list Z))
    (blockInputs : list (string * Types.TransactionInput)) :
  forall (globalIndexes : JSMap.t (list Z)) (asked : nat),
    globalIndexes = [] \/ globalIndexes = fetched ->
    WalletBackend.fillGlobalIndexes isViewWallet fetched globalIndexes asked blockInputs
    = if existsb (indexMissing isViewWallet fetched) blockInputs
      then JS.Throw faultyDaemon
      else JS.Return
             ((asked + if JSMap.isEmpty globalIndexes
                          && existsb (needsIndex isViewWallet) blockInputs
                       then 1 else 0)%nat,
              map (fillOne isViewWallet fetched) blockInputs).
Proof.
  induction blockInputs as [|[owner input] rest IH]; intros g asked Hg.
  - cbn. rewrite andb_false_r, Nat.add_0_r. reflexivity.
  - cbn [WalletBackend.fillGlobalIndexes existsb map].
    assert (Hn : needsIndex isViewWallet (owner, input)
                 = negb isViewWallet && isNone (Types.globalOutputIndex input))
      by reflexivity.
    unfold indexMissing at 1, fillOne at 1. cbn [fst snd]. rewrite !Hn.
    fold (isNone (Types.globalOutputIndex input)).
    destruct (negb isViewWallet && isNone (Types.globalOutputIndex input)) eqn:Hneeds;
      cbn [andb orb].
    + assert (Hmap : (if JSMap.isEmpty g then (fetched, S asked) else (g, asked))
                     = (fetched, if JSMap.isEmpty g then S asked else asked)).
      { destruct Hg as [-> | ->]; [reflexivity|]. destruct fetched; reflexivity. }
      rewrite Hmap.
      destruct (JSMap.get (Types.parentTransactionHash input) fetched)
        as [ourIndexes|] eqn:Hget; cbn [isNone orb].
      * rewrite (IH fetched _ (or_intror eq_refl)).
        destruct (existsb (indexMissing isViewWallet fetched) rest); [reflexivity|].
        assert (Hfull : JSMap.isEmpty fetched = false)
          by (destruct fetched; [discriminate Hget|reflexivity]).
        rewrite Hfull. cbn [andb JS.bind fst snd]. rewrite andb_true_r.
        destruct (JSMap.isEmpty g); do 2 f_equal; lia.
      * reflexivity.
    + rewrite (IH g asked Hg).
      destruct (existsb (indexMissing isViewWallet fetched) rest); reflexivity.
Qed.

(** X11. The loop of [processBlocks] that completes the inputs of a block.
    It throws exactly when some input needs an index (the wallet is not a
    view wallet and the daemon sent none) and the answer to [/indexes] has
    no entry for its transaction.  Otherwise it asks the daemon at most
    once, and only if some input needs an index; each such input gets the
    entry of its transaction at its own position, every other input is left
    as it is, and owners and order are kept.  A view wallet asks nothing
    and changes nothing.  A failed [/indexes] request is not told apart
    from an answer without the transaction: [getGlobalIndexesForRange]
    turns it into the empty map, and the loop throws the faulty daemon
    error. *)
Theorem fillGlobalIndexes_one_request :
  forall (isViewWallet : bool) (fetched : JSMap.t (list Z))
         (blockInputs : list (string * Types.TransactionInput)),
    let result := WalletBackend.fillGlobalIndexes isViewWallet fetched [] 0 blockInputs in
    (result = JS.Throw faultyDaemon
     <-> exists entry, In entry blockInputs
                       /\ indexMissing isViewWallet fetched entry = true)
    /\ (forall asked inputs, result = JS.Return (asked, inputs) ->
        (asked <= 1)%nat
        /\ (asked = 1%nat <-> exists entry, In entry blockInputs
                                            /\ needsIndex isViewWallet entry = true)
        /\ inputs = map (fillOne isViewWallet fetched) blockInputs
        /\ map fst inputs = map fst blockInputs)
    /\ (forall m, result = JS.Throw m -> m = faultyDaemon)
    /\ (isViewWallet = true -> result = JS.Return (0%nat, blockInputs))
    /\ (forall (x : Daemon.exchange (list Daemon.TransactionIndexes)) (d : Daemon.t)
               (err : string),
          snd (Daemon.makeGetRequest x d) = JS.Throw err ->
          existsb (needsIndex isViewWallet) blockInputs = true ->
          WalletBackend.fillGlobalIndexes isViewWallet
            (snd (Daemon.getGlobalIndexesForRange x d)) [] 0 blockInputs
          = JS.Throw faultyDaemon).
Proof.
  intros isViewWallet fetched blockInputs result. subst result.
  rewrite (fillGlobalIndexes_closed isViewWallet fetched blockInputs [] 0
             (or_introl eq_refl)).
  cbn [JSMap.isEmpty andb Nat.add].
  split; [|split; [|split; [|split]]].
  - destruct (existsb (indexMissing isViewWallet fetched) blockInputs) eqn:Hmiss.
    + split; [intros _; now apply existsb_exists|reflexivity].
    + split; [discriminate|]. intro H. apply existsb_exists in H. congruence.
  - intros asked inputs Hres.
    destruct (existsb (indexMissing isViewWallet fetched) blockInputs);
      [discriminate Hres|].
    injection Hres as <- <-.
    destruct (existsb (needsIndex isViewWallet) blockInputs) eqn:Hneeds.
    + split; [lia|]. split; [split; [intros _; now apply existsb_exists|reflexivity]|].
      split; [reflexivity|]. rewrite map_map. apply map_ext.
      intro e. unfold fillOne. destruct (needsIndex isViewWallet e); reflexivity.
    + split; [lia|]. split.
      * split; [discriminate|]. intro H. apply existsb_exists in H. congruence.
      * split; [reflexivity|]. rewrite map_map. apply map_ext.
        intro e. unfold fillOne. destruct (needsIndex isViewWallet e); reflexivity.
  - intros m Hres.
    destruct (existsb (indexMissing isViewWallet fetched) blockInputs); congruence.
  - intros ->.
    assert (Hno : forall f, existsb (indexMissing true f) blockInputs = false
                            /\ existsb (needsIndex true) blockInputs = false
                            /\ map (fillOne true f) blockInputs = blockInputs).
    { intro f. induction blockInputs as [|e l IH]; [repeat split|].
      destruct IH as (H1 & H2 & H3). cbn. rewrite H1, H2, H3. repeat split. }
    destruct (Hno fetched) as (-> & -> & ->). reflexivity.
  - intros x d err Hfail Hneeds.
    unfold Daemon.getGlobalIndexesForRange.
    destruct (Daemon.makeGetRequest x d) as [[d1 ev] [[data status]|e]];
      [discriminate Hfail|]. cbn [snd].
    rewrite (fillGlobalIndexes_closed isViewWallet [] blockInputs [] 0
               (or_introl eq_refl)).
    assert (Hsame : existsb (indexMissing isViewWallet []) blockInputs
                    = existsb (needsIndex isViewWallet) blockInputs).
    { clear. induction blockInputs as [|e l IH]; [reflexivity|].
      cbn [existsb]. rewrite IH. unfold indexMissing. cbn. now rewrite andb_true_r. }
    rewrite Hsame, Hneeds. reflexivity.
Qed.

(** ** Transfers: what a transaction gives to and takes from each subwallet *)

Section Transfers.

(** The amount a [Map] of transfers holds for a key, 0 when it has none. *)
Definition valueAt (k : string) (m : list (string * Z)) : Z :=
  match JSMap.get k m with Some v => v | None => 0 end.

(** The sum of the amounts that a list of [(key, amount)] pairs has for
    one key. *)
Definition totalFor (k : string) (ps : list (string * Z)) : Z :=
  sumZ (map snd (filter (fun p => String.eqb (fst p) k) ps)).

Definition applyTransfer (m : list (string * Z)) (p : string * Z) : list (string * Z) :=
  WalletSynchronizer.addTransfer (fst p) (snd p) m.

Lemma JSMap_get_set_eq {V : Type} (k : string) (v : V) (m : JSMap.t V) :
  JSMap.get k (JSMap.set k v m) = Some v.
Proof.
  induction m as [|[k' v'] m IH]; cbn.
  - now rewrite String.eqb_refl.
  - destruct (String.eqb k' k) eqn:E; cbn; [now rewrite String.eqb_refl|].
    rewrite E. exact IH.
Qed.

Lemma JSMap_get_set_ne {V : Type} (k k' : string) (v : V) (m : JSMap.t V) :
  k' <> k -> JSMap.get k (JSMap.set k' v m) = JSMap.get k m.
Proof.
  intro Hne. apply String.eqb_neq in Hne.
  induction m as [|[k0 v0] m IH]; cbn.
  - now rewrite Hne.
  - destruct (String.eqb k0 k') eqn:E; cbn.
    + apply String.eqb_eq in E. subst k0. now rewrite Hne.
    + destruct (String.eqb k0 k); [reflexivity|exact IH].
Qed.

Lemma JSMap_keys_set {V : Type} (k k' : string) (v : V) (m : JSMap.t V) :
  In k (map fst (JSMap.set k' v m)) <-> k = k' \/ In k (map fst m).
Proof.
  induction m as [|[k0 v0] m IH]; cbn.
  - intuition.
  - destruct (String.eqb k0 k') eqn:E; cbn.
    + apply String.eqb_eq in E. subst k0. intuition.
    + rewrite IH. intuition.
Qed.

Lemma JSMap_NoDup_set {V : Type} (k : string) (v : V) (m : JSMap.t V) :
  NoDup (map fst m) -> NoDup (map fst (JSMap.set k v m)).
Proof.
  induction m as [|[k0 v0] m IH]; cbn; intro Hnd.
  - constructor; [intros []|constructor].
  - inversion Hnd as [|? ? Hnotin Hrest]; subst.
    destruct (String.eqb k0 k) eqn:E; cbn.
    + apply String.eqb_eq in E. subst k0. now constructor.
    + constructor; [|now apply IH].
      rewrite JSMap_keys_set. intros [->|Hin]; [|contradiction].
      now rewrite String.eqb_refl in E.
Qed.

Lemma valueAt_applyTransfer (k : string) (m : list (string * Z)) (p : string * Z) :
  valueAt k (applyTransfer m p)
  = valueAt k m + (if String.eqb (fst p) k then snd p else 0).
Proof.
  unfold valueAt, applyTransfer, WalletSynchronizer.addTransfer.
  destruct (String.eqb (fst p) k) eqn:E.
  - apply String.eqb_eq in E. subst k. rewrite JSMap_get_set_eq. lia.
  - apply String.eqb_neq in E. rewrite JSMap_get_set_ne by exact E. lia.
Qed.

Lemma applyTransfers_value (k : string) (ps : list (string * Z)) :
  forall m, valueAt k (fold_left applyTransfer ps m) = valueAt k m + totalFor k ps.
Proof.
  unfold totalFor.
  induction ps as [|p ps IH]; intro m; cbn [fold_left filter map sumZ fold_right].
  - lia.
  - rewrite IH, valueAt_applyTransfer.
    destruct (String.eqb (fst p) k); cbn [map sumZ fold_right];
      fold (sumZ (map snd (filter (fun p => String.eqb (fst p) k) ps))); lia.
Qed.

Lemma applyTransfers_keys (k : string) (ps : list (string * Z)) :
  forall m, In k (map fst (fold_left applyTransfer ps m))
            <-> In k (map fst m) \/ In k (map fst ps).
Proof.
  induction ps as [|p ps IH]; intro m; cbn [fold_left map].
  - cbn. intuition.
  - rewrite IH. unfold applyTransfer at 1, WalletSynchronizer.addTransfer.
    rewrite JSMap_keys_set. cbn [In]. intuition.
Qed.

Lemma applyTransfers_NoDup (ps : list (string * Z)) :
  forall m, NoDup (map fst m) -> NoDup (map fst (fold_left applyTransfer ps m)).
Proof.
  induction ps as [|p ps IH]; intros m Hnd; cbn [fold_left]; [exact Hnd|].
  apply IH. unfold applyTransfer, WalletSynchronizer.addTransfer.
  now apply JSMap_NoDup_set.
Qed.

Lemma applyTransfers_isEmpty (ps : list (string * Z)) (m : list (string * Z)) :
  JSMap.isEmpty (fold_left applyTransfer ps m) = true <-> m = [] /\ ps = [].
Proof.
  split.
  - intro Hempty.
    destruct (fold_left applyTransfer ps m) as [|e l] eqn:Hfold; [|discriminate Hempty].
    assert (Hnone : forall k, ~ (In k (map fst m) \/ In k (map fst ps))).
    { intros k Hk. apply (applyTransfers_keys k ps m) in Hk.
      rewrite Hfold in Hk. exact Hk. }
    split.
    + destruct m as [|[k v] m]; [reflexivity|]. elim (Hnone k). left. now left.
    + destruct ps as [|[k v] ps]; [reflexivity|]. elim (Hnone k). right. now left.
  - intros [-> ->]. reflexivity.
Qed.

Variable getKeyImageOwner : string -> option string.

(** The key inputs of a transaction that spend one of our key images, each
    with the public spend key of its owner. *)
Definition ownedInputs (keyInputs : list Types.KeyInput)
    : list (string * Types.KeyInput) :=
  flat_map (fun input => match getKeyImageOwner (Types.keyImage input) with
                         | Some publicSpendKey => [(publicSpendKey, input)]
                         | None => []
                         end) keyInputs.

Definition credit (entry : string * Types.TransactionInput) : string * Z :=
  (fst entry, Types.inputValue (snd entry)).

Definition debit (entry : string * Types.KeyInput) : string * Z :=
  (fst entry, - Types.inputAmount (snd entry)).

Definition spentKeyImage (entry : string * Types.KeyInput) : string * string :=
  (fst entry, Types.keyImage (snd entry)).

Lemma receive_all (inputs : list (string * Types.TransactionInput)) :
  forall m, fold_left WalletSynchronizer.receive inputs m
            = fold_left applyTransfer (map credit inputs) m.
Proof.
  induction inputs as [|e l IH]; intro m; [reflexivity|].
  cbn [fold_left map]. rewrite IH. reflexivity.
Qed.

Lemma spend_all (keyInputs : list Types.KeyInput) :
  forall m spentKeyImages,
    fold_left (WalletSynchronizer.spend getKeyImageOwner) keyInputs (m, spentKeyImages)
    = (fold_left applyTransfer (map debit (ownedInputs keyInputs)) m,
       spentKeyImages ++ map spentKeyImage (ownedInputs keyInputs)).
Proof.
  induction keyInputs as [|i l IH]; intros m sp.
  - cbn. now rewrite app_nil_r.
  - cbn [fold_left WalletSynchronizer.spend ownedInputs flat_map].
    fold (ownedInputs l).
    destruct (getKeyImageOwner (Types.keyImage i)) as [owner|].
    + rewrite IH. cbn [app map fold_left]. rewrite <- app_assoc. reflexivity.
    + rewrite IH. reflexivity.
Qed.

Lemma sumInputs_sum (l : list Types.KeyInput) :
  WalletSynchronizer.sumInputs l = sumZ (map Types.inputAmount l).
Proof.
  unfold WalletSynchronizer.sumInputs.
  assert (H : forall acc, fold_left (fun acc i => acc + Types.inputAmount i) l acc
                          = acc + sumZ (map Types.inputAmount l)).
  { induction l as [|i l IH]; intro acc; cbn [fold_left map sumZ fold_right]; [lia|].
    rewrite IH. fold (sumZ (map Types.inputAmount l)). lia. }
  rewrite H. lia.
Qed.

Lemma sumOutputs_sum (l : list Types.KeyOutput) :
  WalletSynchronizer.sumOutputs l = sumZ (map Types.amount l).
Proof.
  unfold WalletSynchronizer.sumOutputs.
  assert (H : forall acc, fold_left (fun acc o => acc + Types.amount o) l acc
                          = acc + sumZ (map Types.amount l)).
  { induction l as [|o l IH]; intro acc; cbn [fold_left map sumZ fold_right]; [lia|].
    rewrite IH. fold (sumZ (map Types.amount l)). lia. }
  rewrite H. lia.
Qed.

End Transfers.

Lemma processTransaction_closed (getKeyImageOwner : string -> option string)
    (block : Block) (ourInputs : list (string * Types.TransactionInput))
    (rawTX : Types.RawTransaction) :
  let received :=
    WalletSynchronizer.relevantInputs (Types.hash (Types.base rawTX)) ourInputs in
  let spent := ownedInputs getKeyImageOwner (Types.keyInputs rawTX) in
  let transfers :=
    fold_left applyTransfer (map debit spent)
      (fold_left applyTransfer (map credit received) []) in
  WalletSynchronizer.processTransaction getKeyImageOwner block ourInputs rawTX
  = match received, spent with
    | [], [] => (None, [])
    | _, _ =>
        (Some {| Types.transfers := transfers;
                 Types.txHash := Types.hash (Types.base rawTX);
                 Types.fee := sumZ (map Types.inputAmount (Types.keyInputs rawTX))
                              - sumZ (map Types.amount
                                        (Types.keyOutputs (Types.base rawTX)));
                 Types.txBlockHeight := blockHeight block;
                 Types.timestamp := blockTimestamp block;
                 Types.txPaymentID := Types.paymentID rawTX;
                 Types.txUnlockTime := Types.unlockTime (Types.base rawTX);
                 Types.isCoinbaseTransaction := false |},
         map spentKeyImage spent)
    end.
Proof.
  intros received spent transfers.
  unfold WalletSynchronizer.processTransaction.
  fold received. rewrite receive_all, spend_all. fold spent. fold transfers.
  rewrite sumInputs_sum, sumOutputs_sum. cbn [app].
  destruct (JSMap.isEmpty transfers) eqn:Hempty; cbn [negb].
  - apply applyTransfers_isEmpty in Hempty. destruct Hempty as [Hreceived Hspent].
    assert (Hnone : JSMap.isEmpty (fold_left applyTransfer (map credit received) [])
                    = true) by (rewrite Hreceived; reflexivity).
    apply applyTransfers_isEmpty in Hnone. destruct Hnone as [_ Hnone].
    apply map_eq_nil in Hnone, Hspent. rewrite Hnone, Hspent. reflexivity.
  - destruct received as [|e l] eqn:Hreceived; [|reflexivity].
    destruct spent as [|i l] eqn:Hspent; [|reflexivity].
    discriminate Hempty.
Qed.

(** X12. [processTransaction] reports a transaction exactly when it pays one
    of our inputs or spends one of our key images.  The transfers of the
    transaction reported have one entry for each subwallet that received or
    spent, and for every subwallet the entry is what it received in this
    transaction minus what it spent in it; the entry is kept when the two
    cancel.  The key images to mark as spent are ours among the key inputs,
    in their order, each with its owner; the fee is the key inputs minus
    the key outputs of the whole transaction. *)
Theorem processTransaction_transfers :
  forall (getKeyImageOwner : string -> option string) (block : Block)
         (ourInputs : list (string * Types.TransactionInput))
         (rawTX : Types.RawTransaction),
    let received :=
      WalletSynchronizer.relevantInputs (Types.hash (Types.base rawTX)) ourInputs in
    let spent := ownedInputs getKeyImageOwner (Types.keyInputs rawTX) in
    let result :=
      WalletSynchronizer.processTransaction getKeyImageOwner block ourInputs rawTX in
    (fst result = None <-> received = [] /\ spent = [])
    /\ snd result = map spentKeyImage spent
    /\ (forall tx : Types.Transaction, fst result = Some tx ->
        NoDup (map fst (Types.transfers tx))
        /\ (forall k, In k (map fst (Types.transfers tx))
                      <-> In k (map fst received) \/ In k (map fst spent))
        /\ (forall k, valueAt k (Types.transfers tx)
                      = totalFor k (map credit received)
                        + totalFor k (map debit spent))
        /\ Types.fee tx
           = sumZ (map Types.inputAmount (Types.keyInputs rawTX))
             - sumZ (map Types.amount (Types.keyOutputs (Types.base rawTX)))
        /\ Types.txHash tx = Types.hash (Types.base rawTX)
        /\ Types.txBlockHeight tx = blockHeight block
        /\ Types.isCoinbaseTransaction tx = false).
Proof.
  intros owner block ourInputs rawTX received spent result.
  subst result. rewrite processTransaction_closed. fold received spent.
  split; [|split].
  - destruct received; destruct spent; cbn; split; intro H;
      try discriminate; try reflexivity; auto; destruct H; discriminate.
  - destruct received; destruct spent; reflexivity.
  - intros tx Htx.
    assert (Hshape :
      Types.transfers tx
      = fold_left applyTransfer (map debit spent)
          (fold_left applyTransfer (map credit received) [])
      /\ Types.fee tx
         = sumZ (map Types.inputAmount (Types.keyInputs rawTX))
           - sumZ (map Types.amount (Types.keyOutputs (Types.base rawTX)))
      /\ Types.txHash tx = Types.hash (Types.base rawTX)
      /\ Types.txBlockHeight tx = blockHeight block
      /\ Types.isCoinbaseTransaction tx = false).
    { destruct received; destruct spent; cbn in Htx; try discriminate Htx;
        injection Htx as <-; repeat split. }
    destruct Hshape as (Htransfers & Hfee & Hhash & Hheight & Hcoinbase).
    rewrite Htransfers.
    split; [|split; [|split; [|repeat split; assumption]]].
    + apply applyTransfers_NoDup, applyTransfers_NoDup. constructor.
    + intro k. rewrite !applyTransfers_keys, !map_map. cbn. intuition.
    + intro k. rewrite !applyTransfers_value. unfold valueAt. cbn. lia.
Qed.

(** ** processBlock *)

Section ProcessBlock.

Variable getKeyImageOwner : string -> option string.
Variable block : Block.
Variable ourInputs : list (string * Types.TransactionInput).

(** What one transaction of the block adds to the transactions to store. *)
Definition reported (rawTX : Types.RawTransaction) : list Types.Transaction :=
  match fst (WalletSynchronizer.processTransaction getKeyImageOwner block ourInputs rawTX)
  with
  | Some tx => [tx]
  | None => []
  end.

Definition spentIn (rawTX : Types.RawTransaction) : list (string * string) :=
  map spentKeyImage (ownedInputs getKeyImageOwner (Types.keyInputs rawTX)).

Lemma processTransaction_keyImages (rawTX : Types.RawTransaction) :
  snd (WalletSynchronizer.processTransaction getKeyImageOwner block ourInputs rawTX)
  = spentIn rawTX.
Proof.
  rewrite processTransaction_closed. unfold spentIn.
  destruct (WalletSynchronizer.relevantInputs _ _);
    destruct (ownedInputs _ _); reflexivity.
Qed.

Lemma reported_shape (rawTX : Types.RawTransaction) :
  (reported rawTX = []
   /\ WalletSynchronizer.relevantInputs (Types.hash (Types.base rawTX)) ourInputs = []
   /\ ownedInputs getKeyImageOwner (Types.keyInputs rawTX) = [])
  \/ (exists tx, reported rawTX = [tx]
                 /\ Types.txHash tx = Types.hash (Types.base rawTX)
                 /\ Types.txBlockHeight tx = blockHeight block
                 /\ Types.timestamp tx = blockTimestamp block
                 /\ Types.isCoinbaseTransaction tx = false).
Proof.
  unfold reported. rewrite processTransaction_closed.
  destruct (WalletSynchronizer.relevantInputs _ _);
    destruct (ownedInputs _ _); cbn [fst];
    first [ left; repeat split; reflexivity
          | right; eexists; repeat split ].
Qed.

Lemma addProcessed_all (transactions : list Types.RawTransaction) :
  forall (transactionsToAdd : list Types.Transaction)
         (keyImagesToMarkSpent : list (string * string)),
    fold_left (WalletSynchronizer.addProcessed getKeyImageOwner block ourInputs)
      transactions (transactionsToAdd, keyImagesToMarkSpent)
    = (transactionsToAdd ++ flat_map reported transactions,
       keyImagesToMarkSpent ++ flat_map spentIn transactions).
Proof.
  induction transactions as [|rawTX l IH]; intros acc images.
  - cbn. now rewrite !app_nil_r.
  - cbn [fold_left flat_map WalletSynchronizer.addProcessed].
    pose proof (processTransaction_keyImages rawTX) as Himages.
    pose proof (reported_shape rawTX) as Hshape.
    unfold reported in *.
    destruct (WalletSynchronizer.processTransaction getKeyImageOwner block ourInputs
                rawTX) as [[tx|] keyImages]; cbn [fst snd] in *.
    + rewrite IH, Himages, <- !app_assoc. reflexivity.
    + rewrite IH. destruct Hshape as [(_ & _ & Hnone)|(tx & Htx & _)];
        [|discriminate Htx].
      unfold spentIn at 2. rewrite Hnone. reflexivity.
Qed.

End ProcessBlock.

(** X13. [processBlock] throws exactly when coinbase transactions are
    scanned, the block carries none, and there is an input to look at.
    Otherwise the inputs to add are the inputs it was given; the key images
    to mark as spent are all our key images among the key inputs of the
    block, in block order; every transaction of the block that pays one of
    the inputs or spends one of our key images is among the transactions to
    add; each transaction to add carries the height and the timestamp of
    the block; there is at most one more of them than the block has
    transactions, and none is a coinbase transaction when coinbase
    transactions are not scanned. *)
Theorem processBlock_report :
  forall (getKeyImageOwner : string -> option string) (cfg : Config) (block : Block)
         (body : Types.BlockBody) (ourInputs : list (string * Types.TransactionInput)),
    let result :=
      WalletSynchronizer.processBlock getKeyImageOwner cfg block body ourInputs in
    ((exists m, result = JS.Throw m)
     <-> scanCoinbaseTransactions cfg = true
         /\ Types.coinbaseTransaction body = None /\ ourInputs <> [])
    /\ (forall data : Types.TransactionData, result = JS.Return data ->
        Types.inputsToAdd data = ourInputs
        /\ Types.keyImagesToMarkSpent data
           = flat_map (spentIn getKeyImageOwner) (Types.transactions body)
        /\ (forall rawTX, In rawTX (Types.transactions body) ->
              WalletSynchronizer.relevantInputs (Types.hash (Types.base rawTX)) ourInputs
                <> []
              \/ ownedInputs getKeyImageOwner (Types.keyInputs rawTX) <> [] ->
              exists tx, In tx (Types.transactionsToAdd data)
                         /\ Types.txHash tx = Types.hash (Types.base rawTX)
                         /\ Types.isCoinbaseTransaction tx = false)
        /\ Forall (fun tx => Types.txBlockHeight tx = blockHeight block
                             /\ Types.timestamp tx = blockTimestamp block)
             (Types.transactionsToAdd data)
        /\ (List.length (Types.transactionsToAdd data)
            <= S (List.length (Types.transactions body)))%nat
        /\ (scanCoinbaseTransactions cfg = false ->
            Forall (fun tx => Types.isCoinbaseTransaction tx = false)
              (Types.transactionsToAdd data))).
Proof.
  intros owner cfg block body ourInputs result. subst result.
  unfold WalletSynchronizer.processBlock.
  set (fromCoinbase := if scanCoinbaseTransactions cfg then _ else _).
  assert (Hcoinbase :
    (exists m, fromCoinbase = JS.Throw m
               /\ scanCoinbaseTransactions cfg = true
               /\ Types.coinbaseTransaction body = None /\ ourInputs <> [])
    \/ (exists first, fromCoinbase = JS.Return first
                      /\ ~ (scanCoinbaseTransactions cfg = true
                            /\ Types.coinbaseTransaction body = None /\ ourInputs <> [])
                      /\ (List.length first <= 1)%nat
                      /\ Forall (fun tx => Types.txBlockHeight tx = blockHeight block
                                           /\ Types.timestamp tx = blockTimestamp block)
                           first
                      /\ (scanCoinbaseTransactions cfg = false -> first = []))).
  { subst fromCoinbase. unfold WalletSynchronizer.processCoinbaseTransaction.
    destruct (scanCoinbaseTransactions cfg).
    - destruct (Types.coinbaseTransaction body) as [rawTX|].
      + right. destruct (negb (JSMap.isEmpty _)); cbn [JS.bind]; eexists;
          (split; [reflexivity|]); (split; [intros (_ & H & _); discriminate H|]);
          (split; [cbn; lia|]); (split; [|discriminate]); repeat constructor.
      + destruct ourInputs as [|e l].
        * right. exists []. cbn. repeat split; auto. intros (_ & _ & H). now apply H.
        * left. eexists. cbn. repeat split. discriminate.
    - right. exists []. repeat split; auto. intros (H & _). discriminate H. }
  destruct Hcoinbase as [(m & -> & Hscan & Hnone & Hinputs)
                        |(first & -> & Hnot & Hlen & Hblock & Hoff)]; cbn [JS.bind].
  - split; [split; [auto|intros _; now exists m]|]. intros data H. discriminate H.
  - rewrite addProcessed_all. cbn [app].
    split; [split; [intros [m H]; discriminate H|intro H; now elim Hnot]|].
    intros data Hdata. injection Hdata as <-.
    cbn [Types.inputsToAdd Types.keyImagesToMarkSpent Types.transactionsToAdd].
    split; [reflexivity|]. split; [reflexivity|].
    assert (Hall : forall l,
      Forall (fun tx => Types.txBlockHeight tx = blockHeight block
                        /\ Types.timestamp tx = blockTimestamp block
                        /\ Types.isCoinbaseTransaction tx = false)
        (flat_map (reported owner block ourInputs) l)
      /\ (List.length (flat_map (reported owner block ourInputs) l)
          <= List.length l)%nat).
    { induction l as [|rawTX l [IH1 IH2]]; [split; [constructor|cbn; lia]|].
      cbn [flat_map]. rewrite length_app. cbn [List.length].
      destruct (reported_shape owner block ourInputs rawTX)
        as [(-> & _)|(tx & -> & _ & Hh & Ht & Hc)]; cbn [app List.length].
      - split; [exact IH1|lia].
      - split; [constructor; auto|lia]. }
    destruct (Hall (Types.transactions body)) as [Hforall Hlength].
    split; [|split; [|split]].
    + intros rawTX Hin Hours. 
      destruct (reported_shape owner block ourInputs rawTX)
        as [(_ & Hr & Hs)|(tx & Htx & Hhash & _ & _ & Hc)];
        [destruct Hours as [H|H]; now elim H|].
      exists tx. split; [|split; assumption].
      apply in_or_app. right. apply in_flat_map. exists rawTX.
      split; [exact Hin|]. rewrite Htx. now left.
    + apply Forall_app. split; [exact Hblock|].
      eapply Forall_impl; [|exact Hforall]. cbn. intros tx (H1 & H2 & _). now split.
    + rewrite length_app. lia.
    + intro Hscan. rewrite (Hoff Hscan). cbn [app].
      eapply Forall_impl; [|exact Hforall]. cbn. intros tx (_ & _ & H). exact H.
Qed.

(** ** Scanning the outputs of a block *)

Section ScanOutputs.

Variable generateKeyDerivation : string -> string -> string.
Variable underivePublicKey : string -> Z -> string -> string.
Variable getTxInputKeyImage : string -> string -> Z -> string * string.
Variable privateViewKey : string.
Variable spendKeys : list string.





End ScanOutputs.

Section ScanBlock.

Variable generateKeyDerivation : string -> string -> string.
Variable underivePublicKey : string -> Z -> string -> string.
Variable getTxInputKeyImage : string -> string -> Z -> string * string.
Variable privateViewKey : string.
Variable spendKeys : list string.



End ScanBlock.


(** ** From the scan to the transactions of a block *)



Definition payingBlock : Block :=
  {| blockHeight := 12; blockHash := "b12"; blockTimestamp := 1600000000 |}.


Definition ourOutput : string * Types.TransactionInput :=
  ("ours"%string,
   {| Types.inputKeyImage := "image";
      Types.inputValue := 700;
      Types.inputBlockHeight := 12;
      Types.inputTransactionPublicKey := "R";
      Types.transactionIndex := 1;
      Types.globalOutputIndex := Some 41;
      Types.inputKey := "ours";
      Types.spendHeight := 0;
      Types.inputUnlockTime := 0;
      Types.parentTransactionHash := "t1";
      Types.privateEphemeral := "ephemeral" |}).



(** ** getRandomOutputsByAmount: the decoys come back sorted *)

Definition byIndex (a b : Z * string) : Prop := fst a <= fst b.

Lemma insertByIndex_perm (x : Z * string) (l : list (Z * string)) :
  Permutation (Daemon.insertByIndex x l) (x :: l).
Proof.
  induction l as [|y l IH]; cbn; [reflexivity|].
  destruct (fst x <=? fst y); [reflexivity|].
  rewrite IH. apply perm_swap.
Qed.

Lemma insertByIndex_sorted (x : Z * string) (l : list (Z * string)) :
  Sorted byIndex l -> Sorted byIndex (Daemon.insertByIndex x l).
Proof.
  induction l as [|y l IH]; intro Hsorted; cbn.
  - repeat constructor.
  - destruct (fst x <=? fst y) eqn:Hle.
    + apply Z.leb_le in Hle. constructor; [exact Hsorted|]. now constructor.
    + apply Z.leb_gt in Hle. inversion Hsorted as [|? ? Hrest Hhd]; subst.
      constructor; [now apply IH|].
      destruct l as [|z l]; cbn.
      * constructor. unfold byIndex. lia.
      * inversion Hhd; subst.
        destruct (fst x <=? fst z); constructor; unfold byIndex in *; lia.
Qed.

Lemma sortByIndex_spec (l : list (Z * string)) :
  Sorted byIndex (Daemon.sortByIndex l) /\ Permutation (Daemon.sortByIndex l) l.
Proof.
  unfold Daemon.sortByIndex. induction l as [|x l [IHs IHp]]; cbn.
  - split; constructor.
  - split; [now apply insertByIndex_sorted|].
    rewrite insertByIndex_perm. now constructor.
Qed.

(** X16. [getRandomOutputsByAmount] returns one entry for each amount of
    the daemon's answer, in the daemon's order; the outputs of an entry are
    the outputs the daemon sent for that amount, none added or lost,
    arranged by ascending global index, wherever the daemon had put them.
    A failed request gives the empty list and is not reported. *)
Theorem getRandomOutputsByAmount_sorted :
  forall (x : Daemon.exchange (list Daemon.RandomOutputs)) (d : Daemon.t),
    let result := snd (Daemon.getRandomOutputsByAmount x d) in
    (forall err, snd (Daemon.makePostRequest x d) = JS.Throw err -> result = [])
    /\ (forall data status,
          snd (Daemon.makePostRequest x d) = JS.Return (data, status) ->
          map fst result = map Daemon.forAmount data
          /\ Forall2 (fun sent entry =>
                        Sorted byIndex (snd entry)
                        /\ Permutation (snd entry)
                             (map (fun outs => (Daemon.outIndex outs, Daemon.outKey outs))
                                  (Daemon.outputs sent)))
               data result).
Proof.
  intros x d result. subst result. unfold Daemon.getRandomOutputsByAmount.
  destruct (Daemon.makePostRequest x d) as [[d1 ev] [[data status]|e]]; cbn [snd].
  - split; [discriminate|]. intros data' status' H. injection H as <- <-.
    split; [rewrite map_map; reflexivity|].
    induction data as [|sent data IH]; cbn [map]; constructor; [|exact IH].
    cbn [snd]. apply sortByIndex_spec.
  - split; [reflexivity|]. discriminate.
Qed.

(** ** updateDaemonInfo: a daemon that stands still *)

Lemma makeRequest_no_deadnode {A : Type} (x : Daemon.exchange A) (d : Daemon.t) :
  ~ In Daemon.DeadNode (snd (fst (Daemon.makeRequest x d))).
Proof.
  pose proof (makeRequest_edge x d) as Hedge.
  destruct (Daemon.makeRequest x d) as [[d1 ev] r]. destruct Hedge as [_ ->].
  cbn [fst snd]. unfold edgeEvents.
  destruct (Daemon.connected d); destruct r; cbn; intuition discriminate.
Qed.

(** X17. The stored network height is one less than the reported one, and
    the next answer is compared with the stored one.  So when the daemon
    reports again the network height [n > 0] that the previous poll
    stored, [updateDaemonInfo] takes it for a change: it emits
    [heightchange], sets both height timestamps to the clock, and does not
    emit [deadnode], however long the heights have been the same; the
    stored height is [n - 1] again, so the same holds for the poll after
    it. *)
Theorem updateDaemonInfo_same_height_counts_as_change :
  forall (fuel : nat) (env : nat -> Daemon.exchange Daemon.Info * Z) (i : nat)
         (d : Daemon.t) (info : Daemon.Info) (n : Z),
    answered (fst (env i)) d info ->
    Daemon.height info <> None \/ Daemon.sslDetermined d = true ->
    Daemon.networkHeight info = Some n ->
    0 < n ->
    Daemon.getNetworkBlockCount d = Some (n - 1) ->
    exists (d' : Daemon.t) (ev : list Daemon.event),
      Daemon.updateDaemonInfo (S fuel) env i d = Some (d', ev)
      /\ In (Daemon.HeightChange (Daemon.height info) (Some n)) ev
      /\ ~ In Daemon.DeadNode ev
      /\ Daemon.lastUpdatedNetworkHeight d' = snd (env i)
      /\ Daemon.lastUpdatedLocalHeight d' = snd (env i)
      /\ Daemon.getNetworkBlockCount d' = Some (n - 1).
Proof.
  intros fuel env i d info n [code Hans] Hused Hnet Hpos Hstored.
  assert (Hfirst : Daemon.isUndefined (Daemon.height info)
                   && negb (Daemon.sslDetermined d) = false).
  { destruct Hused as [Hdef|Hdet].
    - destruct (Daemon.height info); [reflexivity|contradiction].
    - rewrite Hdet. apply andb_false_r. }
  cbn [Daemon.updateDaemonInfo].
  destruct (env i) as [x now]. cbn [fst snd] in *.
  unfold Daemon.makeGetRequest in *.
  pose proof (makeRequest_frame x d) as (_ & _ & _ & Hframe).
  pose proof (makeRequest_no_deadnode x d) as Hquiet.
  rewrite (makeRequest_eta x d), Hans, Hfirst.
  unfold Daemon.getNetworkBlockCount in Hstored.
  rewrite Hframe, Hstored, Hnet.
  assert (Hchanged : JS.strict_ne (Some (n - 1)) (Some n) = true).
  { unfold JS.strict_ne. apply negb_true_iff. apply Z.eqb_neq. lia. }
  rewrite Hchanged, orb_true_r. cbv beta iota zeta.
  eexists. eexists. split; [reflexivity|].
  split; [apply in_or_app; right; now left|].
  split.
  - intro Hin. apply in_app_or in Hin. destruct Hin as [Hin|[Hin|[]]];
      [now apply Hquiet|discriminate Hin].
  - cbn. unfold Daemon.storedNetworkHeight, JS.lt.
    replace (0 <? n) with true by (symmetry; apply Z.ltb_lt; exact Hpos).
    split; [reflexivity|]. split; [reflexivity|]. reflexivity.
Qed.

(** The daemon after a poll that stored [infoAt500]. *)
Definition polledAt500 : Daemon.t :=
  Daemon.set_info (Some 500) (Some 500) 11 1200 sampleDaemon.

Lemma updateDaemonInfo_same_height_sample :
  exists (d' : Daemon.t) (ev : list Daemon.event),
    Daemon.updateDaemonInfo 1 (fun _ => (answeredWith infoAt500, 900000)) 0 polledAt500
    = Some (d', ev)
    /\ In (Daemon.HeightChange (Daemon.height infoAt500) (Some 501)) ev
    /\ ~ In Daemon.DeadNode ev
    /\ Daemon.lastUpdatedNetworkHeight d' = 900000
    /\ Daemon.lastUpdatedLocalHeight d' = 900000
    /\ Daemon.getNetworkBlockCount d' = Some (501 - 1).
Proof.
  apply (updateDaemonInfo_same_height_counts_as_change 0
           (fun _ => (answeredWith infoAt500, 900000)) 0 polledAt500 infoAt500 501).
  - exists 200. reflexivity.
  - left. discriminate.
  - reflexivity.
  - lia.
  - reflexivity.
Defined.

(** ** The main loop: what a failing block leaves behind *)

Section MainLoop.

Variable sizeof : list Block -> Z.
Variable getKeyImageOwner : string -> option string.
Variable isViewWallet : bool.
Variable cfg : Config.
Variable bodyOf : Block -> Types.BlockBody.
Variable processFunction : Block -> list (string * Types.TransactionInput).
Variable getGlobalIndexes : Block -> JSMap.t (list Z).
Variable d : Daemon.t.

Let txDataOf :=
  WalletBackendSync.txDataOf getKeyImageOwner isViewWallet cfg bodyOf processFunction
    getGlobalIndexes.
Let processLoop :=
  WalletBackendSync.processLoop sizeof getKeyImageOwner isViewWallet cfg bodyOf
    processFunction getGlobalIndexes d.


(** The heights for which the data of a block was stored, and the heights
    announced, in order. *)
Definition storedHeights (calls : list WalletBackendSync.call) : list Z :=
  flat_map (fun c => match c with
                     | WalletBackendSync.StoreTxData _ h => [h]
                     | _ => []
                     end) calls.





End MainLoop.

(** Three blocks in store; the scan of block 13 finds an output without a
    global index and the daemon has no indexes to give. *)
Definition block12 : Block := payingBlock.
Definition block13 : Block :=
  {| blockHeight := 13; blockHash := "b13"; blockTimestamp := 1600000030 |}.
Definition block14 : Block :=
  {| blockHeight := 14; blockHash := "b14"; blockTimestamp := 1600000060 |}.

Definition emptyBody : Types.BlockBody :=
  {| Types.coinbaseTransaction := None; Types.transactions := [] |}.

Definition unindexedOutput : string * Types.TransactionInput :=
  (fst ourOutput, WalletBackend.set_globalOutputIndex None (snd ourOutput)).

Definition scanAt13 (block : Block) : list (string * Types.TransactionInput) :=
  if blockHeight block =? 13 then [unindexedOutput] else [].

Definition threeStored : WalletSynchronizer.t :=
  WalletSynchronizer.set_storedBlocks [block12; block13; block14] sampleSynchronizer.


(** The same run, computed: block 12 is stored, dropped and announced;
    block 13 stays in front and [sync] returns [false]. *)
Example sync_stops_at_block13 :
  let '(s', calls, result) :=
    WalletBackendSync.sync (fun _ => 0) (fun _ => None) false sampleConfig
      (fun _ => emptyBody) scanAt13 (fun _ => []) sampleDaemon
      true ([block12; block13], false) threeStored in
  WalletSynchronizer.storedBlocks s' = [block13; block14]
  /\ storedHeights calls = [12]
  /\ result = false.
Proof. repeat split. Qed.

(** ** The events of the wallet: deadnode, sync and desync *)

(** No [deadnode] follows a [deadnode] unless a [heightchange] comes in
    between; [seen] tells whether a [deadnode] is the last of the two that
    was emitted before the list. *)
Fixpoint spaced (seen : bool) (out : list WalletBackendSync.emitted) : bool :=
  match out with
  | [] => true
  | WalletBackendSync.EmitDeadNode :: rest => negb seen && spaced true rest
  | WalletBackendSync.EmitHeightChange _ _ _ :: rest => spaced false rest
  | _ :: rest => spaced seen rest
  end.

Fixpoint seenAfter (seen : bool) (out : list WalletBackendSync.emitted) : bool :=
  match out with
  | [] => seen
  | WalletBackendSync.EmitDeadNode :: rest => seenAfter true rest
  | WalletBackendSync.EmitHeightChange _ _ _ :: rest => seenAfter false rest
  | _ :: rest => seenAfter seen rest
  end.

Lemma spaced_app (out1 out2 : list WalletBackendSync.emitted) :
  forall seen,
    spaced seen (out1 ++ out2) = spaced seen out1 && spaced (seenAfter seen out1) out2.
Proof.
  induction out1 as [|e out1 IH]; intro seen; [reflexivity|].
  destruct e; cbn [app spaced seenAfter]; rewrite ?IH; try reflexivity.
  now rewrite andb_assoc.
Qed.

Lemma seenAfter_app (out1 out2 : list WalletBackendSync.emitted) :
  forall seen, seenAfter seen (out1 ++ out2) = seenAfter (seenAfter seen out1) out2.
Proof.
  induction out1 as [|e out1 IH]; intro seen; [reflexivity|].
  destruct e; cbn [app seenAfter]; now rewrite ?IH.
Qed.

Lemma handle_spaced (a : WalletBackendSync.arrival) (flag : bool) :
  let '(flag', out) := WalletBackendSync.handle a flag in
  spaced flag out = true /\ flag' = seenAfter flag out.
Proof.
  destruct a as [walletHeight e|d e]; destruct e; destruct flag; cbn; auto.
Qed.

Definition isHeightChange (a : WalletBackendSync.arrival) : bool :=
  match a with
  | WalletBackendSync.FromDaemon _ (Daemon.HeightChange _ _) => true
  | WalletBackendSync.FromSynchronizer _ (WalletSynchronizer.HeightChange _) => true
  | _ => false
  end.

Definition isEmitHeightChange (e : WalletBackendSync.emitted) : bool :=
  match e with
  | WalletBackendSync.EmitHeightChange _ _ _ => true
  | _ => false
  end.

(** X19. Whatever events reach the wallet from the daemon and from the
    synchronizer, and in whatever order, the wallet never emits [deadnode]
    twice without a [heightchange] in between (nor once, if it had emitted
    one before and no [heightchange] since); every [heightchange] that
    arrives is passed on; and the flag [haveEmittedDeadNode] tells at the
    end whether the last of the two that the wallet emitted was a
    [deadnode]. *)
Theorem deadnode_emitted_once_per_heightchange :
  forall (arrivals : list WalletBackendSync.arrival) (haveEmittedDeadNode : bool),
    let '(flag, out) := WalletBackendSync.handleAll arrivals haveEmittedDeadNode in
    spaced haveEmittedDeadNode out = true
    /\ flag = seenAfter haveEmittedDeadNode out
    /\ List.length (filter isEmitHeightChange out)
       = List.length (filter isHeightChange arrivals).
Proof.
  induction arrivals as [|a rest IH]; intro flag0; [cbn; auto|].
  cbn [WalletBackendSync.handleAll].
  pose proof (handle_spaced a flag0) as Hone.
  assert (Hcount : List.length (filter isEmitHeightChange
                                  (snd (WalletBackendSync.handle a flag0)))
                   = if isHeightChange a then 1%nat else 0%nat).
  { destruct a as [walletHeight e|d e]; destruct e; destruct flag0; reflexivity. }
  destruct (WalletBackendSync.handle a flag0) as [flag1 out1].
  destruct Hone as [Hspaced1 Hflag1]. cbn [snd] in Hcount.
  specialize (IH flag1).
  destruct (WalletBackendSync.handleAll rest flag1) as [flag2 out2].
  destruct IH as (Hspaced2 & Hflag2 & Hcount2).
  rewrite spaced_app, seenAfter_app, <- Hflag1, Hspaced1, Hspaced2, <- Hflag2.
  split; [reflexivity|]. split; [reflexivity|].
  rewrite filter_app, length_app, Hcount, Hcount2. cbn [filter].
  destruct (isHeightChange a); reflexivity.
Qed.

(** [sync] and [desync] take turns; [synced] is the flag before the list. *)
Fixpoint alternates (synced : bool) (ev : list WalletBackend.event) : bool :=
  match ev with
  | [] => true
  | WalletBackend.Sync _ _ :: rest => negb synced && alternates true rest
  | WalletBackend.Desync _ _ :: rest => synced && alternates false rest
  end.

Fixpoint syncedAfter (synced : bool) (ev : list WalletBackend.event) : bool :=
  match ev with
  | [] => synced
  | WalletBackend.Sync _ _ :: rest => syncedAfter true rest
  | WalletBackend.Desync _ _ :: rest => syncedAfter false rest
  end.

(** An event carries the heights that made it: a [sync] a wallet height
    that has reached the network height of the daemon, which is defined. *)
Definition justified (e : WalletBackend.event) : Prop :=
  match e with
  | WalletBackend.Sync walletHeight (Some networkHeight) => networkHeight <= walletHeight
  | WalletBackend.Sync _ None => False
  | WalletBackend.Desync walletHeight (Some networkHeight) => walletHeight < networkHeight
  | WalletBackend.Desync _ None => True
  end.

Lemma alternates_app (ev1 ev2 : list WalletBackend.event) :
  forall synced,
    alternates synced (ev1 ++ ev2)
    = alternates synced ev1 && alternates (syncedAfter synced ev1) ev2.
Proof.
  induction ev1 as [|e ev1 IH]; intro synced; [reflexivity|].
  destruct e; cbn [app alternates syncedAfter]; rewrite IH, <- ?andb_assoc;
    reflexivity.
Qed.

Lemma syncedAfter_app (ev1 ev2 : list WalletBackend.event) :
  forall synced,
    syncedAfter synced (ev1 ++ ev2) = syncedAfter (syncedAfter synced ev1) ev2.
Proof.
  induction ev1 as [|e ev1 IH]; intro synced; [reflexivity|].
  destruct e; cbn [app syncedAfter]; now rewrite IH.
Qed.

Lemma updateSynced_step (walletHeight : Z) (d : Daemon.t) (synced : bool) :
  let '(synced', ev) := WalletBackend.updateSynced walletHeight d synced in
  alternates synced ev = true
  /\ synced' = syncedAfter synced ev
  /\ synced' = WalletBackend.reachedNetwork walletHeight d
  /\ Forall justified ev.
Proof.
  unfold WalletBackend.updateSynced, WalletBackend.reachedNetwork, JS.ge.
  destruct (Daemon.getNetworkBlockCount d) as [n|].
  - destruct (walletHeight >=? n) eqn:H; rewrite Z.geb_leb in H;
      [apply Z.leb_le in H|apply Z.leb_gt in H];
      destruct synced; cbn; repeat split; auto; constructor; auto; cbn; lia.
  - destruct synced; cbn; repeat split; auto. constructor; cbn; auto.
Qed.

(** X20. Over any run of ticks of the daemon-info metronome the wallet
    emits [sync] and [desync] in turns, beginning with [sync] when it
    starts unsynced; a [sync] is emitted only with a wallet height that has
    reached a defined network height of the daemon, a [desync] only with
    one that has not; and after the last tick the wallet is synced exactly
    when its height then reaches that network height. *)
Theorem sync_and_desync_alternate :
  forall (ticks : list (Z * Daemon.t)) (synced : bool),
    let '(synced', ev) := WalletBackendSync.updateSyncedAll ticks synced in
    alternates synced ev = true
    /\ synced' = syncedAfter synced ev
    /\ Forall justified ev
    /\ synced' = match rev ticks with
                 | [] => synced
                 | (walletHeight, d) :: _ => WalletBackend.reachedNetwork walletHeight d
                 end.
Proof.
  induction ticks as [|[walletHeight d] rest IH]; intro synced.
  - cbn. auto.
  - cbn [WalletBackendSync.updateSyncedAll].
    pose proof (updateSynced_step walletHeight d synced) as Hstep.
    destruct (WalletBackend.updateSynced walletHeight d synced) as [synced1 ev1].
    destruct Hstep as (Halt1 & Hafter1 & Hreached & Hjust1).
    specialize (IH synced1).
    destruct (WalletBackendSync.updateSyncedAll rest synced1) as [synced2 ev2].
    destruct IH as (Halt2 & Hafter2 & Hjust2 & Hlast).
    rewrite alternates_app, Halt1, <- Hafter1, Halt2.
    split; [reflexivity|]. split; [|split; [now apply Forall_app|]].
    + rewrite syncedAfter_app, <- Hafter1. exact Hafter2.
    + rewrite Hlast. cbn [rev].
      destruct (rev rest) as [|[w d'] l]; [exact Hreached|reflexivity].
Qed.

(** ** makeRequest: the protocol is settled once *)

(** The daemon after a sequence of requests. *)
Fixpoint afterRequests (xs : list anyExchange) (d : Daemon.t) : Daemon.t :=
  match xs with
  | [] => d
  | existT _ A x :: xs' => afterRequests xs' (fst (fst (Daemon.makeRequest x d)))
  end.

(** How a request ends when only its first exchange is tried. *)
Definition firstOutcome (x : anyExchange) : JS.completion unit :=
  match Daemon.first (projT2 x) with
  | Daemon.Responded _ _ => JS.Return tt
  | Daemon.Failed err => JS.Throw err
  end.

Lemma makeRequest_settled {A : Type} (x : Daemon.exchange A) (d : Daemon.t) :
  Daemon.sslDetermined d = true ->
  let '(d', _, r) := Daemon.makeRequest x d in
  Daemon.sslDetermined d' = true
  /\ Daemon.ssl d' = Daemon.ssl d
  /\ outcome r = firstOutcome (existT _ A x).
Proof.
  intro Hsettled.
  unfold Daemon.makeRequest, Daemon.emitConnect, Daemon.emitDisconnect, firstOutcome.
  cbn [projT1 projT2]. rewrite Hsettled. cbn [negb].
  destruct (Daemon.first x); destruct (Daemon.connected d); cbn; auto.
Qed.

Lemma makeRequest_unsettled {A : Type} (x : Daemon.exchange A) (d : Daemon.t) :
  Daemon.sslDetermined d = false ->
  let '(d', _, r) := Daemon.makeRequest x d in
  match Daemon.first x, Daemon.plainHttp x with
  | Daemon.Responded body statusCode, _ =>
      r = JS.Return (body, statusCode)
      /\ Daemon.sslDetermined d' = true /\ Daemon.ssl d' = true
  | Daemon.Failed _, Daemon.Responded body statusCode =>
      r = JS.Return (body, statusCode)
      /\ Daemon.sslDetermined d' = true /\ Daemon.ssl d' = false
  | Daemon.Failed _, Daemon.Failed err =>
      r = JS.Throw err
      /\ Daemon.sslDetermined d' = false /\ Daemon.ssl d' = Daemon.ssl d
  end.
Proof.
  intro Hopen.
  unfold Daemon.makeRequest, Daemon.emitConnect, Daemon.emitDisconnect.
  rewrite Hopen. cbn [negb].
  destruct (Daemon.first x); [|destruct (Daemon.plainHttp x)];
    cbn; destruct (Daemon.connected d); cbn; rewrite ?Hopen; auto.
Qed.

(** X21. The protocol is chosen by the first request that gets an answer
    and never changes afterwards.  While it is open, a request tries https
    and then plain http, and an answer settles it on the one that
    answered; when both fail it stays open.  Once it is settled, no
    sequence of requests changes [ssl] or [sslDetermined], and each request
    ends as its single exchange ends: a failure is not retried over the
    other protocol. *)
Theorem protocol_settled_once :
  forall (xs : list anyExchange) (d : Daemon.t),
    (Daemon.sslDetermined d = true ->
     Daemon.sslDetermined (afterRequests xs d) = true
     /\ Daemon.ssl (afterRequests xs d) = Daemon.ssl d
     /\ map snd (requests xs d) = map firstOutcome xs)
    /\ (Daemon.sslDetermined (afterRequests xs d) = false ->
        Daemon.sslDetermined d = false
        /\ Daemon.ssl (afterRequests xs d) = Daemon.ssl d
        /\ Forall (fun entry => succeeded (snd entry) = false) (requests xs d))
    /\ (forall (A : Type) (x : Daemon.exchange A),
          Daemon.sslDetermined d = false ->
          let d' := fst (fst (Daemon.makeRequest x d)) in
          Daemon.sslDetermined d' = succeeded (snd (Daemon.makeRequest x d))
          /\ (Daemon.sslDetermined d' = true ->
              Daemon.ssl d' = match Daemon.first x with
                              | Daemon.Responded _ _ => true
                              | Daemon.Failed _ => false
                              end)).
Proof.
  intros xs d.
  assert (Hone : forall (A : Type) (x : Daemon.exchange A),
            Daemon.sslDetermined d = false ->
            let d' := fst (fst (Daemon.makeRequest x d)) in
            Daemon.sslDetermined d' = succeeded (snd (Daemon.makeRequest x d))
            /\ (Daemon.sslDetermined d' = true ->
                Daemon.ssl d' = match Daemon.first x with
                                | Daemon.Responded _ _ => true
                                | Daemon.Failed _ => false
                                end)).
  { intros A x Hd. pose proof (makeRequest_unsettled x d Hd) as Hopen.
    destruct (Daemon.makeRequest x d) as [[d1 ev] r]. cbn [fst snd].
    destruct (Daemon.first x); [|destruct (Daemon.plainHttp x)];
      destruct Hopen as (-> & -> & Hssl); cbn; split; auto; discriminate. }
  cut ((Daemon.sslDetermined d = true ->
        Daemon.sslDetermined (afterRequests xs d) = true
        /\ Daemon.ssl (afterRequests xs d) = Daemon.ssl d
        /\ map snd (requests xs d) = map firstOutcome xs)
       /\ (Daemon.sslDetermined (afterRequests xs d) = false ->
           Daemon.sslDetermined d = false
           /\ Daemon.ssl (afterRequests xs d) = Daemon.ssl d
           /\ Forall (fun entry => succeeded (snd entry) = false) (requests xs d))).
  { intros [H1 H2]. split; [exact H1|]. split; [exact H2|exact Hone]. }
  clear Hone. revert d.
  induction xs as [|[A x] xs IH]; intro d.
  - cbn. split; [auto|]. intro H. repeat split; auto.
  - cbn [afterRequests requests map].
    pose proof (makeRequest_settled x d) as Hsettled.
    pose proof (makeRequest_unsettled x d) as Hopen.
    destruct (Daemon.makeRequest x d) as [[d1 ev] r]. cbn [fst snd map].
    destruct (IH d1) as [IHsettled IHopen].
    split.
    + intro Hd. destruct (Hsettled Hd) as (Hd1 & Hssl & Hout).
      destruct (IHsettled Hd1) as (Hfinal & Hsslfinal & Htrace).
      split; [exact Hfinal|]. split; [congruence|]. now rewrite Hout, Htrace.
    + intro Hfinal. destruct (IHopen Hfinal) as (Hd1 & Hssl & Hall).
      destruct (Daemon.sslDetermined d) eqn:Hd.
      * destruct (Hsettled eq_refl) as (Hcontra & _). congruence.
      * specialize (Hopen eq_refl).
        destruct (Daemon.first x); [|destruct (Daemon.plainHttp x)];
          destruct Hopen as (Hr & Hdet & Hssl1); try congruence.
        split; [reflexivity|]. split; [congruence|].
        constructor; [|exact Hall]. cbn [snd]. rewrite Hr. reflexivity.
Qed.

(** ** Two resets deferred during one download *)

(** X22. [finishedFunc] holds one closure.  When a [reset] or [rewind] is
    deferred during a download and a second one is called before the
    download settles, the second closure replaces the first: neither call
    resolves its promise at once, and when the download settles, however it
    does, only the promise of the second call is resolved, the first one is
    not, and no closure is left that could resolve it. *)
Theorem second_deferred_mutation_replaces_first :
  forall (m1 m2 : WalletSynchronizer.mutation) (p1 p2 : nat)
         (answer : JS.completion Daemon.syncResult) (s : WalletSynchronizer.t),
    WalletSynchronizer.fetchingBlocks s = true ->
    p1 <> p2 ->
    let '(s1, ev1) := WalletSynchronizer.schedule m1 p1 s in
    let '(s2, ev2) := WalletSynchronizer.schedule m2 p2 s1 in
    let '(s', ev, _) := WalletSynchronizer.downloadBlocks_finish answer s2 in
    ev1 = [] /\ ev2 = []
    /\ WalletSynchronizer.finishedFunc s2 = Some (m2, p2)
    /\ resolutions ev = [p2]
    /\ ~ In (WalletSynchronizer.Resolved p1) ev
    /\ WalletSynchronizer.finishedFunc s' = None
    /\ WalletSynchronizer.fetchingBlocks s' = false.
Proof.
  intros m1 m2 p1 p2 answer s Hfetching Hdistinct.
  unfold WalletSynchronizer.schedule. rewrite Hfetching.
  cbn [WalletSynchronizer.fetchingBlocks WalletSynchronizer.set_finishedFunc].
  rewrite Hfetching.
  set (s2 := WalletSynchronizer.set_finishedFunc (Some (m2, p2)) _).
  pose proof (downloadBlocks_finish_frame answer s2) as Hframe.
  destruct (WalletSynchronizer.downloadBlocks_finish answer s2) as [[s' ev] result].
  destruct Hframe as (Hflag & Hnone & Hresolved & _).
  cbn in Hresolved.
  split; [reflexivity|]. split; [reflexivity|]. split; [reflexivity|].
  split; [exact Hresolved|]. split; [|split; assumption].
  intro Hin.
  assert (Hp1 : In p1 (resolutions ev)).
  { unfold resolutions. apply in_flat_map.
    exists (WalletSynchronizer.Resolved p1). split; [exact Hin|now left]. }
  rewrite Hresolved in Hp1. destruct Hp1 as [Heq|[]]. now apply Hdistinct.
Qed.

Lemma second_deferred_mutation_sample :
  let '(s1, ev1) :=
    WalletSynchronizer.schedule (WalletSynchronizer.ResetTo 1000 0) 1
      (fst (WalletSynchronizer.downloadBlocks_start pollingDaemon syncedTo1500)) in
  let '(s2, ev2) := WalletSynchronizer.schedule (WalletSynchronizer.RewindTo 1400) 2 s1 in
  let '(s', ev, _) :=
    WalletSynchronizer.downloadBlocks_finish (JS.Return ([], inr true)) s2 in
  ev1 = [] /\ ev2 = []
  /\ WalletSynchronizer.finishedFunc s2 = Some (WalletSynchronizer.RewindTo 1400, 2%nat)
  /\ resolutions ev = [2%nat]
  /\ ~ In (WalletSynchronizer.Resolved 1) ev
  /\ WalletSynchronizer.finishedFunc s' = None
  /\ WalletSynchronizer.fetchingBlocks s' = false.
Proof.
  apply (second_deferred_mutation_replaces_first
           (WalletSynchronizer.ResetTo 1000 0) (WalletSynchronizer.RewindTo 1400) 1 2
           (JS.Return ([], inr true))
           (fst (WalletSynchronizer.downloadBlocks_start pollingDaemon syncedTo1500))).
  - reflexivity.
  - discriminate.
Defined.

(** ** The batch size over a run of sync requests *)

(** The daemon after a run of [getWalletSyncData] calls, each with the
    environment of its request and the clock at its answer. *)
Fixpoint afterSyncRequests (envs : list (Daemon.exchange Daemon.SyncData * Z))
    (d : Daemon.t) : Daemon.t :=
  match envs with
  | [] => d
  | (x, now) :: rest =>
      afterSyncRequests rest (fst (fst (Daemon.getWalletSyncData x now d)))
  end.

(** The daemon answers the first exchange, with a [blocks] array. *)
Definition answersWithBlocks (env : Daemon.exchange Daemon.SyncData * Z) : Prop :=
  exists (data : Daemon.SyncData) (statusCode : Z),
    Daemon.first (fst env) = Daemon.Responded data statusCode
    /\ Daemon.blocks data <> None.

Lemma makeRequest_first_answer {A : Type} (x : Daemon.exchange A) (d : Daemon.t)
    (body : A) (statusCode : Z) :
  Daemon.first x = Daemon.Responded body statusCode ->
  snd (Daemon.makeRequest x d) = JS.Return (body, statusCode).
Proof.
  intro Hfirst. unfold Daemon.makeRequest. rewrite Hfirst.
  destruct (Daemon.emitConnect _). reflexivity.
Qed.

Lemma batch_step_bounds (cap b : Z) :
  1 <= b <= cap ->
  1 <= JS.ceil_div b 4 <= cap
  /\ 1 <= (if b =? cap then b else Z.min cap (b * 2)) <= cap
  /\ (if b =? cap then b else Z.min cap (b * 2)) = Z.min cap (b * 2).
Proof.
  intro Hb. pose proof (ceil_div_4_bounds b) as Hceil.
  destruct (b =? cap) eqn:Hcap; [apply Z.eqb_eq in Hcap|]; repeat split; lia.
Qed.

(** X23. The batch size of [getWalletSyncData] stays between 1 and the cap
    [blocksPerDaemonRequest] over every run of requests, whatever their
    outcomes, once it is there (it is the cap after [updateConfig]); the
    configuration is not touched.  Over a run of [k] requests that the
    daemon answers with a [blocks] array the batch size is doubled each
    time up to the cap: it ends at [min(cap, b * 2^k)], so it is back at
    the cap after at most [log2(cap)] answered requests. *)
Theorem batch_size_stays_in_range :
  forall (envs : list (Daemon.exchange Daemon.SyncData * Z)) (d : Daemon.t),
    1 <= Daemon.blockCount d <= blocksPerDaemonRequest (Daemon.config d) ->
    let cap := blocksPerDaemonRequest (Daemon.config d) in
    let d' := afterSyncRequests envs d in
    Daemon.config d' = Daemon.config d
    /\ 1 <= Daemon.blockCount d' <= cap
    /\ (Forall answersWithBlocks envs ->
        Daemon.blockCount d'
        = Z.min cap (Daemon.blockCount d * 2 ^ Z.of_nat (List.length envs))).
Proof.
  induction envs as [|[x now] rest IH]; intros d Hrange; cbv zeta.
  - cbn. split; [reflexivity|]. split; [exact Hrange|]. intros _. lia.
  - cbn [afterSyncRequests].
    destruct (getWalletSyncData_blockCount x now d) as [Hcfg Hbc].
    set (d1 := fst (fst (Daemon.getWalletSyncData x now d))) in *.
    destruct (batch_step_bounds _ _ Hrange) as (Hfail & Hok & Hdouble).
    assert (Hrange1 : 1 <= Daemon.blockCount d1
                      <= blocksPerDaemonRequest (Daemon.config d1)).
    { rewrite Hcfg, Hbc.
      destruct (snd (Daemon.makePostRequest x d)) as [[data code]|err]; [|exact Hfail].
      destruct (Daemon.blocks data); [exact Hok|exact Hrange]. }
    specialize (IH d1 Hrange1). cbv zeta in IH.
    destruct IH as (Hcfg' & Hrange' & Hrun).
    rewrite Hcfg in Hcfg', Hrange', Hrun.
    split; [exact Hcfg'|]. split; [exact Hrange'|].
    intro Hall. inversion Hall as [|? ? Hhere Hrest]; subst.
    rewrite (Hrun Hrest). clear Hrun.
    destruct Hhere as (data & code & Hfirst & Hblocks). cbn [fst] in Hfirst.
    unfold Daemon.makePostRequest in Hbc.
    rewrite (makeRequest_first_answer x d data code Hfirst) in Hbc.
    destruct (Daemon.blocks data) as [raw|]; [|now elim Hblocks].
    rewrite Hbc, Hdouble. cbn [List.length].
    rewrite Nat2Z.inj_succ, Z.pow_succ_r by lia.
    pose proof (Z.pow_pos_nonneg 2 (Z.of_nat (List.length rest)) ltac:(lia) ltac:(lia))
      as Hpow.
    set (p := 2 ^ Z.of_nat (List.length rest)) in *.
    set (b := Daemon.blockCount d) in *.
    set (cap := blocksPerDaemonRequest (Daemon.config d)) in *.
    destruct (Z.min_spec cap (b * 2)) as [[Hlt ->]|[Hle ->]];
      destruct (Z.min_spec cap (b * (2 * p))) as [[Hlt2 ->]|[Hle2 ->]];
      destruct (Z.min_spec cap (cap * p)) as [[Hlt3 Hm3]|[Hle3 Hm3]];
      destruct (Z.min_spec cap (b * 2 * p)) as [[Hlt4 Hm4]|[Hle4 Hm4]];
      rewrite ?Hm3, ?Hm4; nia.
Qed.

Lemma batch_size_sample :
  let cap := blocksPerDaemonRequest (Daemon.config sampleDaemon) in
  let d' := afterSyncRequests [(timedOut Daemon.SyncData, 10)] sampleDaemon in
  Daemon.config d' = Daemon.config sampleDaemon
  /\ 1 <= Daemon.blockCount d' <= cap
  /\ (Forall answersWithBlocks [(timedOut Daemon.SyncData, 10)] ->
      Daemon.blockCount d'
      = Z.min cap (Daemon.blockCount sampleDaemon
                   * 2 ^ Z.of_nat (List.length [(timedOut Daemon.SyncData, 10)]))).
Proof.
  apply (batch_size_stays_in_range [(timedOut Daemon.SyncData, 10)] sampleDaemon).
  cbn. lia.
Defined.
